(** * PixelMix trainer (pixelmix_t2_wobest.py): a shallow embedding

    The development follows the layout of the Python source:
    - [Tensor]: the torch operations the trainer itself applies to its
      tensors ([unsqueeze], [repeat], [where] with broadcasting, [max] and
      [argmax] along the class dimension, [squeeze], tuple unpacking);
    - the pseudo-label policies and the hybrid image of the "Ours" block;
    - the trainer state, a state-and-exception monad, and the methods
      [poly_lr_scheduler], [validate], [save_checkpoint], [load_checkpoint],
      [train_one_epoch] and [train];
    - the properties of the specification, one theorem per claim.

    Python floats are modelled by their exact rational values ([Q]); a
    comparison of a [float32] tensor with a Python float first rounds the
    float ([Float32]), and [**] raises, or returns a complex number, where
    Python does.  The external collaborators (the segmentation model,
    softmax, cross entropy, the perturbation functions, the optimizer and
    the evaluator) are fields of one record of externals. *)

From Stdlib Require Import QArith Qround ZArith List Bool Lia.
From stdpp Require Import gmap strings.

Local Open Scope Z_scope.

(** ** Python exceptions and results *)

Inductive exn : Type :=
| TypeError | ValueError | RuntimeError | IndexError
| AttributeError | UnboundLocalError | ZeroDivisionError | NotImplementedError
| OverflowError.


Inductive result (A : Type) : Type :=
| Ok (a : A)
| Raise (e : exn).
Arguments Ok {A} a.
Arguments Raise {A} e.

#[global] Instance result_ret : MRet result := fun _ a => Ok a.
#[global] Instance result_bind : MBind result := fun _ _ f m =>
  match m with Ok a => f a | Raise e => Raise e end.
#[global] Instance result_fmap : FMap result := fun _ _ f m =>
  match m with Ok a => Ok (f a) | Raise e => Raise e end.

(** ** Floats as rationals

    [a > b] on floats.  The comparison never meets NaN in this model. *)
Definition Qgtb (a b : Q) : bool := negb (Qle_bool a b).

(** The conversion of a Python float to the [float32] of a tensor it is
    compared with: a rounding, which keeps the order. *)
Record Float32 : Type := {
  to_float32 : Q -> Q;
  to_float32_le : forall a b : Q, (a <= b)%Q -> (to_float32 a <= to_float32 b)%Q
}.

(** The conversion that rounds nothing. *)
Definition exact_float32 : Float32 :=
  {| to_float32 := fun q => q; to_float32_le := fun a b H => H |}.

(** Rounding to the nearest multiple of [2^-24], the [float32] numbers
    between 1/2 and 1. *)
Definition nearest_2_24 (q : Q) : Q :=
  (inject_Z (Qfloor (q * 16777216 + (1 # 2))) / 16777216)%Q.

(** Single precision between 1/2 and 1. *)
Definition near_one_float32 : Float32.
Proof.
  refine {| to_float32 := nearest_2_24 |}.
  intros a b Hab. unfold nearest_2_24, Qdiv.
  apply Qmult_le_compat_r; [|discriminate].
  rewrite <- Zle_Qle. apply Qfloor_resp_le.
  apply Qplus_le_l. apply Qmult_le_compat_r; [exact Hab | discriminate].
Defined.

(** A Python number: a float or, from a negative float raised to a
    fractional power, a complex number. *)
Inductive pynum : Type :=
| PyFloat (v : Q)
| PyComplex (re im : Q).

(** [a * x] for a float [a]. *)
Definition scale (a : Q) (x : pynum) : pynum :=
  match x with
  | PyFloat v => PyFloat (a * v)
  | PyComplex re im => PyComplex (a * re) (a * im)
  end.

(** [power != floor(power)] is false. *)
Definition is_integer (q : Q) : bool := Qeq_bool q (inject_Z (Qfloor q)).

(** ** Tensors

    A tensor is a shape and an element function on index lists; only the
    elements at in-range indices are meaningful. *)
Module Tensor.

Record tensor (A : Type) : Type := mk { shape : list nat; elt : list nat -> A }.
Arguments mk {A} shape elt.
Arguments shape {A} t.
Arguments elt {A} t i.

(** [i] is a valid index of a tensor of shape [s]. *)
Definition in_range (s i : list nat) : Prop := Forall2 lt i s.

Definition tmap {A B} (f : A -> B) (t : tensor A) : tensor B :=
  mk (shape t) (fun i => f (elt t i)).

Definition full {A} (s : list nat) (a : A) : tensor A := mk s (fun _ => a).

(** [t[k]]: selection along the first dimension. *)
Definition select0 {A} (t : tensor A) (k : nat) : tensor A :=
  mk (tail (shape t)) (fun i => elt t (k :: i)).

(** [a, b = t]: Python tuple unpacking of a tensor iterates over its first
    dimension. *)
Definition unpack2 {A} (t : tensor A) : result (tensor A * tensor A) :=
  match shape t with
  | [] => Raise TypeError
  | 2%nat :: _ => Ok (select0 t 0, select0 t 1)
  | _ => Raise ValueError
  end.

(** [t.unsqueeze(0)] *)
Definition unsqueeze0 {A} (t : tensor A) : tensor A :=
  mk (1%nat :: shape t) (fun i => elt t (tail i)).

(** [t.unsqueeze(dim=1)] *)
Definition unsqueeze1 {A} (t : tensor A) : result (tensor A) :=
  match shape t with
  | [] => Raise IndexError
  | d0 :: rest =>
      Ok (mk (d0 :: 1%nat :: rest)
            (fun i => match i with
                      | i0 :: _ :: r => elt t (i0 :: r)
                      | _ => elt t i
                      end))
  end.

(** [t.squeeze(dim=1)]: drops dimension 1 when its size is 1. *)
Definition squeeze1 {A} (t : tensor A) : result (tensor A) :=
  match shape t with
  | d0 :: 1%nat :: rest =>
      Ok (mk (d0 :: rest)
            (fun i => match i with
                      | i0 :: r => elt t (i0 :: 0%nat :: r)
                      | [] => elt t []
                      end))
  | _ :: _ :: _ => Ok t
  | _ => Raise IndexError
  end.

(** [t.repeat(reps)]: the shape is padded on the left with ones up to the
    number of repeat counts, each dimension is tiled. *)
Definition repeat {A} (reps : list nat) (t : tensor A) : result (tensor A) :=
  let n := length (shape t) in
  let m := length reps in
  if (m <? n)%nat then Raise RuntimeError
  else
    let padded := replicate (m - n) 1%nat ++ shape t in
    Ok (mk (zip_with Nat.mul reps padded)
          (fun i => elt t (drop (m - n) (zip_with Nat.modulo i padded)))).

(** Broadcasting of two shapes, aligned on the last dimension. *)
Fixpoint broadcast_rev (a b : list nat) : option (list nat) :=
  match a, b with
  | [], _ => Some b
  | _, [] => Some a
  | x :: a', y :: b' =>
      match broadcast_rev a' b' with
      | None => None
      | Some r =>
          if (x =? y)%nat then Some (x :: r)
          else if (x =? 1)%nat then Some (y :: r)
          else if (y =? 1)%nat then Some (x :: r)
          else None
      end
  end.

Definition broadcast (a b : list nat) : option (list nat) :=
  @rev nat <$> broadcast_rev (rev a) (rev b).

(** The index of an operand of shape [s] that a result index [i] reads. *)
Definition proj (s i : list nat) : list nat :=
  zip_with (fun d k => if (d =? 1)%nat then 0%nat else k)
           s (drop (length i - length s) i).

(** [torch.where(c, x, y)] *)
Definition where_ {A} (c : tensor bool) (x y : tensor A) : result (tensor A) :=
  match broadcast (shape c) (shape x) with
  | None => Raise RuntimeError
  | Some s1 =>
      match broadcast s1 (shape y) with
      | None => Raise RuntimeError
      | Some s =>
          Ok (mk s (fun i =>
                      if elt c (proj (shape c) i)
                      then elt x (proj (shape x) i)
                      else elt y (proj (shape y) i)))
      end
  end.

(** [a | b] on boolean tensors. *)
Definition or_ (a b : tensor bool) : result (tensor bool) :=
  match broadcast (shape a) (shape b) with
  | None => Raise RuntimeError
  | Some s =>
      Ok (mk s (fun i => elt a (proj (shape a) i) || elt b (proj (shape b) i)))
  end.

(** Scan of the entries [f 0 .. f n] for the maximum and the first index
    that reaches it. *)
Fixpoint scan_max (f : nat -> Q) (n : nat) : Q * nat :=
  match n with
  | O => (f O, O)
  | S m =>
      let '(v, k) := scan_max f m in
      if Qgtb (f (S m)) v then (f (S m), S m) else (v, k)
  end.

(** [torch.max(t, dim=1)]: values and indices. *)
Definition max_dim1 (t : tensor Q) : result (tensor Q * tensor Z) :=
  match shape t with
  | d0 :: S k :: rest =>
      let line i j :=
        match i with
        | i0 :: r => elt t (i0 :: j :: r)
        | [] => elt t []
        end in
      Ok (mk (d0 :: rest) (fun i => fst (scan_max (line i) k)),
          mk (d0 :: rest) (fun i => Z.of_nat (snd (scan_max (line i) k))))
  | _ => Raise IndexError
  end.

(** [torch.argmax(t, dim=1)] *)
Definition argmax_dim1 (t : tensor Q) : result (tensor Z) :=
  snd <$> max_dim1 t.

(** [(a + b) / 2] elementwise on tensors of probabilities. *)
Definition mean2 (a b : tensor Q) : result (tensor Q) :=
  match broadcast (shape a) (shape b) with
  | None => Raise RuntimeError
  | Some s =>
      Ok (mk s (fun i => ((elt a (proj (shape a) i) + elt b (proj (shape b) i)) / 2)%Q))
  end.

End Tensor.
Import Tensor.

(** ** Data of the trainer *)

(** A batch of a data loader: [(image, label, id)]. *)
Record Batch : Type := { image : tensor Q; label : tensor Z; id : string }.

(** What the model returns: one prediction map or a [(main, auxiliary)]
    tuple. *)
Inductive Pred : Type :=
| PSingle (p : tensor Q)
| PTuple (p1 p2 : tensor Q).

(** The helper of [train_one_epoch]:
    [(x[0], x[1]) if isinstance(x, tuple) else (x, None)]. *)
Definition unpack (x : Pred) : tensor Q * option (tensor Q) :=
  match x with
  | PTuple p1 p2 => (p1, Some p2)
  | PSingle p => (p, None)
  end.

(** [a, b = self.model(...)]: the tuple is destructured, a tensor is
    iterated over its first dimension. *)
Definition destructure2 (x : Pred) : result (tensor Q * tensor Q) :=
  match x with
  | PTuple p1 p2 => Ok (p1, p2)
  | PSingle p => unpack2 p
  end.

(** [self.ignore_index] and [torch.ones(1) * self.ignore_index]. *)
Definition ignore_index : Z := -1.
Definition ignore_tensor : tensor Z := full [1%nat] ignore_index.

(** [maxpred > T] on a [float32] tensor and a Python float: the float is
    converted to the type of the tensor before the comparison. *)
Definition gt_scalar (f32 : Float32) (t : tensor Q) (T : Q) : tensor bool :=
  tmap (fun c => Qgtb c (to_float32 f32 T)) t.

(** ** Pseudo labels and the hybrid image (the "Ours" block) *)

Section PseudoLabels.
(** [F.softmax(., dim=1)] *)
Variable softmax : tensor Q -> tensor Q.
(** The conversion of a threshold to [float32]. *)
Variable f32 : Float32.

(** Lines 237-248: from the main prediction on the target image and the
    source labels [y] to [(label_1, mask_1)]. *)
Definition self_best_pseudo (T : Q) (pseudo_outputs3_1 : tensor Q) (y : tensor Z)
  : result (tensor Z * tensor bool) :=
  let pseudo3_1 := softmax pseudo_outputs3_1 in
  label_best ← argmax_dim1 pseudo3_1;
  '(maxpred_best, argpred_best) ← max_dim1 pseudo3_1;
  let mask_1 := gt_scalar f32 maxpred_best T in
  label_1 ← where_ mask_1 label_best y;
  mret (label_1, mask_1).

(** Lines 250-251: the mask is given a leading dimension, tiled three
    times along dimension 1 and selects between target and source. *)
Definition hybrid_image (mask_1 : tensor bool) (x x_source : tensor Q)
  : result (tensor Q) :=
  mask_1 ← repeat [1; 3; 1; 1]%nat (unsqueeze0 mask_1);
  where_ mask_1 x x_source.

(** The labels and masks of the original pseudo-label pass. *)
Record Original : Type := {
  label_1 : tensor Z;
  mask_1 : tensor bool;
  label_2 : option (tensor Z);
  mask : option (tensor bool)
}.

(** Lines 277-291. *)
Definition original_pseudo (T : Q) (aux : bool)
    (pred_1 : tensor Q) (pred_2 : option (tensor Q)) : result Original :=
  let pred_P_1 := softmax pred_1 in
  label_1 ← argmax_dim1 pred_P_1;
  '(maxpred_1, argpred_1) ← max_dim1 pred_P_1;
  let mask_1 := gt_scalar f32 maxpred_1 T in
  label_1 ← where_ mask_1 label_1 ignore_tensor;
  if aux then
    pred_2 ← match pred_2 with Some p => Ok p | None => Raise AttributeError end;
    let pred_P_2 := softmax pred_2 in
    '(maxpred_2, argpred_2) ← max_dim1 pred_P_2;
    pred_c ← mean2 pred_P_1 pred_P_2;
    '(maxpred_c, argpred_c) ← max_dim1 pred_c;
    mask ← or_ (gt_scalar f32 maxpred_1 T) (gt_scalar f32 maxpred_2 T);
    label_2 ← where_ mask argpred_c ignore_tensor;
    mret {| label_1 := label_1; mask_1 := mask_1;
            label_2 := Some label_2; mask := Some mask |}
  else
    mret {| label_1 := label_1; mask_1 := mask_1;
            label_2 := None; mask := None |}.
End PseudoLabels.

(** ** Configuration, model, optimizer, EMA and trainer state *)

(** The fields of [self.cfg] the trainer reads. *)
Module cfg.
Record t : Type := {
  train : bool;
  resume_from_checkpoint : bool;        (* cfg.model.resume_from_checkpoint *)
  num_target : Z;
  source_fourier : bool;
  fourier_beta : Q;
  aux : bool;
  lam_aux : Q;
  lam_new : Q;
  lam_aug : Q;
  lam_fourier : Q;
  lam_cutmix : Q;
  pseudobest_threshold : Q;
  pseudolabel_threshold : Q;
  opt_lr : Q;                           (* cfg.opt.lr *)
  opt_iterations : Z;                   (* cfg.opt.iterations *)
  opt_poly_power : Q;                   (* cfg.opt.poly_power *)
  class_16 : bool;                      (* cfg.data.source.kwargs.class_16 *)
  source_val_iterations : Z             (* cfg.data.source_val_iterations *)
}.
End cfg.

(** Named parameters: a map from parameter names to arrays. *)
Abbreviation params := (gmap string (tensor Q)).

(** [self.model]: trainable parameters, running-statistic buffers and the
    train/eval mode. *)
Record Model : Type := {
  parameters : params;
  buffers : params;
  training : bool
}.

(** [self.optimizer]: the learning rate of each parameter group and the
    optimizer's own state (momentum). *)
Record Optimizer : Type := {
  param_groups : list pynum;
  state : params
}.

(** [self.ema].  Modelled from the spec: the class [EMA] of models/ema.py is
    not part of the sources; the state is the EMAState record of the data
    model: shadow parameters, shadow buffers, backup parameters and decay. *)
Record EMA : Type := {
  shadow : params;
  shadow_buffers : params;
  backup : params;
  decay : Q
}.

(** Values stored in a checkpoint dictionary: numbers, arrays and nested
    dictionaries with string keys. *)
#[warnings="-register-all"]
Inductive pyval : Type :=
| VInt (n : Z)
| VFloat (q : Q)
| VTensor (a : tensor Q)
| VDict (d : gmap string pyval).

(** A checkpoint file: a dictionary with string keys. *)
Abbreviation checkpoint := (gmap string pyval).

(** The result of an evaluator metric: one number, or the pair of its
    16-class and 13-class variants. *)
Inductive metric : Type :=
| One (v : Q)
| Two (v_16 v_13 : Q).

(** Calls of the collaborators, in the order they happen. *)
Inductive event : Type :=
| EvForward (grad_enabled : bool) (x : tensor Q)
| EvFourierMix
| EvAugment
| EvCutmix
| EvBackward (name : string) (value : Q)
| EvOptimizerStep
| EvZeroGrad
| EvUpdateParams
| EvUpdateBuffer
| EvApplyShadow
| EvRestore
| EvValidate
| EvSave (filename : string).

(** Lines written with [self.logger.info]. *)
Inductive logline : Type :=
| LogLosses (epoch : Z) (losses : list (string * Q))
| LogValidating
| LogMetrics (PA MPA MIoU FWIoU PC : Q)
| LogNewBest (best_MIou : Q) (best_iter : Z)
| LogNoImprovement (best_MIou : Q) (best_iter : Z)
| LogBestWas (best_MIou : Q) (best_iter : Z)
| LogSavingFinal
| LogModelLoaded
| LogOptimizerLoaded
| LogResuming (epoch iter : Z)
| LogNoResume.

(** The trainer object.  [best_iter] is an attribute that [__init__] does
    not create: it is [None] until the first assignment.  [grad] is the
    gradient buffer shared by the loss terms of one step, kept as the list
    of the terms propagated into it; [writer], [logger] and [files] record
    the scalars, the log lines and the checkpoints written. *)
Record Trainer : Type := mkTrainer {
  epoch : Z;
  iter : Z;
  current_MIoU : Q;
  best_MIou : Q;
  best_iter : option Z;
  continue_training : bool;
  model : Model;
  ema : EMA;
  optimizer : Optimizer;
  grad : list (string * Q);
  evaluator : list (tensor Z * tensor Z);
  writer : list (string * Q * Z);
  logger : list logline;
  files : list (string * checkpoint);
  trace : list event
}.

Definition set_epoch (v : Z) (s : Trainer) : Trainer :=
  let (a1, a2, a3, a4, a5, a6, a7, a8, a9, a10, a11, a12, a13, a14, a15) := s in
  mkTrainer v a2 a3 a4 a5 a6 a7 a8 a9 a10 a11 a12 a13 a14 a15.
Definition set_iter (v : Z) (s : Trainer) : Trainer :=
  let (a1, a2, a3, a4, a5, a6, a7, a8, a9, a10, a11, a12, a13, a14, a15) := s in
  mkTrainer a1 v a3 a4 a5 a6 a7 a8 a9 a10 a11 a12 a13 a14 a15.
Definition set_current_MIoU (v : Q) (s : Trainer) : Trainer :=
  let (a1, a2, a3, a4, a5, a6, a7, a8, a9, a10, a11, a12, a13, a14, a15) := s in
  mkTrainer a1 a2 v a4 a5 a6 a7 a8 a9 a10 a11 a12 a13 a14 a15.
Definition set_best_MIou (v : Q) (s : Trainer) : Trainer :=
  let (a1, a2, a3, a4, a5, a6, a7, a8, a9, a10, a11, a12, a13, a14, a15) := s in
  mkTrainer a1 a2 a3 v a5 a6 a7 a8 a9 a10 a11 a12 a13 a14 a15.
Definition set_best_iter (v : option Z) (s : Trainer) : Trainer :=
  let (a1, a2, a3, a4, a5, a6, a7, a8, a9, a10, a11, a12, a13, a14, a15) := s in
  mkTrainer a1 a2 a3 a4 v a6 a7 a8 a9 a10 a11 a12 a13 a14 a15.
Definition set_continue_training (v : bool) (s : Trainer) : Trainer :=
  let (a1, a2, a3, a4, a5, a6, a7, a8, a9, a10, a11, a12, a13, a14, a15) := s in
  mkTrainer a1 a2 a3 a4 a5 v a7 a8 a9 a10 a11 a12 a13 a14 a15.
Definition set_model (v : Model) (s : Trainer) : Trainer :=
  let (a1, a2, a3, a4, a5, a6, a7, a8, a9, a10, a11, a12, a13, a14, a15) := s in
  mkTrainer a1 a2 a3 a4 a5 a6 v a8 a9 a10 a11 a12 a13 a14 a15.
Definition set_ema (v : EMA) (s : Trainer) : Trainer :=
  let (a1, a2, a3, a4, a5, a6, a7, a8, a9, a10, a11, a12, a13, a14, a15) := s in
  mkTrainer a1 a2 a3 a4 a5 a6 a7 v a9 a10 a11 a12 a13 a14 a15.
Definition set_optimizer (v : Optimizer) (s : Trainer) : Trainer :=
  let (a1, a2, a3, a4, a5, a6, a7, a8, a9, a10, a11, a12, a13, a14, a15) := s in
  mkTrainer a1 a2 a3 a4 a5 a6 a7 a8 v a10 a11 a12 a13 a14 a15.
Definition set_grad (v : list (string * Q)) (s : Trainer) : Trainer :=
  let (a1, a2, a3, a4, a5, a6, a7, a8, a9, a10, a11, a12, a13, a14, a15) := s in
  mkTrainer a1 a2 a3 a4 a5 a6 a7 a8 a9 v a11 a12 a13 a14 a15.
Definition set_evaluator (v : list (tensor Z * tensor Z)) (s : Trainer) : Trainer :=
  let (a1, a2, a3, a4, a5, a6, a7, a8, a9, a10, a11, a12, a13, a14, a15) := s in
  mkTrainer a1 a2 a3 a4 a5 a6 a7 a8 a9 a10 v a12 a13 a14 a15.
Definition set_writer (v : list (string * Q * Z)) (s : Trainer) : Trainer :=
  let (a1, a2, a3, a4, a5, a6, a7, a8, a9, a10, a11, a12, a13, a14, a15) := s in
  mkTrainer a1 a2 a3 a4 a5 a6 a7 a8 a9 a10 a11 v a13 a14 a15.
Definition set_logger (v : list logline) (s : Trainer) : Trainer :=
  let (a1, a2, a3, a4, a5, a6, a7, a8, a9, a10, a11, a12, a13, a14, a15) := s in
  mkTrainer a1 a2 a3 a4 a5 a6 a7 a8 a9 a10 a11 a12 v a14 a15.
Definition set_files (v : list (string * checkpoint)) (s : Trainer) : Trainer :=
  let (a1, a2, a3, a4, a5, a6, a7, a8, a9, a10, a11, a12, a13, a14, a15) := s in
  mkTrainer a1 a2 a3 a4 a5 a6 a7 a8 a9 a10 a11 a12 a13 v a15.
Definition set_trace (v : list event) (s : Trainer) : Trainer :=
  let (a1, a2, a3, a4, a5, a6, a7, a8, a9, a10, a11, a12, a13, a14, a15) := s in
  mkTrainer a1 a2 a3 a4 a5 a6 a7 a8 a9 a10 a11 a12 a13 a14 v.

(** The collaborators that live outside the trainer's source file.  The
    model is a function of the model state and its input: the running
    statistics that a forward pass in train mode updates and the random
    choices of a forward pass or of a perturbation are not modelled.  Shape
    errors raised inside a collaborator are not modelled. *)
Record Externals : Type := {
  (* self.model(x, forward_target=...) *)
  forward_model : Model -> Z -> tensor Q -> Pred;
  (* hasattr(self.model, 'module') *)
  has_module : bool;
  (* F.softmax(., dim=1) *)
  softmax : tensor Q -> tensor Q;
  (* self.loss = nn.CrossEntropyLoss(ignore_index=-1) *)
  loss : tensor Q -> tensor Z -> Q;
  (* the conversion of a Python float to float32 *)
  float32 : Float32;
  (* base ** power on floats, base and power not 0 and base not 1: the
     float of a real power, the parts of a complex power, None when the
     power overflows *)
  float_pow : Q -> Q -> option Q;
  complex_pow : Q -> Q -> option (Q * Q);
  (* what self.writer.add_scalar makes of a complex value: the float it
     records or the exception it raises *)
  complex_scalar : Q -> Q -> result Q;
  (* perturbations *)
  fourier_mix : tensor Q -> tensor Q -> Q -> tensor Q;
  augment : tensor Q -> tensor Z -> tensor Q * tensor Z;
  cutmix_combine :
    tensor Q -> tensor Z -> tensor Q -> tensor Z -> tensor Q * tensor Z;
  (* optimizer.step() on the accumulated gradients *)
  optimizer_step : Optimizer -> list (string * Q) -> Model -> Optimizer * Model;
  (* model.load_state_dict(state_dict, strict): the tensors are copied in
     place, so the model may have changed when the call raises *)
  load_state_dict : bool -> Model -> gmap string pyval -> result unit * Model;
  (* optimizer.state_dict() and optimizer.load_state_dict(d) *)
  optimizer_state_dict : Optimizer -> pyval;
  optimizer_load_state_dict : Optimizer -> pyval -> result Optimizer;
  (* the metrics of utils.eval.Eval on the batches added since reset *)
  Pixel_Accuracy : list (tensor Z * tensor Z) -> Q;
  Mean_Pixel_Accuracy : list (tensor Z * tensor Z) -> metric;
  Mean_Intersection_over_Union : list (tensor Z * tensor Z) -> metric;
  Frequency_Weighted_Intersection_over_Union : list (tensor Z * tensor Z) -> metric;
  Mean_Precision : list (tensor Z * tensor Z) -> metric;
  (* the data loaders; the training loaders are shuffled, so their batches
     depend on how many times they have been iterated *)
  source_dataloader : Z -> list Batch;
  target_dataloader : Z -> list Batch;
  source_val_dataloader : list Batch;
  target_val_dataloader : list Batch
}.


(** ** The state-and-exception monad of the trainer's methods

    A method transforms the trainer and either returns a value or raises;
    the mutations made before an exception stay in place. *)
Definition M (A : Type) : Type := Trainer -> result A * Trainer.

#[global] Instance M_ret : MRet M := fun _ a s => (Ok a, s).
#[global] Instance M_bind : MBind M := fun _ _ f m s =>
  match m s with
  | (Ok a, s') => f a s'
  | (Raise e, s') => (Raise e, s')
  end.

Definition raise {A} (e : exn) : M A := fun s => (Raise e, s).
Definition lift {A} (r : result A) : M A := fun s => (r, s).
Definition gets {A} (f : Trainer -> A) : M A := fun s => (Ok (f s), s).
Definition modify (f : Trainer -> Trainer) : M unit := fun s => (Ok tt, f s).
Definition emit (e : event) : M unit := modify (fun s => set_trace (trace s ++ [e]) s).
Definition log_info (l : logline) : M unit :=
  modify (fun s => set_logger (logger s ++ [l]) s).
(** [self.writer.add_scalar(tag, value, step)] *)
Definition add_scalar (tag : string) (value : Q) (step : Z) : M unit :=
  modify (fun s => set_writer (writer s ++ [(tag, value, step)]) s).
(** [del v] on a local variable that may not have been assigned. *)
Definition del (bound : bool) : M unit :=
  if bound then mret tt else raise UnboundLocalError.

(** A Python dictionary filled by assignment, in insertion order. *)
Fixpoint dict_set {A} (k : string) (v : A) (d : list (string * A)) : list (string * A) :=
  match d with
  | [] => [(k, v)]
  | (k', v') :: d' =>
      if String.eqb k k' then (k, v) :: d' else (k', v') :: dict_set k v d'
  end.

(** [sum(d.values())] *)
Definition sum_values (d : list (string * Q)) : Q :=
  fold_left Qplus (map snd d) 0%Q.

(** [v.items()] *)
Definition items (v : pyval) : result (gmap string pyval) :=
  match v with
  | VDict d => Ok d
  | _ => Raise AttributeError
  end.

(** [k.replace('module.', '')]: every occurrence is removed, left to right;
    [skip] counts the characters of an occurrence still to drop. *)
Fixpoint replace_module (skip : nat) (k : string) : string :=
  match k with
  | EmptyString => EmptyString
  | String c k' =>
      match skip with
      | S n => replace_module n k'
      | O =>
          if String.prefix "module." k then replace_module 6 k'
          else String c (replace_module O k')
      end
  end.

(** [{k.replace('module.', ''): v for k, v in state_dict.items()}].  A
    Python dictionary keeps its insertion order and the later of two keys
    that are renamed to the same key wins; the finite map here has no
    insertion order, so [strip_module] is the dictionary of the source only
    when no two keys collide, and the statements about the renamed
    dictionary carry this hypothesis ([no_collision]). *)
Definition strip_module (state_dict : gmap string pyval) : gmap string pyval :=
  list_to_map (reverse (prod_map (replace_module 0) (fun v => v) <$> map_to_list state_dict)).

(** [model.state_dict()] *)
Definition state_dict (m : Model) : pyval :=
  VDict (VTensor <$> (parameters m ∪ buffers m)).

Definition set_training (b : bool) (m : Model) : Model :=
  {| parameters := parameters m; buffers := buffers m; training := b |}.
Definition set_parameters (p : params) (m : Model) : Model :=
  {| parameters := p; buffers := buffers m; training := training m |}.

(** ** The EMA shadow *)

(** [t1 * a + t2 * b] elementwise. *)
Definition blend (a b : Q) (t1 t2 : tensor Q) : tensor Q :=
  mk (shape t1) (fun i => (a * elt t1 i + b * elt t2 i)%Q).

(** Modelled from the spec: [EMA.update_params] of models/ema.py,
    [shadow = decay*shadow + (1-decay)*live] over the trainable
    parameters. *)
Definition update_params (e : EMA) (m : Model) : EMA :=
  {| shadow := map_imap (fun k sh =>
                 Some (match parameters m !! k with
                       | Some live => blend (decay e) (1 - decay e)%Q sh live
                       | None => sh
                       end)) (shadow e);
     shadow_buffers := shadow_buffers e;
     backup := backup e;
     decay := decay e |}.

(** Modelled from the spec: [EMA.update_buffer] of models/ema.py, the
    running statistics are copied from live to shadow without decay. *)
Definition update_buffer (e : EMA) (m : Model) : EMA :=
  {| shadow := shadow e;
     shadow_buffers := buffers m;
     backup := backup e;
     decay := decay e |}.

(** Modelled from the spec: [EMA.apply_shadow] of models/ema.py, the live
    parameters are backed up and replaced by the shadow parameters. *)
Definition apply_shadow (s : Trainer) : Trainer :=
  let e := ema s in
  set_model (set_parameters (shadow e) (model s))
    (set_ema {| shadow := shadow e; shadow_buffers := shadow_buffers e;
                backup := parameters (model s); decay := decay e |} s).

(** Modelled from the spec: [EMA.restore] of models/ema.py, the live
    parameters are taken back from the backup, which is emptied. *)
Definition restore (s : Trainer) : Trainer :=
  let e := ema s in
  set_model (set_parameters (backup e) (model s))
    (set_ema {| shadow := shadow e; shadow_buffers := shadow_buffers e;
                backup := ∅; decay := decay e |} s).

(** ** The methods of [Trainer] *)

Section Methods.
Variable E : Externals.
Variable c : cfg.t.

(** [Trainer.__init__]: the counters start at zero and [best_iter] is not
    assigned. *)
Definition new_trainer (m : Model) (e : EMA) (o : Optimizer) : Trainer :=
  {| epoch := 0; iter := 0; current_MIoU := 0%Q; best_MIou := 0%Q;
     best_iter := None; continue_training := false;
     model := m; ema := e; optimizer := o; grad := [];
     evaluator := []; writer := []; logger := []; files := []; trace := [] |}.

(** [base ** power] on Python floats: 1 for the power 0 and for the base
    1, [ZeroDivisionError] for 0 to a negative power, a complex number for
    a negative base with a power that is not an integer, [OverflowError]
    when the result is out of range. *)
Definition float_power (base power : Q) : result pynum :=
  if Qeq_bool power 0 then Ok (PyFloat 1)
  else if Qeq_bool base 0 then
    if Qgtb 0 power then Raise ZeroDivisionError else Ok (PyFloat 0)
  else if Qeq_bool base 1 then Ok (PyFloat 1)
  else if Qgtb 0 base && negb (is_integer power) then
    match complex_pow E base power with
    | Some (re, im) => Ok (PyComplex re im)
    | None => Raise OverflowError
    end
  else
    match float_pow E base power with
    | Some v => Ok (PyFloat v)
    | None => Raise OverflowError
    end.

(** [poly_lr_scheduler(self, optimizer, init_lr, iter, max_iter, power)]
    on the learning rates of the optimizer's parameter groups. *)
Definition poly_lr_scheduler (self_iter : Z) (groups : list pynum)
    (init_lr : option Q) (iter : option Z) (max_iter : option Z)
    (power : option Q) : result (list pynum) :=
  let init_lr := default (cfg.opt_lr c) init_lr in
  let iter := default self_iter iter in
  let max_iter := default (cfg.opt_iterations c) max_iter in
  let power := default (cfg.opt_poly_power c) power in
  if max_iter =? 0 then Raise ZeroDivisionError
  else
    x ← float_power (1 - inject_Z iter / inject_Z max_iter) power;
    let new_lr := scale init_lr x in
    match groups with
    | [] => Raise IndexError
    | _ :: rest =>
        let groups := new_lr :: rest in
        if (length groups =? 2)%nat then Ok (<[1%nat := scale 10 new_lr]> groups)
        else Ok groups
    end.

(** [self.poly_lr_scheduler(optimizer=self.optimizer)] *)
Definition schedule : M unit :=
  s ← gets (fun s => s);
  groups ← lift (poly_lr_scheduler (iter s) (param_groups (optimizer s))
                   None None None None);
  modify (set_optimizer {| param_groups := groups; state := state (optimizer s) |}).

(** The value [self.writer.add_scalar] records for a Python number. *)
Definition scalar_value (x : pynum) : result Q :=
  match x with
  | PyFloat v => Ok v
  | PyComplex re im => complex_scalar E re im
  end.

(** [save_checkpoint(self, filename)] *)
Definition save_checkpoint (filename : string) : M unit :=
  s ← gets (fun s => s);
  _ ← emit (EvSave filename);
  let payload : checkpoint :=
    <["epoch" := VInt (epoch s + 1)]>
    (<["iter" := VInt (iter s)]>
    (<["state_dict" := state_dict (model s)]>
    (<["shadow" := VDict (VTensor <$> (shadow (ema s) ∪ shadow_buffers (ema s)))]>
    (<["optimizer" := optimizer_state_dict E (optimizer s)]>
    (<["best_MIou" := VFloat (best_MIou s)]> ∅))))) in
  modify (fun s => set_files (files s ++ [(filename, payload)]) s).

(** The [mode] argument of [validate]. *)
Inductive Mode : Type := ModeTarget | ModeSource | ModeOther.

(** [np.argmax(pred, axis=1)] *)
Definition np_argmax1 (t : tensor Q) : result (tensor Z) :=
  match shape t with
  | _ :: O :: _ => Raise ValueError
  | _ => argmax_dim1 t
  end.

(** The loop of [validate]; [last] holds the [label] and [argpred] of the
    latest iteration, the variables the code reads after the loop. *)
Fixpoint validate_loop (mode : Mode) (val_idx : Z) (val_loader : list Batch)
    (last : option (tensor Z * tensor Z)) : M (option (tensor Z * tensor Z)) :=
  match val_loader with
  | [] => mret last
  | b :: rest =>
      let is_source := match mode with ModeSource => true | _ => false end in
      if is_source && (cfg.source_val_iterations c <=? val_idx) then mret last
      else
        _ ← emit (EvForward false (image b));
        m ← gets model;
        let pred := forward_model E m (cfg.num_target c) (image b) in
        let pred := match pred with PTuple p _ => p | PSingle p => p end in
        label ← lift (squeeze1 (label b));
        argpred ← lift (np_argmax1 pred);
        _ ← modify (fun s => set_evaluator (evaluator s ++ [(label, argpred)]) s);
        validate_loop mode (val_idx + 1) rest (Some (label, argpred))
  end.

(** [a, b = metric] *)
Definition unpack_metric (m : metric) : M (Q * Q) :=
  match m with
  | Two a b => mret (a, b)
  | One _ => raise TypeError
  end.

(** A metric formatted with [{:.3f}]. *)
Definition as_number (m : metric) : M Q :=
  match m with
  | One v => mret v
  | Two _ _ => raise TypeError
  end.

(** [validate(self, mode)], under [torch.no_grad()].  The images written to
    the tensorboard and by [save_image] are not modelled. *)
Definition validate (mode : Mode) : M (Q * Q * Q * Q) :=
  _ ← emit EvValidate;
  _ ← log_info LogValidating;
  _ ← modify (set_evaluator []);
  _ ← modify (fun s => set_model (set_training false (model s)) s);
  val_loader ← match mode with
               | ModeTarget => mret (target_val_dataloader E)
               | ModeSource => mret (source_val_dataloader E)
               | ModeOther => raise NotImplementedError
               end;
  last ← validate_loop mode 0 val_loader None;
  _ ← del (bool_decide (is_Some last));
  s ← gets (fun s => s);
  let ev := evaluator s in
  if cfg.class_16 c then
    let PA := Pixel_Accuracy E ev in
    '(MPA_16, MPA_13) ← unpack_metric (Mean_Pixel_Accuracy E ev);
    '(MIoU_16, MIoU_13) ← unpack_metric (Mean_Intersection_over_Union E ev);
    '(FWIoU_16, FWIoU_13) ← unpack_metric (Frequency_Weighted_Intersection_over_Union E ev);
    '(PC_16, PC_13) ← unpack_metric (Mean_Precision E ev);
    _ ← log_info (LogMetrics PA MPA_16 MIoU_16 FWIoU_16 PC_16);
    _ ← log_info (LogMetrics PA MPA_13 MIoU_13 FWIoU_13 PC_13);
    _ ← add_scalar "PA" PA (epoch s);
    _ ← add_scalar "MPA_16" MPA_16 (epoch s);
    _ ← add_scalar "MIoU_16" MIoU_16 (epoch s);
    _ ← add_scalar "FWIoU_16" FWIoU_16 (epoch s);
    _ ← add_scalar "MPA_13" MPA_13 (epoch s);
    _ ← add_scalar "MIoU_13" MIoU_13 (epoch s);
    _ ← add_scalar "FWIoU_13" FWIoU_13 (epoch s);
    mret (PA, MPA_13, MIoU_13, FWIoU_13)
  else
    let PA := Pixel_Accuracy E ev in
    MPA ← as_number (Mean_Pixel_Accuracy E ev);
    MIoU ← as_number (Mean_Intersection_over_Union E ev);
    FWIoU ← as_number (Frequency_Weighted_Intersection_over_Union E ev);
    PC ← as_number (Mean_Precision E ev);
    _ ← log_info (LogMetrics PA MPA MIoU FWIoU PC);
    _ ← add_scalar "PA" PA (epoch s);
    _ ← add_scalar "MPA" MPA (epoch s);
    _ ← add_scalar "MIoU" MIoU (epoch s);
    _ ← add_scalar "FWIoU" FWIoU (epoch s);
    mret (PA, MPA, MIoU, FWIoU).

(** [load_checkpoint(self, filename)]; [ck] is what [torch.load] read. *)
Definition load_checkpoint (ck : checkpoint) : M unit :=
  (* Get model state dict *)
  sd ← lift (match (if negb (cfg.train c) then ck !! "shadow" else None),
                   ck !! "state_dict" with
             | Some shadow, _ => items shadow
             | None, Some state_dict => items state_dict
             | None, None => Ok ck
             end);
  (* Remove DP/DDP if it exists *)
  let sd := strip_module sd in
  (* Load state dict *)
  m ← gets model;
  let '(loaded, m) := load_state_dict E (has_module E) m sd in
  _ ← modify (set_model m);
  _ ← lift loaded;
  _ ← log_info LogModelLoaded;
  (* Load optimizer and epoch *)
  if cfg.train c && cfg.resume_from_checkpoint c then
    _ ← match ck !! "optimizer" with
        | Some v =>
            o ← gets optimizer;
            o ← lift (optimizer_load_state_dict E o v);
            _ ← modify (set_optimizer o);
            log_info LogOptimizerLoaded
        | None => mret tt
        end;
    match ck !! "epoch", ck !! "iter" with
    | Some _, Some _ =>
        _ ← modify (set_epoch 0);
        _ ← modify (set_iter 0);
        log_info (LogResuming 0 0)
    | _, _ => mret tt
    end
  else log_info LogNoResume.

(** [self.model(x, forward_target=self.cfg.num_target)]; [grad_enabled] is
    false inside [with torch.no_grad()]. *)
Definition forward (grad_enabled : bool) (x : tensor Q) : M Pred :=
  _ ← emit (EvForward grad_enabled x);
  m ← gets model;
  mret (forward_model E m (cfg.num_target c) x).

(** [l.backward()]: the term is propagated into the shared buffer. *)
Definition backward (name : string) (value : Q) : M unit :=
  _ ← emit (EvBackward name value);
  modify (fun s => set_grad (grad s ++ [(name, value)]) s).

(** [self.loss(pred, target)] on a prediction that may be [None]. *)
Definition self_loss (pred : option (tensor Q)) (target : tensor Z) : M Q :=
  match pred with
  | Some p => mret (loss E p target)
  | None => raise TypeError
  end.

(** The loss of a consistency term (lines 312-328, 346-363, 383-399): the
    main-head term, the auxiliary term when [cfg.aux], one backward, the
    entries of [losses], and the final [del]. *)
Definition consistency_loss (name : string) (lam : Q)
    (pred : Pred) (y_1 : tensor Z) (y_2 : option (tensor Z))
    (losses : list (string * Q)) : M (list (string * Q)) :=
  let '(pred_1, pred_2) := unpack pred in
  let loss_1 := (loss E pred_1 y_1 * lam)%Q in
  loss_2 ← (if cfg.aux c then
              y_2 ← (match y_2 with Some y => mret y | None => raise UnboundLocalError end);
              l ← self_loss pred_2 y_2;
              mret (Some (l * lam * cfg.lam_aux c)%Q)
            else mret None);
  let loss_ := match loss_2 with Some l2 => (loss_1 + l2)%Q | None => loss_1 end in
  _ ← backward ("loss_" +:+ name) loss_;
  let losses := dict_set (name +:+ "_main") loss_1 losses in
  let losses := match loss_2 with
                | Some l2 => dict_set (name +:+ "_aux") l2 losses
                | None => losses
                end in
  _ ← del (bool_decide (is_Some loss_2));
  mret losses.

(** Lines 186-221: the source supervised loss.  Returns the squeezed source
    labels [y], the clone [x_source] and the updated [losses]. *)
Definition source_branch (batch_s batch_t : Batch) (losses : list (string * Q))
  : M (tensor Z * tensor Q * list (string * Q)) :=
  let x := image batch_s in
  let y := label batch_s in
  let x_source := x in
  y ← lift (squeeze1 y);
  x ← (if cfg.source_fourier c then
         _ ← emit EvFourierMix;
         mret (fourier_mix E x (image batch_t) (cfg.fourier_beta c))
       else mret x);
  pred ← forward true x;
  let '(pred_1, pred_2) := unpack pred in
  let loss_source_1 := loss E pred_1 y in
  loss_source_2 ← (if cfg.aux c then
                     l ← self_loss pred_2 y;
                     mret (Some (l * cfg.lam_aux c)%Q)
                   else mret None);
  let loss_source := match loss_source_2 with
                     | Some l2 => (loss_source_1 + l2)%Q
                     | None => loss_source_1
                     end in
  _ ← backward "loss_source" loss_source;
  let losses := dict_set "source_main" loss_source_1 losses in
  let losses := match loss_source_2 with
                | Some l2 => dict_set "source_aux" l2 losses
                | None => losses
                end in
  _ ← del (bool_decide (is_Some loss_source_2));
  mret (y, x_source, losses).

(** Lines 226-261: the self-best pseudo labels, the hybrid image and the
    self-training loss.  Returns the hybrid image, which replaces [x]. *)
Definition self_best_branch (batch_t : Batch) (y : tensor Z) (x_source : tensor Q)
  : M (tensor Q) :=
  let x := image batch_t in
  (* with torch.no_grad() *)
  pred ← forward false x;
  '(pseudo_outputs3_1, pseudo_outputs3_2) ← lift (destructure2 pred);
  '(label_1, mask_1) ← lift (self_best_pseudo (softmax E) (float32 E)
                               (cfg.pseudobest_threshold c) pseudo_outputs3_1 y);
  (* end of no_grad *)
  x ← lift (hybrid_image mask_1 x x_source);
  pred ← forward true x;
  let '(pred_1_g, pred_2_g) := unpack pred in
  let loss_self_train1 := (loss E pred_1_g label_1 * cfg.lam_new c)%Q in
  l ← self_loss pred_2_g label_1;
  let loss_self_train2 := (cfg.lam_aux c * l * cfg.lam_new c)%Q in
  let loss_self_train := (loss_self_train1 + loss_self_train2)%Q in
  _ ← backward "loss_self_train" loss_self_train;
  mret x.

(** Lines 270-291: the original pseudo-label pass, on the current [x]. *)
Definition original_pass (x : tensor Q) : M Original :=
  pred ← forward false x;
  let '(pred_1, pred_2) := unpack pred in
  lift (original_pseudo (softmax E) (float32 E) (cfg.pseudolabel_threshold c)
          (cfg.aux c) pred_1 pred_2).

(** Lines 296-328: the augmentation consistency term. *)
Definition aug_branch (x : tensor Q) (o : Original) (losses : list (string * Q))
  : M (list (string * Q)) :=
  if Qgtb (cfg.lam_aug c) 0 then
    _ ← emit EvAugment;
    let '(x_aug, y_aug_1) := augment E x (label_1 o) in
    y_aug_2 ← (if cfg.aux c then
                 label_2 ← (match label_2 o with
                            | Some l => mret l
                            | None => raise UnboundLocalError
                            end);
                 _ ← emit EvAugment;
                 mret (Some (snd (augment E x label_2)))
               else mret None);
    pred_aug ← forward true x_aug;
    consistency_loss "aug" (cfg.lam_aug c) pred_aug y_aug_1 y_aug_2 losses
  else mret losses.

(** Lines 333-363: the Fourier consistency term. *)
Definition fourier_branch (x : tensor Q) (o : Original) (batch_s : Batch)
    (losses : list (string * Q)) : M (list (string * Q)) :=
  if Qgtb (cfg.lam_fourier c) 0 then
    _ ← emit EvFourierMix;
    let x_fourier := fourier_mix E x (image batch_s) (cfg.fourier_beta c) in
    pred_fourier ← forward true x_fourier;
    consistency_loss "fourier" (cfg.lam_fourier c) pred_fourier
      (label_1 o) (label_2 o) losses
  else mret losses.

(** Lines 368-399: the CutMix consistency term. *)
Definition cutmix_branch (x : tensor Q) (o : Original) (batch_s : Batch)
    (losses : list (string * Q)) : M (list (string * Q)) :=
  if Qgtb (cfg.lam_cutmix c) 0 then
    labels_1 ← lift (unsqueeze1 (label_1 o));
    labels_2 ← lift (unsqueeze1 (label batch_s));
    _ ← emit EvCutmix;
    let '(x_cutmix, y_cutmix) :=
      cutmix_combine E x labels_1 (image batch_s) labels_2 in
    y_cutmix ← lift (squeeze1 y_cutmix);
    pred_cutmix ← forward true x_cutmix;
    consistency_loss "cutmix" (cfg.lam_cutmix c) pred_cutmix
      y_cutmix (Some y_cutmix) losses
  else mret losses.

(** Lines 437-470: validation with the EMA parameters, and the "best"
    checkpoint. *)
Definition validation_block : M unit :=
  _ ← emit EvApplyShadow;
  _ ← modify apply_shadow;
  _ ← modify (fun s => set_model (set_training false (model s)) s);
  '(PA, MPA, MIoU, FWIoU) ← validate ModeTarget;
  _ ← emit EvRestore;
  _ ← modify restore;
  ep ← gets epoch;
  _ ← add_scalar "PA" PA ep;
  _ ← add_scalar "MPA" MPA ep;
  _ ← add_scalar "MIoU" MIoU ep;
  _ ← add_scalar "FWIoU" FWIoU ep;
  _ ← modify (set_current_MIoU MIoU);
  best ← gets best_MIou;
  let is_best := Qgtb MIoU best in
  if is_best then
    _ ← modify (set_best_MIou MIoU);
    it ← gets iter;
    _ ← modify (set_best_iter (Some it));
    _ ← log_info (LogNewBest MIoU it);
    save_checkpoint "best.pth"
  else
    bi ← gets best_iter;
    match bi with
    | Some bi => log_info (LogNoImprovement best bi)
    | None => raise AttributeError
    end.

(** Writes every entry of [losses] to the tensorboard (lines 416-417). *)
Fixpoint log_main_losses (losses : list (string * Q)) (step : Z) : M unit :=
  match losses with
  | [] => mret tt
  | (name, l) :: rest =>
      _ ← add_scalar ("train/" +:+ name) l step;
      log_main_losses rest step
  end.

(** Lines 180-399: the loss terms of one step, each propagated into the
    shared gradient buffer.  Returns the dictionary [losses]. *)
Definition compute_losses (batch_s batch_t : Batch) : M (list (string * Q)) :=
  let losses : list (string * Q) := [] in
  '(y, x_source, losses) ← source_branch batch_s batch_t losses;
  x ← self_best_branch batch_t y x_source;
  o ← original_pass x;
  losses ← aug_branch x o losses;
  losses ← fourier_branch x o batch_s losses;
  cutmix_branch x o batch_s losses.

(** Lines 173-178: train mode, evaluator reset and learning rate. *)
Definition begin_step : M unit :=
  _ ← modify (fun s => set_model (set_training true (model s)) s);
  _ ← modify (set_evaluator []);
  (* Learning rate *)
  _ ← schedule;
  s ← gets (fun s => s);
  lr ← (match param_groups (optimizer s) with
        | lr :: _ => mret lr
        | [] => raise IndexError
        end);
  lr ← lift (scalar_value lr);
  add_scalar "train/lr" lr (iter s).

(** Lines 405-410: one optimizer step on the accumulated gradients, then
    the buffer is cleared and the EMA parameters are updated. *)
Definition optimizer_update : M unit :=
  _ ← emit EvOptimizerStep;
  _ ← modify (fun s =>
        let '(o, m) := optimizer_step E (optimizer s) (grad s) (model s) in
        set_model m (set_optimizer o s));
  _ ← emit EvZeroGrad;
  _ ← modify (set_grad []);
  _ ← emit EvUpdateParams;
  modify (fun s => set_ema (update_params (ema s) (model s)) s).

(** Lines 412-423: the total is computed, the entries of [losses] are
    written to the tensorboard and, every 100 batches, to the logger. *)
Definition log_losses (batch_idx : nat) (losses : list (string * Q)) : M unit :=
  (* Calculate total loss *)
  let total_loss := sum_values losses in
  (* Log main losses *)
  it ← gets iter;
  _ ← log_main_losses losses it;
  ep ← gets epoch;
  if (batch_idx mod 100 =? 0)%nat then log_info (LogLosses ep losses)
  else mret tt.

(** Lines 425-470: the iteration counter, the stop condition, the EMA
    buffers and the periodic validation.  Returns [true] when the body
    executes [return]. *)
Definition end_of_step (batch_idx : nat) : M bool :=
  (* Increment global iteration counter *)
  it ← gets iter;
  _ ← modify (set_iter (it + 1));
  (* End training after finishing iterations *)
  if cfg.opt_iterations c <? it + 1 then
    _ ← modify (set_continue_training false);
    mret true
  else
    _ ← emit EvUpdateBuffer;
    _ ← modify (fun s => set_ema (update_buffer (ema s) (model s)) s);
    _ ← (if (0 <? batch_idx)%nat && (batch_idx mod 200 =? 0)%nat
         then validation_block else mret tt);
    mret false.

(** The body of the training loop (lines 173-470) for one pair of batches.
    Returns [true] when the body executes [return]. *)
Definition train_step (batch_idx : nat) (batch_s batch_t : Batch) : M bool :=
  _ ← begin_step;
  losses ← compute_losses batch_s batch_t;
  _ ← optimizer_update;
  _ ← log_losses batch_idx losses;
  end_of_step batch_idx.

(** The [for] loop of [train_one_epoch] over the zipped loaders. *)
Fixpoint epoch_loop (batch_idx : nat) (batches : list (Batch * Batch)) : M bool :=
  match batches with
  | [] => mret false
  | (batch_s, batch_t) :: rest =>
      returned ← train_step batch_idx batch_s batch_t;
      if (returned : bool) then mret true else epoch_loop (S batch_idx) rest
  end.

(** [train_one_epoch(self)] *)
Definition train_one_epoch : M unit :=
  ep ← gets epoch;
  _ ← epoch_loop 0 (zip (source_dataloader E ep) (target_dataloader E ep));
  mret tt.

(** The [while self.continue_training] loop of [train]; the result is
    [false] when [fuel] epochs were not enough to leave the loop. *)
Fixpoint train_while (fuel : nat) : M bool :=
  continue ← gets continue_training;
  if (continue : bool) then
    match fuel with
    | O => mret false
    | S fuel' =>
        _ ← train_one_epoch;
        _ ← modify (fun s => set_epoch (epoch s + 1) s);
        train_while fuel'
    end
  else mret true.

(** [train(self)] *)
Definition train (fuel : nat) : M bool :=
  _ ← modify (set_continue_training true);
  finished ← train_while fuel;
  if (finished : bool) then
    (* Save final checkpoint *)
    s ← gets (fun s => s);
    bi ← (match best_iter s with
          | Some bi => mret bi
          | None => raise AttributeError
          end);
    _ ← log_info (LogBestWas (best_MIou s) bi);
    _ ← log_info LogSavingFinal;
    _ ← save_checkpoint "final.pth";
    mret true
  else mret false.

End Methods.

(** ** The palette of [colorize_mask] *)

(** The colours of the classes, three entries each (lines 31-33). *)
Definition palette_colors : list Z :=
  [128; 64; 128; 244; 35; 232; 70; 70; 70; 102; 102; 156; 190; 153; 153;
   153; 153; 153; 250; 170; 30; 220; 220; 0; 107; 142; 35; 70; 130; 180;
   220; 20; 60; 255; 0; 0; 0; 0; 142; 0; 0; 70; 0; 60; 100; 0; 80; 100;
   0; 0; 230; 119; 11; 32].

(** [for i in range(n): palette.append(0)] *)
Fixpoint append_zeros (n : nat) (palette : list Z) : list Z :=
  match n with
  | O => palette
  | S n' => append_zeros n' (palette ++ [0])
  end.

(** Lines 34-36: [zero_pad = 256 * 3 - len(palette)] and the loop;
    [range] of a negative number is empty. *)
Definition zero_padded (palette : list Z) : list Z :=
  let zero_pad := 256 * 3 - Z.of_nat (length palette) in
  append_zeros (Z.to_nat zero_pad) palette.

(** The module-level [palette] after the loop. *)
Definition palette : list Z := zero_padded palette_colors.

(** ** A small concrete instance

    One-pixel images with three channels, a two-head model whose scores are
    the channels of the image, and constant stand-ins for the numeric
    collaborators. *)
Module Toy.

(** A [1 x 3 x 1 x 1] image whose channels hold [r], [g] and [b]. *)
Definition pixel (r g b : Q) : tensor Q :=
  mk [1; 3; 1; 1]%nat
     (fun i => match i with
               | [_; 0%nat; _; _] => r
               | [_; 1%nat; _; _] => g
               | _ => b
               end).

(** A batch of [n] one-pixel images that all hold [r], [g], [b]. *)
Definition pixels (n : nat) (r g b : Q) : tensor Q :=
  mk [n; 3; 1; 1]%nat (elt (pixel r g b)).

Definition labels (n : nat) (l : Z) : tensor Z := full [n; 1; 1]%nat l.

(** The collaborators, with [n] batches per training epoch and the
    validation batches [val]. *)
Definition world (n : nat) (val : list Batch) : Externals :=
  {| forward_model := fun _ _ x => PTuple x x;
     has_module := false;
     softmax := fun p => p;
     loss := fun _ _ => 1%Q;
     float32 := exact_float32;
     float_pow := fun b p => Some b;
     complex_pow := fun b p => Some (b, 0%Q);
     complex_scalar := fun re im => Raise TypeError;
     fourier_mix := fun x _ _ => x;
     augment := fun x l => (x, l);
     cutmix_combine := fun x l _ _ => (x, l);
     optimizer_step := fun o _ m => (o, m);
     load_state_dict := fun _ m _ => (Ok tt, m);
     optimizer_state_dict := fun o => VDict (VTensor <$> state o);
     optimizer_load_state_dict := fun o _ => Ok o;
     Pixel_Accuracy := fun _ => (1 # 2)%Q;
     Mean_Pixel_Accuracy := fun _ => One (1 # 2)%Q;
     Mean_Intersection_over_Union := fun _ => One (41 # 100)%Q;
     Frequency_Weighted_Intersection_over_Union := fun _ => One (1 # 2)%Q;
     Mean_Precision := fun _ => One (1 # 2)%Q;
     source_dataloader := fun _ =>
       replicate n {| image := pixel (1 # 10) (2 # 10) (3 # 10);
                      label := labels 1 5; id := "s" |};
     target_dataloader := fun _ =>
       replicate n {| image := pixel (9 # 10) (1 # 20) (1 # 20);
                      label := labels 1 0; id := "t" |};
     source_val_dataloader := val;
     target_val_dataloader := val |}.

(** One batch per epoch and an empty validation split. *)
Definition E : Externals := world 1 [].

(** The same collaborators around a model without auxiliary head. *)
Definition single_head : Externals :=
  {| forward_model := fun _ _ x => PSingle x;
     has_module := has_module E;
     softmax := softmax E;
     loss := loss E;
     float32 := float32 E;
     float_pow := float_pow E;
     complex_pow := complex_pow E;
     complex_scalar := complex_scalar E;
     fourier_mix := fourier_mix E;
     augment := augment E;
     cutmix_combine := cutmix_combine E;
     optimizer_step := optimizer_step E;
     load_state_dict := load_state_dict E;
     optimizer_state_dict := optimizer_state_dict E;
     optimizer_load_state_dict := optimizer_load_state_dict E;
     Pixel_Accuracy := Pixel_Accuracy E;
     Mean_Pixel_Accuracy := Mean_Pixel_Accuracy E;
     Mean_Intersection_over_Union := Mean_Intersection_over_Union E;
     Frequency_Weighted_Intersection_over_Union :=
       Frequency_Weighted_Intersection_over_Union E;
     Mean_Precision := Mean_Precision E;
     source_dataloader := source_dataloader E;
     target_dataloader := target_dataloader E;
     source_val_dataloader := source_val_dataloader E;
     target_val_dataloader := target_val_dataloader E |}.

Definition batch_s : Batch :=
  {| image := pixel (1 # 10) (2 # 10) (3 # 10); label := labels 1 5; id := "s" |}.
Definition batch_t : Batch :=
  {| image := pixel (9 # 10) (1 # 20) (1 # 20); label := labels 1 0; id := "t" |}.
Definition batch_val : Batch :=
  {| image := pixel (3 # 10) (6 # 10) (1 # 10); label := labels 1 1; id := "v" |}.

(** Source and target batches of two images. *)
Definition batch_s2 : Batch :=
  {| image := pixels 2 (1 # 10) (2 # 10) (3 # 10); label := labels 2 5; id := "s" |}.
Definition batch_t2 : Batch :=
  {| image := pixels 2 (9 # 10) (1 # 20) (1 # 20); label := labels 2 0; id := "t" |}.

Definition config_with (source_fourier aux : bool)
    (lam_aug lam_fourier lam_cutmix : Q) : cfg.t :=
  {| cfg.train := true; cfg.resume_from_checkpoint := true;
     cfg.num_target := 1; cfg.source_fourier := source_fourier;
     cfg.fourier_beta := (1 # 100)%Q;
     cfg.aux := aux; cfg.lam_aux := (1 # 10)%Q; cfg.lam_new := 1%Q;
     cfg.lam_aug := lam_aug; cfg.lam_fourier := lam_fourier;
     cfg.lam_cutmix := lam_cutmix;
     cfg.pseudobest_threshold := (1 # 2)%Q; cfg.pseudolabel_threshold := (9 # 10)%Q;
     cfg.opt_lr := (1 # 4000)%Q; cfg.opt_iterations := 1000;
     cfg.opt_poly_power := (9 # 10)%Q;
     cfg.class_16 := false; cfg.source_val_iterations := 0 |}.

(** Every consistency weight is zero, the auxiliary head is on. *)
Definition config : cfg.t := config_with false true 0 0 0.

Definition live : params := {[ "w" := full [1%nat] 1%Q ]}.
Definition averaged : params := {[ "w" := full [1%nat] 2%Q ]}.

Definition trainer : Trainer :=
  new_trainer
    {| parameters := live; buffers := ∅; training := true |}
    {| shadow := averaged; shadow_buffers := ∅; backup := ∅; decay := (999 # 1000)%Q |}
    {| param_groups := [PyFloat 0; PyFloat 0]; state := ∅ |}.

(** A checkpoint saved at epoch 7, iteration 1234. *)
Definition saved : checkpoint :=
  <["epoch" := VInt 7]>
  (<["iter" := VInt 1234]>
  (<["state_dict" := VDict ∅]>
  (<["optimizer" := VDict ∅]> ∅))).

End Toy.

(** ** Definitions used by the statements *)

(** The probability of class [k] at pixel [(b, h, w)]. *)
Definition class_prob (p : tensor Q) (b h w k : nat) : Q := elt p [b; k; h; w].

(** The scenario of the specification: eight classes, two pixels.  At pixel
    0 class 7 has probability 9/10; at pixel 1 no class exceeds 3/10.  The
    source labels are 5 and 3. *)
Definition scenario_pred : tensor Q :=
  mk [1; 8; 1; 2]%nat
     (fun i => match i with
               | [_; k; _; 0%nat] => if (k =? 7)%nat then (9 # 10)%Q else (1 # 70)%Q
               | [_; k; _; _] => if (k =? 2)%nat then (3 # 10)%Q else (1 # 10)%Q
               | _ => 0%Q
               end).

Definition scenario_y : tensor Z :=
  mk [1; 1; 2]%nat (fun i => match i with [_; _; 0%nat] => 5 | _ => 3 end).




(** A method run from [s] to [s'] relates the two states by [R], whether
    it returns or raises. *)
Definition preserves {A} (R : Trainer -> Trainer -> Prop) (m : M A) : Prop :=
  forall s r s', m s = (r, s') -> R s s'.

(** The steps that neither write the live parameters nor touch the EMA
    state, and that leave no swap event in the trace. *)
Definition read_only (s s' : Trainer) : Prop :=
  parameters (model s') = parameters (model s) /\ ema s' = ema s /\
  exists evs, trace s' = trace s ++ evs /\
    Forall (fun e => e <> EvApplyShadow /\ e <> EvRestore) evs.

(** The state in which [validation_block] calls [validate]: the shadow
    parameters are live and the model is in eval mode. *)
Definition swapped_in (s : Trainer) : Trainer :=
  let s1 := apply_shadow (set_trace (trace s ++ [EvApplyShadow]) s) in
  set_model (set_training false (model s1)) s1.

(** The EMA claim as the specification words it: after the validation
    block, whether validation returned or raised, [restore] has run and the
    live parameters are the ones from before the swap. *)
Definition restore_guaranteed_as_stated (E : Externals) (c : cfg.t)
    (s : Trainer) : Prop :=
  let s' := snd (validation_block E c s) in
  In EvRestore (drop (length (trace s)) (trace s')) /\
  parameters (model s') = parameters (model s).

(** [s'] is [s] with the events [evs] appended to the trace and the terms
    [gs] propagated into the gradient buffer. *)
Definition extends (s s' : Trainer) (evs : list event) (gs : list (string * Q)) : Prop :=
  s' = set_grad (grad s ++ gs) (set_trace (trace s ++ evs) s).

(** The events a run from [s] to [s'] appended to the trace. *)
Definition new_events (s s' : Trainer) : list event :=
  drop (length (trace s)) (trace s').

Definition is_backward (e : event) : bool :=
  match e with EvBackward _ _ => true | _ => false end.
Definition is_perturbation (e : event) : bool :=
  match e with EvFourierMix | EvAugment | EvCutmix => true | _ => false end.
Definition is_no_grad_forward (e : event) : bool :=
  match e with EvForward false _ => true | _ => false end.

(** How many of the events satisfy [p]. *)
Definition count (p : event -> bool) (evs : list event) : nat :=
  length (List.filter p evs).

(** The cost-avoidance claim as the specification words it, for the loss
    computation of one step: two loss terms are propagated, no perturbation
    function is called, and the pseudo-label pass of the consistency terms
    is skipped, which leaves the self-best pass as the only forward pass
    without gradient tracking. *)
Definition two_terms_as_stated (E : Externals) (c : cfg.t)
    (batch_s batch_t : Batch) (s : Trainer) : Prop :=
  count is_backward (new_events s (snd (compute_losses E c batch_s batch_t s))) = 2%nat.
Definition no_perturbation_as_stated (E : Externals) (c : cfg.t)
    (batch_s batch_t : Batch) (s : Trainer) : Prop :=
  count is_perturbation (new_events s (snd (compute_losses E c batch_s batch_t s))) = 0%nat.
Definition pseudo_pass_skipped_as_stated (E : Externals) (c : cfg.t)
    (batch_s batch_t : Batch) (s : Trainer) : Prop :=
  count is_no_grad_forward (new_events s (snd (compute_losses E c batch_s batch_t s))) = 1%nat.
Definition cost_avoidance_as_stated (E : Externals) (c : cfg.t)
    (batch_s batch_t : Batch) (s : Trainer) : Prop :=
  two_terms_as_stated E c batch_s batch_t s /\
  no_perturbation_as_stated E c batch_s batch_t s /\
  pseudo_pass_skipped_as_stated E c batch_s batch_t s.

(** [cfg] with the [aux] flag replaced. *)
Definition set_aux (b : bool) (c : cfg.t) : cfg.t :=
  {| cfg.train := cfg.train c;
     cfg.resume_from_checkpoint := cfg.resume_from_checkpoint c;
     cfg.num_target := cfg.num_target c;
     cfg.source_fourier := cfg.source_fourier c;
     cfg.fourier_beta := cfg.fourier_beta c;
     cfg.aux := b;
     cfg.lam_aux := cfg.lam_aux c;
     cfg.lam_new := cfg.lam_new c;
     cfg.lam_aug := cfg.lam_aug c;
     cfg.lam_fourier := cfg.lam_fourier c;
     cfg.lam_cutmix := cfg.lam_cutmix c;
     cfg.pseudobest_threshold := cfg.pseudobest_threshold c;
     cfg.pseudolabel_threshold := cfg.pseudolabel_threshold c;
     cfg.opt_lr := cfg.opt_lr c;
     cfg.opt_iterations := cfg.opt_iterations c;
     cfg.opt_poly_power := cfg.opt_poly_power c;
     cfg.class_16 := cfg.class_16 c;
     cfg.source_val_iterations := cfg.source_val_iterations c |}.

(** The loss of the self-best term on the predictions [(p1, p2)]. *)
Definition self_train_loss (E : Externals) (c : cfg.t)
    (p1 p2 : tensor Q) (label_1 : tensor Z) : Q :=
  (loss E p1 label_1 * cfg.lam_new c +
   cfg.lam_aux c * loss E p2 label_1 * cfg.lam_new c)%Q.

(** The value of a result, [d] when it is an exception. *)
Definition get_ok {A} (d : A) (r : result A) : A :=
  match r with Ok a => a | Raise _ => d end.

(** The scalars a run from [s] to [s'] wrote to the tensorboard. *)
Definition step_scalars (s s' : Trainer) : list (string * Q * Z) :=
  drop (length (writer s)) (writer s').


(** The entries of [losses] for the terms [(name, main, aux)], and the
    values these terms propagate into the gradient buffer. *)
Definition recorded (terms : list (string * Q * Q)) : list (string * Q) :=
  flat_map (fun '(n, m, a) => [(n +:+ "_main", m); (n +:+ "_aux", a)]) terms.
Definition propagated (terms : list (string * Q * Q)) : list (string * Q) :=
  map (fun '(n, m, a) => ("loss_" +:+ n, (m + a)%Q)) terms.

(** The terms that are recorded: the source term and the consistency terms
    with a positive weight. *)
Definition enabled_terms (c : cfg.t) : list string :=
  "source" ::
  (if Qgtb (cfg.lam_aug c) 0 then ["aug"] else []) ++
  (if Qgtb (cfg.lam_fourier c) 0 then ["fourier"] else []) ++
  (if Qgtb (cfg.lam_cutmix c) 0 then ["cutmix"] else []).

(** The tensorboard entries of [losses] at iteration [step]. *)
Definition loss_scalars (losses : list (string * Q)) (step : Z) : list (string * Q * Z) :=
  map (fun '(name, l) => ("train/" +:+ name, l, step)) losses.



(** The tensorboard, the log and the two counters are the same. *)
Definition same_logs (s s' : Trainer) : Prop :=
  writer s' = writer s /\ logger s' = logger s /\
  iter s' = iter s /\ epoch s' = epoch s.

(** ** Definitions for the properties of the remaining code *)

(** A run from [s] to [s'] leaves the observation [f] of the trainer as it
    was and appends to the trace only events that satisfy [P]. *)
Definition frame {A} (f : Trainer -> A) (P : event -> bool) (s s' : Trainer) : Prop :=
  f s' = f s /\
  exists evs, trace s' = trace s ++ evs /\ Forall (fun e => P e = true) evs.

(** What the loss computation of a step leaves alone: the counters, the
    parameters and the mode of the model, the EMA, the optimizer, the
    evaluator, the tensorboard, the log and the files.  The running
    statistics that a forward pass in train mode updates inside the model
    are not described by the embedding, so [buffers (model s)] is left out
    of the observation. *)
Definition loss_untouched (s : Trainer)
  : Z * Z * Q * Q * option Z * bool * params * bool * EMA * Optimizer
    * list (tensor Z * tensor Z) * list (string * Q * Z) * list logline
    * list (string * checkpoint) :=
  (epoch s, iter s, current_MIoU s, best_MIou s, best_iter s, continue_training s,
   parameters (model s), training (model s), ema s, optimizer s,
   evaluator s, writer s, logger s, files s).

(** The events of a loss computation: forward passes, perturbations and
    backward passes. *)
Definition is_loss_event (e : event) : bool :=
  match e with
  | EvForward _ _ | EvFourierMix | EvAugment | EvCutmix | EvBackward _ _ => true
  | _ => false
  end.

Definition is_optimizer_step (e : event) : bool :=
  match e with EvOptimizerStep => true | _ => false end.

(** The events of a validation: the swap, forward passes without gradient
    tracking and the checkpoint of a new best. *)
Definition is_validation_event (e : event) : bool :=
  match e with
  | EvApplyShadow | EvRestore | EvValidate | EvForward false _ | EvSave _ => true
  | _ => false
  end.

(** What a validation leaves alone: the counters, the stop flag, the
    optimizer with its gradient buffer, the buffers of the model and the
    shadow of the EMA. *)
Definition validation_untouched (s : Trainer)
  : Z * Z * bool * Optimizer * list (string * Q) * params * params * params * Q :=
  (epoch s, iter s, continue_training s, optimizer s, grad s,
   buffers (model s), shadow (ema s), shadow_buffers (ema s), decay (ema s)).

(** What [validate] leaves alone. *)
Definition validate_untouched (s : Trainer)
  : Z * Z * Q * Q * option Z * bool * params * params * EMA * Optimizer
    * list (string * Q) * list (string * checkpoint) :=
  (epoch s, iter s, current_MIoU s, best_MIou s, best_iter s, continue_training s,
   parameters (model s), buffers (model s), ema s, optimizer s, grad s, files s).

(** The batches [validate] visits: all of them on the target, at most
    [source_val_iterations] on the source. *)
Definition visited (c : cfg.t) (mode : Mode) (val_loader : list Batch) : list Batch :=
  match mode with
  | ModeSource => take (Z.to_nat (cfg.source_val_iterations c)) val_loader
  | _ => val_loader
  end.

(** The pair [validate] adds to the evaluator for a batch: the squeezed
    labels and the argmax of the main prediction of the model [m]. *)
Definition evaluated (E : Externals) (c : cfg.t) (m : Model) (b : Batch)
    (entry : tensor Z * tensor Z) : Prop :=
  squeeze1 (label b) = Ok (fst entry) /\
  np_argmax1 (fst (unpack (forward_model E m (cfg.num_target c) (image b))))
    = Ok (snd entry).

(** The events after the optimizer update of a step: the copy of the
    buffers into the EMA and the events of a validation. *)
Definition is_end_event (e : event) : bool :=
  match e with
  | EvUpdateBuffer => true
  | _ => is_validation_event e
  end.

(** The names under which a step propagates its loss terms. *)
Definition propagated_names (c : cfg.t) : list string :=
  "loss_source" :: "loss_self_train" ::
  map (String.append "loss_") (tail (enabled_terms c)).

(** The events outside a validation block. *)
Definition not_validation (e : event) : bool :=
  match e with
  | EvValidate | EvSave _ | EvApplyShadow | EvRestore => false
  | _ => true
  end.

(** What only a validation block and the final checkpoint write. *)
Definition best_and_files (s : Trainer) : option Z * Q * list (string * checkpoint) :=
  (best_iter s, best_MIou s, files s).

(** The batch pairs of epoch [ep]: [zip(source_dataloader, target_dataloader)]. *)
Definition epoch_batches (E : Externals) (ep : Z) : list (Batch * Batch) :=
  zip (source_dataloader E ep) (target_dataloader E ep).

(** The loader [validate] reads in [mode]. *)
Definition val_loader (E : Externals) (mode : Mode) : list Batch :=
  match mode with
  | ModeSource => source_val_dataloader E
  | _ => target_val_dataloader E
  end.

(** The counters and what a validation block decides about. *)
Definition counters_and_best (s : Trainer)
  : Z * Z * option Z * Q * list (string * checkpoint) :=
  (epoch s, iter s, best_iter s, best_MIou s, files s).

(** The batches the loop of [validate] visits from index [val_idx] on. *)
Definition visited_from (c : cfg.t) (mode : Mode) (val_idx : Z) (loader : list Batch)
  : list Batch :=
  match mode with
  | ModeSource => take (Z.to_nat (cfg.source_val_iterations c - val_idx)) loader
  | _ => loader
  end.

(** The forward passes of [validate] on [batches]. *)
Definition forward_events (batches : list Batch) : list event :=
  map (fun b => EvForward false (image b)) batches.

(** The calls of [validate]: its entry and forward passes without
    gradient tracking. *)
Definition is_validate_call (e : event) : bool :=
  match e with
  | EvValidate | EvForward false _ => true
  | _ => false
  end.

(** No two keys of the dictionary are renamed to the same key. *)
Definition no_collision (sd : gmap string pyval) : Prop :=
  forall k1 k2, is_Some (sd !! k1) -> is_Some (sd !! k2) ->
    replace_module 0 k1 = replace_module 0 k2 -> k1 = k2.

(** The dictionaries [load_checkpoint] may take the state from. *)
Definition candidate (ck : checkpoint) (d : gmap string pyval) : Prop :=
  ck !! "shadow" = Some (VDict d) \/ ck !! "state_dict" = Some (VDict d) \/ d = ck.

(** The dictionary [renamed] holds the entries of [sd] under their renamed
    keys, and nothing else. *)
Definition renaming_of (sd renamed : gmap string pyval) : Prop :=
  (forall k v, sd !! k = Some v -> renamed !! replace_module 0 k = Some v) /\
  (forall k' v, renamed !! k' = Some v ->
     exists k, sd !! k = Some v /\ replace_module 0 k = k').

(** ** The self-best mask as the specification words it *)

(** C3 as stated: in a step that completes, the mask of the self-best pass
    is true at a pixel exactly when the maximum softmax probability of the
    pixel exceeds [cfg.pseudobest_threshold]. *)
Definition self_best_mask_as_stated (E : Externals) (c : cfg.t) (batch_idx : nat)
    (batch_s batch_t : Batch) (s : Trainer) : Prop :=
  forall r s' y o1 o2 label_1 mask_1,
    train_step E c batch_idx batch_s batch_t s = (Ok r, s') ->
    squeeze1 (label batch_s) = Ok y ->
    destructure2 (forward_model E (set_training true (model s)) (cfg.num_target c)
                    (image batch_t)) = Ok (o1, o2) ->
    self_best_pseudo (softmax E) (float32 E) (cfg.pseudobest_threshold c) o1 y
      = Ok (label_1, mask_1) ->
    forall B K H W, shape (softmax E o1) = [B; S K; H; W] ->
    forall b h w k, (b < B)%nat -> (h < H)%nat -> (w < W)%nat -> (k <= K)%nat ->
      (forall j, (j <= K)%nat ->
         (class_prob (softmax E o1) b h w j <= class_prob (softmax E o1) b h w k)%Q) ->
      (elt mask_1 [b; h; w] = true <->
       (cfg.pseudobest_threshold c < class_prob (softmax E o1) b h w k)%Q).

(** The collaborators of [Toy.E] with a comparison in single precision
    around the threshold. *)
Definition rounding_world : Externals :=
  {| forward_model := forward_model Toy.E;
     has_module := has_module Toy.E;
     softmax := softmax Toy.E;
     loss := loss Toy.E;
     float32 := near_one_float32;
     float_pow := float_pow Toy.E;
     complex_pow := complex_pow Toy.E;
     complex_scalar := complex_scalar Toy.E;
     fourier_mix := fourier_mix Toy.E;
     augment := augment Toy.E;
     cutmix_combine := cutmix_combine Toy.E;
     optimizer_step := optimizer_step Toy.E;
     load_state_dict := load_state_dict Toy.E;
     optimizer_state_dict := optimizer_state_dict Toy.E;
     optimizer_load_state_dict := optimizer_load_state_dict Toy.E;
     Pixel_Accuracy := Pixel_Accuracy Toy.E;
     Mean_Pixel_Accuracy := Mean_Pixel_Accuracy Toy.E;
     Mean_Intersection_over_Union := Mean_Intersection_over_Union Toy.E;
     Frequency_Weighted_Intersection_over_Union :=
       Frequency_Weighted_Intersection_over_Union Toy.E;
     Mean_Precision := Mean_Precision Toy.E;
     source_dataloader := source_dataloader Toy.E;
     target_dataloader := target_dataloader Toy.E;
     source_val_dataloader := source_val_dataloader Toy.E;
     target_val_dataloader := target_val_dataloader Toy.E |}.

(** [Toy.config] with the self-best threshold 0.6, which single precision
    does not represent. *)
Definition rounding_config : cfg.t :=
  {| cfg.train := cfg.train Toy.config;
     cfg.resume_from_checkpoint := cfg.resume_from_checkpoint Toy.config;
     cfg.num_target := cfg.num_target Toy.config;
     cfg.source_fourier := cfg.source_fourier Toy.config;
     cfg.fourier_beta := cfg.fourier_beta Toy.config;
     cfg.aux := cfg.aux Toy.config;
     cfg.lam_aux := cfg.lam_aux Toy.config;
     cfg.lam_new := cfg.lam_new Toy.config;
     cfg.lam_aug := cfg.lam_aug Toy.config;
     cfg.lam_fourier := cfg.lam_fourier Toy.config;
     cfg.lam_cutmix := cfg.lam_cutmix Toy.config;
     cfg.pseudobest_threshold := (6 # 10)%Q;
     cfg.pseudolabel_threshold := cfg.pseudolabel_threshold Toy.config;
     cfg.opt_lr := cfg.opt_lr Toy.config;
     cfg.opt_iterations := cfg.opt_iterations Toy.config;
     cfg.opt_poly_power := cfg.opt_poly_power Toy.config;
     cfg.class_16 := cfg.class_16 Toy.config;
     cfg.source_val_iterations := cfg.source_val_iterations Toy.config |}.

(** A target pixel whose first class has the probability 0.6 rounded to
    single precision, a value above 0.6. *)
Definition rounding_batch_t : Batch :=
  {| image := Toy.pixel (nearest_2_24 (6 # 10)) (1 # 10) (1 # 10);
     label := Toy.labels 1 0; id := "t" |}.

(** Batches whose labels carry the channel dimension that line 190
    squeezes. *)
Definition channel_batch_s : Batch :=
  {| image := Toy.pixel (1 # 10) (2 # 10) (3 # 10);
     label := full [1; 1; 1; 1]%nat 5; id := "s" |}.
Definition channel_batch_t : Batch :=
  {| image := Toy.pixel (9 # 10) (1 # 20) (1 # 20);
     label := full [1; 1; 1; 1]%nat 0; id := "t" |}.

(** * Properties *)

(** ** Comparison of floats *)

Lemma Qgtb_lt (a b : Q) : Qgtb a b = true <-> (b < a)%Q.
Proof.
  unfold Qgtb. rewrite negb_true_iff. split.
  - intros H. apply Qnot_le_lt. intros Hle.
    apply Qle_bool_iff in Hle. congruence.
  - intros H. destruct (Qle_bool a b) eqn:Hb; [|reflexivity].
    apply Qle_bool_iff in Hb. exfalso. exact (Qlt_not_le _ _ H Hb).
Qed.

Lemma Qgtb_le (a b : Q) : Qgtb a b = false <-> (a <= b)%Q.
Proof.
  unfold Qgtb. rewrite negb_false_iff. apply Qle_bool_iff.
Qed.

(** A value above the higher of two thresholds is above the lower one. *)
Lemma Qgtb_mono (v T1 T2 : Q) :
  (T1 <= T2)%Q -> Qgtb v T2 = true -> Qgtb v T1 = true.
Proof.
  rewrite !Qgtb_lt. intros Hle Hlt. exact (Qle_lt_trans _ _ _ Hle Hlt).
Qed.

(** ** Tensor operations *)

(** [scan_max] returns the maximum of the scanned entries and the first
    index that holds it. *)
Lemma scan_max_spec (f : nat -> Q) (n : nat) :
  let '(v, k) := scan_max f n in
  (k <= n)%nat /\ v = f k /\
  (forall j, (j <= n)%nat -> (f j <= f k)%Q) /\
  (forall j, (j < k)%nat -> (f j < f k)%Q).
Proof.
  induction n as [|n IH]; simpl.
  - repeat split; try lia.
    intros j Hj. replace j with 0%nat by lia. apply Qle_refl.
  - destruct (scan_max f n) as [v k]. destruct IH as (Hk & Hv & Hmax & Hfirst).
    destruct (Qgtb (f (S n)) v) eqn:Hcmp.
    + apply Qgtb_lt in Hcmp. subst v. repeat split; try lia.
      * intros j Hj. destruct (decide (j = S n)) as [->|Hne]; [apply Qle_refl|].
        apply Qlt_le_weak. eapply Qle_lt_trans; [apply Hmax; lia | exact Hcmp].
      * intros j Hj. eapply Qle_lt_trans; [apply Hmax; lia | exact Hcmp].
    + apply Qgtb_le in Hcmp. subst v. repeat split; try lia; [|exact Hfirst].
      intros j Hj. destruct (decide (j = S n)) as [->|Hne]; [exact Hcmp|].
      apply Hmax. lia.
Qed.

Lemma broadcast_rev_same (s : list nat) : broadcast_rev s s = Some s.
Proof.
  induction s as [|d s IH]; [reflexivity|].
  simpl. rewrite IH, Nat.eqb_refl. reflexivity.
Qed.

(** Equal shapes broadcast to themselves. *)
Lemma broadcast_same (s : list nat) : broadcast s s = Some s.
Proof.
  unfold broadcast. rewrite broadcast_rev_same. simpl. now rewrite rev_involutive.
Qed.

Ltac in_range_tac :=
  unfold in_range; repeat (constructor 2; [lia|]); constructor 1.

(** An operand that has the shape of the result is read at the result's
    index. *)
Lemma proj_same (s i : list nat) : in_range s i -> proj s i = i.
Proof.
  unfold in_range, proj. intros H.
  rewrite (Forall2_length _ _ _ H), Nat.sub_diag, drop_0.
  induction H as [|k d i s Hlt _ IH]; [reflexivity|].
  simpl. rewrite IH. destruct (Nat.eqb_spec d 1); [f_equal; lia | reflexivity].
Qed.

(** [torch.where] on three tensors of one shape. *)
Lemma where_same_shape {A} (c : tensor bool) (x y : tensor A) :
  shape x = shape c -> shape y = shape c ->
  exists r, where_ c x y = Ok r /\ shape r = shape c /\
    forall i, in_range (shape c) i ->
      elt r i = if elt c i then elt x i else elt y i.
Proof.
  intros Hx Hy. unfold where_. rewrite Hx, broadcast_same, Hy, broadcast_same.
  eexists. split; [reflexivity|]. split; [reflexivity|].
  intros i Hi. simpl. now rewrite proj_same.
Qed.

(** [torch.max(., dim=1)] on a tensor with at least one class. *)
Lemma max_dim1_spec (t : tensor Q) (B K : nat) (rest : list nat) :
  shape t = B :: S K :: rest ->
  exists v a, max_dim1 t = Ok (v, a) /\
    shape v = B :: rest /\ shape a = B :: rest /\
    forall b r, exists k,
      (k <= K)%nat /\
      elt v (b :: r) = elt t (b :: k :: r) /\
      elt a (b :: r) = Z.of_nat k /\
      (forall j, (j <= K)%nat -> (elt t (b :: j :: r) <= elt t (b :: k :: r))%Q) /\
      (forall j, (j < k)%nat -> (elt t (b :: j :: r) < elt t (b :: k :: r))%Q).
Proof.
  intros Hs. unfold max_dim1. rewrite Hs.
  eexists _, _. split; [reflexivity|]. split; [reflexivity|]. split; [reflexivity|].
  intros b r. simpl.
  pose proof (scan_max_spec (fun j => elt t (b :: j :: r)) K) as H.
  destruct (scan_max (fun j => elt t (b :: j :: r)) K) as [v k].
  destruct H as (Hk & Hv & Hmax & Hfirst).
  exists k. simpl. repeat split; auto.
Qed.

(** ** Pseudo-label policies *)

(** The self-best pass on a prediction with classes [0..K] and labels [y]
    of the same spatial shape: it succeeds and, at every pixel, the mask is
    true exactly when the largest softmax probability exceeds the threshold
    as a [float32], the label is the (first) argmax of the softmax where
    the mask is true and [y] at the same position where it is false. *)
Lemma self_best_pseudo_spec (softmax : tensor Q -> tensor Q) (f32 : Float32) (T : Q)
    (pred : tensor Q) (y : tensor Z) (B K H W : nat) :
  shape (softmax pred) = [B; S K; H; W] ->
  shape y = [B; H; W] ->
  exists label_1 mask_1,
    self_best_pseudo softmax f32 T pred y = Ok (label_1, mask_1) /\
    shape label_1 = [B; H; W] /\ shape mask_1 = [B; H; W] /\
    forall b h w, (b < B)%nat -> (h < H)%nat -> (w < W)%nat ->
      exists k, (k <= K)%nat /\
        (forall j, (j <= K)%nat ->
           (class_prob (softmax pred) b h w j <= class_prob (softmax pred) b h w k)%Q) /\
        (forall j, (j < k)%nat ->
           (class_prob (softmax pred) b h w j < class_prob (softmax pred) b h w k)%Q) /\
        elt mask_1 [b; h; w] = Qgtb (class_prob (softmax pred) b h w k) (to_float32 f32 T) /\
        elt label_1 [b; h; w] =
          if elt mask_1 [b; h; w] then Z.of_nat k else elt y [b; h; w].
Proof.
  intros Hs Hy. unfold self_best_pseudo, argmax_dim1.
  destruct (max_dim1_spec _ _ _ _ Hs) as (v & a & Hmax & Hv & Ha & Hpix).
  cbv zeta. rewrite Hmax.
  cbv beta iota delta [mbind result_bind mret result_ret fmap result_fmap snd].
  destruct (where_same_shape (gt_scalar f32 v T) a y) as (r & Hr & Hrs & Hre).
  { simpl. congruence. }
  { simpl. congruence. }
  rewrite Hr. exists r, (gt_scalar f32 v T).
  split; [reflexivity|]. simpl in Hrs, Hre. rewrite Hv in Hrs, Hre.
  split; [exact Hrs|]. split; [exact Hv|].
  intros b h w Hb Hh Hw.
  assert (Hin : in_range [B; H; W] [b; h; w]) by in_range_tac.
  destruct (Hpix b [h; w]) as (k & Hk & Hvk & Hak & Hle & Hlt).
  exists k. split; [exact Hk|]. split; [exact Hle|]. split; [exact Hlt|].
  rewrite (Hre _ Hin), Hak. split; [|reflexivity].
  simpl. now rewrite Hvk.
Qed.

(** Whether [torch.where] succeeds depends on the shapes only. *)
Lemma where_shape_only {A} (c c' : tensor bool) (x y : tensor A) (r : tensor A) :
  shape c' = shape c -> where_ c x y = Ok r ->
  exists r', where_ c' x y = Ok r' /\ shape r' = shape r.
Proof.
  unfold where_. intros ->.
  destruct (broadcast (shape c) (shape x)) as [s1|]; [|discriminate].
  destruct (broadcast s1 (shape y)) as [s|]; [|discriminate].
  intros [= <-]. eexists. split; reflexivity.
Qed.

(** C9.  For a fixed prediction and thresholds [T1 <= T2], every pixel of
    a confidence mask computed at [T2] is in the mask computed at [T1]:
    the self-best mask, the mask of the original policy and, with an
    auxiliary head, its second mask.  The pass at [T1] succeeds whenever
    the pass at [T2] does, with masks of the same shape.  The thresholds
    are compared as [float32] numbers; the conversion keeps their order. *)
Theorem mask_monotone_in_threshold (softmax : tensor Q -> tensor Q)
    (f32 : Float32) (T1 T2 : Q) (aux : bool)
    (pred : tensor Q) (pred_2 : option (tensor Q)) (y : tensor Z) :
  (T1 <= T2)%Q ->
  (forall l2 m2, self_best_pseudo softmax f32 T2 pred y = Ok (l2, m2) ->
     exists l1 m1, self_best_pseudo softmax f32 T1 pred y = Ok (l1, m1) /\
       shape m1 = shape m2 /\
       forall i, elt m2 i = true -> elt m1 i = true) /\
  (forall o2, original_pseudo softmax f32 T2 aux pred pred_2 = Ok o2 ->
     exists o1, original_pseudo softmax f32 T1 aux pred pred_2 = Ok o1 /\
       shape (mask_1 o1) = shape (mask_1 o2) /\
       (forall i, elt (mask_1 o2) i = true -> elt (mask_1 o1) i = true) /\
       match mask o2, mask o1 with
       | Some m2, Some m1 =>
           shape m1 = shape m2 /\ forall i, elt m2 i = true -> elt m1 i = true
       | None, None => True
       | _, _ => False
       end).
Proof.
  intros HT. apply (to_float32_le f32) in HT. split.
  - intros l2 m2. unfold self_best_pseudo, argmax_dim1. cbv zeta.
    destruct (max_dim1 (softmax pred)) as [[v a]|e]; [|discriminate].
    cbv beta iota delta [mbind result_bind mret result_ret fmap result_fmap snd].
    destruct (where_ (gt_scalar f32 v T2) a y) as [r2|e] eqn:Hw; [|discriminate].
    intros [= <- <-].
    destruct (where_shape_only (gt_scalar f32 v T2) (gt_scalar f32 v T1) _ _ _ eq_refl Hw)
      as (r1 & -> & _).
    exists r1, (gt_scalar f32 v T1). split; [reflexivity|]. split; [reflexivity|].
    intros i. simpl. apply Qgtb_mono, HT.
  - intros o2. unfold original_pseudo, argmax_dim1. cbv zeta.
    destruct (max_dim1 (softmax pred)) as [[v a]|e]; [|discriminate].
    cbv beta iota delta [mbind result_bind mret result_ret fmap result_fmap snd].
    destruct (where_ (gt_scalar f32 v T2) a ignore_tensor) as [r2|e] eqn:Hw; [|discriminate].
    destruct (where_shape_only (gt_scalar f32 v T2) (gt_scalar f32 v T1) _ _ _ eq_refl Hw)
      as (r1 & -> & _).
    destruct aux.
    + destruct pred_2 as [p2|]; [|discriminate].
      destruct (max_dim1 (softmax p2)) as [[v2 a2]|e]; [|discriminate].
      destruct (mean2 (softmax pred) (softmax p2)) as [pc|e]; [|discriminate].
      destruct (max_dim1 pc) as [[vc ac]|e]; [|discriminate].
      unfold or_. simpl shape.
      destruct (broadcast (shape v) (shape v2)) as [s|]; [|discriminate].
      match goal with
      | |- context [where_ ?m2 ac ignore_tensor] =>
          destruct (where_ m2 ac ignore_tensor) as [q2|e] eqn:Hw2; [|discriminate]
      end.
      intros [= <-].
      match type of Hw2 with
      | where_ (mk ?s ?f) _ _ = _ =>
          destruct (where_shape_only (mk s f)
                      (mk s (fun i => elt (gt_scalar f32 v T1) (proj (shape v) i)
                                      || elt (gt_scalar f32 v2 T1) (proj (shape v2) i)))
                      _ _ _ eq_refl Hw2) as (q1 & -> & _)
      end.
      eexists. split; [reflexivity|]. simpl.
      split; [reflexivity|]. split; [intros i; apply Qgtb_mono, HT|].
      split; [reflexivity|]. intros i. rewrite !orb_true_iff.
      intros [H|H]; [left|right]; revert H; apply Qgtb_mono, HT.
    + intros [= <-]. eexists. split; [reflexivity|]. simpl.
      split; [reflexivity|]. split; [|exact I].
      intros i. apply Qgtb_mono, HT.
Qed.

Lemma mask_monotone_in_threshold_witness :
  (1 # 4 <= 1 # 2)%Q /\
  exists l2 m2 l1 m1,
    self_best_pseudo (fun p => p) exact_float32 (1 # 2) scenario_pred scenario_y = Ok (l2, m2) /\
    self_best_pseudo (fun p => p) exact_float32 (1 # 4) scenario_pred scenario_y = Ok (l1, m1) /\
    (forall i, elt m2 i = true -> elt m1 i = true) /\
    elt m2 [0; 0; 1]%nat = false /\ elt m1 [0; 0; 1]%nat = true.
Proof.
  assert (HT : (1 # 4 <= 1 # 2)%Q) by discriminate.
  split; [exact HT|].
  destruct (mask_monotone_in_threshold (fun p => p) exact_float32 (1 # 4) (1 # 2) true
              scenario_pred (Some scenario_pred) scenario_y HT) as [Hsb _].
  destruct (Hsb _ _ eq_refl) as (l1 & m1 & Hrun & _ & Hsub).
  eexists _, _, l1, m1. split; [reflexivity|]. split; [exact Hrun|].
  split; [exact Hsub|]. split; [reflexivity|].
  cbv in Hrun. injection Hrun as _ <-. reflexivity.
Defined.

(** ** The hybrid image *)

(** X20.  With one image per batch the mask, tiled to three channels,
    selects per pixel between the target image and the clone of the source
    image, the same way in every channel. *)
Lemma hybrid_image_batch_one (mask_1 : tensor bool) (x x_source : tensor Q)
    (H W : nat) :
  shape mask_1 = [1; H; W]%nat ->
  shape x = [1; 3; H; W]%nat -> shape x_source = [1; 3; H; W]%nat ->
  exists hybrid, hybrid_image mask_1 x x_source = Ok hybrid /\
    shape hybrid = [1; 3; H; W]%nat /\
    forall ch h w, (ch < 3)%nat -> (h < H)%nat -> (w < W)%nat ->
      elt hybrid [0; ch; h; w]%nat =
        if elt mask_1 [0; h; w]%nat then elt x [0; ch; h; w]%nat
        else elt x_source [0; ch; h; w]%nat.
Proof.
  intros Hm Hx Hs. unfold hybrid_image, repeat.
  simpl shape. rewrite Hm. simpl.
  rewrite !Nat.add_0_r.
  match goal with
  | |- context [where_ ?m x x_source] =>
      destruct (where_same_shape m x x_source) as (r & Hr & Hrs & Hre);
      [simpl; congruence .. |]
  end.
  rewrite Hr. exists r. split; [reflexivity|]. simpl in Hrs, Hre.
  split; [exact Hrs|]. intros ch h w Hc Hh Hw.
  rewrite Hre by in_range_tac.
  cbn [zip_with drop tail].
  now rewrite Nat.mod_1_r, !Nat.mod_small by lia.
Qed.

(** C1.  The hybrid image is only built for batches of one image: with two
    or more target images the tiled mask has [3 * B] entries along
    dimension 1 where the images have 3, and [torch.where] raises. *)
Theorem hybrid_image_batch_size (mask_1 : tensor bool) (x x_source : tensor Q)
    (B H W : nat) :
  (2 <= B)%nat ->
  shape mask_1 = [B; H; W]%nat ->
  shape x = [B; 3; H; W]%nat -> shape x_source = [B; 3; H; W]%nat ->
  hybrid_image mask_1 x x_source = Raise RuntimeError.
Proof.
  intros HB Hm Hx Hs. unfold hybrid_image, repeat.
  simpl shape. rewrite Hm. simpl.
  unfold where_, broadcast. simpl shape. rewrite Hx. simpl.
  destruct B as [|[|B']]; [lia | lia |].
  destruct (Nat.eqb_spec (S (S B') + (S (S B') + (S (S B') + 0))) 3); [lia|].
  destruct (Nat.eqb_spec (S (S B') + (S (S B') + (S (S B') + 0))) 1); [lia|].
  reflexivity.
Qed.

Lemma hybrid_image_batch_size_witness :
  hybrid_image (full [2; 1; 1]%nat true) (image Toy.batch_t2) (image Toy.batch_s2)
    = Raise RuntimeError /\
  fst (train_step Toy.E Toy.config 0 Toy.batch_s2 Toy.batch_t2 Toy.trainer)
    = Raise RuntimeError.
Proof.
  split.
  - apply (hybrid_image_batch_size _ _ _ 2 1 1); [lia | reflexivity ..].
  - vm_compute. reflexivity.
Defined.

(** ** The learning-rate scheduler *)






(** ** Running the methods *)

(** Unfolds the operations of the monad [M]. *)
Ltac unfold_M :=
  unfold mbind, M_bind, mret, M_ret, raise, lift, gets, emit, log_info,
    add_scalar, del, modify in *.

(** ** Checkpoint load *)

(** C7.  A successful [load_checkpoint] leaves the optimizer state and the
    epoch/iter counters untouched unless both [cfg.train] and
    [cfg.model.resume_from_checkpoint] hold.  When both hold the optimizer
    state is the one loaded from the checkpoint's [optimizer] entry, and
    with [epoch] and [iter] entries in the checkpoint the two counters are
    set to 0, whatever values the checkpoint stores. *)
Theorem load_checkpoint_resume (E : Externals) (c : cfg.t) (ck : checkpoint)
    (s s' : Trainer) :
  load_checkpoint E c ck s = (Ok tt, s') ->
  (cfg.train c && cfg.resume_from_checkpoint c = false ->
   optimizer s' = optimizer s /\ epoch s' = epoch s /\ iter s' = iter s) /\
  (cfg.train c && cfg.resume_from_checkpoint c = true ->
   match ck !! "optimizer" with
   | Some v => optimizer_load_state_dict E (optimizer s) v = Ok (optimizer s')
   | None => optimizer s' = optimizer s
   end /\
   (is_Some (ck !! "epoch") -> is_Some (ck !! "iter") ->
    epoch s' = 0 /\ iter s' = 0) /\
   (ck !! "epoch" = None \/ ck !! "iter" = None ->
    epoch s' = epoch s /\ iter s' = iter s)).
Proof.
  unfold load_checkpoint. destruct s. unfold_M. simpl.
  intros Hrun. split; intros Hflags; rewrite Hflags in Hrun.
  - repeat case_match; simplify_eq; simpl; auto.
  - repeat case_match; simplify_eq; simpl; (split; [|split]); auto;
      try (intros [? ?] [? ?]; simplify_eq; auto);
      try (intros [?|?]; simplify_eq; auto).
Qed.

Lemma load_checkpoint_resume_witness :
  exists s',
    load_checkpoint Toy.E Toy.config Toy.saved (set_iter 5 (set_epoch 3 Toy.trainer))
      = (Ok tt, s') /\
    epoch s' = 0 /\ iter s' = 0.
Proof.
  pose (run := load_checkpoint Toy.E Toy.config Toy.saved
                 (set_iter 5 (set_epoch 3 Toy.trainer))).
  assert (Hrun : run = (Ok tt, snd run)) by (vm_compute; reflexivity).
  exists (snd run). split; [exact Hrun|].
  destruct (load_checkpoint_resume Toy.E Toy.config Toy.saved
              (set_iter 5 (set_epoch 3 Toy.trainer)) (snd run) Hrun)
    as [_ Hresume].
  destruct (Hresume eq_refl) as (_ & Hcounters & _).
  apply Hcounters; eexists; reflexivity.
Defined.

(** ** Frame reasoning for the methods *)

Lemma preserves_ret {A} (R : Trainer -> Trainer -> Prop) (a : A) :
  (forall s, R s s) -> preserves R (mret a : M A).
Proof. intros Hrefl s r s' [= _ <-]. apply Hrefl. Qed.

Lemma preserves_raise {A} (R : Trainer -> Trainer -> Prop) (e : exn) :
  (forall s, R s s) -> preserves R (raise e : M A).
Proof. intros Hrefl s r s' [= _ <-]. apply Hrefl. Qed.

Lemma preserves_lift {A} (R : Trainer -> Trainer -> Prop) (x : result A) :
  (forall s, R s s) -> preserves R (lift x).
Proof. intros Hrefl s r s' [= _ <-]. apply Hrefl. Qed.

Lemma preserves_gets {A} (R : Trainer -> Trainer -> Prop) (f : Trainer -> A) :
  (forall s, R s s) -> preserves R (gets f).
Proof. intros Hrefl s r s' [= _ <-]. apply Hrefl. Qed.

Lemma preserves_modify (R : Trainer -> Trainer -> Prop) (f : Trainer -> Trainer) :
  (forall s, R s (f s)) -> preserves R (modify f).
Proof. intros Hf s r s' [= _ <-]. apply Hf. Qed.

Lemma preserves_bind {A B} (R : Trainer -> Trainer -> Prop)
    (m : M A) (f : A -> M B) :
  (forall s1 s2 s3, R s1 s2 -> R s2 s3 -> R s1 s3) ->
  preserves R m -> (forall a, preserves R (f a)) -> preserves R (m ≫= f).
Proof.
  intros Htrans Hm Hf s r s'. unfold mbind, M_bind.
  destruct (m s) as [[a|e] s1] eqn:Hrun.
  - intros Hk. eapply Htrans; [eapply Hm, Hrun | eapply Hf, Hk].
  - intros [= <- <-]. eapply Hm, Hrun.
Qed.

Lemma read_only_refl (s : Trainer) : read_only s s.
Proof.
  repeat split. exists []. split; [now rewrite app_nil_r | constructor].
Qed.

Lemma read_only_trans (s1 s2 s3 : Trainer) :
  read_only s1 s2 -> read_only s2 s3 -> read_only s1 s3.
Proof.
  intros (Hp1 & He1 & evs1 & Ht1 & Hf1) (Hp2 & He2 & evs2 & Ht2 & Hf2).
  split; [congruence|]. split; [congruence|].
  exists (evs1 ++ evs2). split.
  - rewrite Ht2, Ht1. now rewrite app_assoc.
  - apply Forall_app. split; assumption.
Qed.

(** Closes [read_only s (f s)] for a setter that leaves the parameters and
    the EMA alone and appends at most one event that is not a swap. *)
Ltac read_only_setter :=
  let s := fresh "s" in
  intros s; destruct s; unfold read_only; simpl;
  split; [reflexivity|]; split; [reflexivity|];
  first [ exists []; split; [now rewrite app_nil_r | constructor]
        | eexists [_]; split; [reflexivity|];
          constructor; [split; discriminate | constructor] ].

(** Walks through a method built from the operations of [M], for a
    relation with the reflexivity and transitivity proofs [Hrefl], [Htrans]
    and the tactic [setter] for the state updates. *)
Ltac frame_steps Hrefl Htrans setter :=
  repeat first
    [ apply preserves_ret; exact Hrefl
    | apply preserves_raise; exact Hrefl
    | apply preserves_lift; exact Hrefl
    | apply preserves_gets; exact Hrefl
    | apply preserves_modify; setter
    | apply preserves_bind; [exact Htrans | | intros ?]
    | match goal with
      | |- preserves _ (match ?x with _ => _ end) => destruct x
      end ].

Ltac read_only_steps := frame_steps read_only_refl read_only_trans read_only_setter.

Lemma validate_loop_read_only (E : Externals) (c : cfg.t) (mode : Mode)
    (val_loader : list Batch) :
  forall val_idx last,
    preserves read_only (validate_loop E c mode val_idx val_loader last).
Proof.
  induction val_loader as [|b rest IH]; intros val_idx last; simpl.
  - read_only_steps.
  - unfold emit. read_only_steps. apply IH.
Qed.

(** [validate] writes neither the live parameters nor the EMA state. *)
Lemma validate_read_only (E : Externals) (c : cfg.t) (mode : Mode) :
  preserves read_only (validate E c mode).
Proof.
  unfold validate, unpack_metric, as_number, emit, log_info, add_scalar, del.
  read_only_steps; apply validate_loop_read_only.
Qed.

(** ** Equations of the monad operations *)

Lemma bind_run {A B} (m : M A) (f : A -> M B) (s : Trainer) :
  (m ≫= f) s = match m s with
               | (Ok a, s1) => f a s1
               | (Raise e, s1) => (Raise e, s1)
               end.
Proof. reflexivity. Qed.

Lemma emit_run (e : event) (s : Trainer) :
  emit e s = (Ok tt, set_trace (trace s ++ [e]) s).
Proof. reflexivity. Qed.

Lemma modify_run (f : Trainer -> Trainer) (s : Trainer) :
  modify f s = (Ok tt, f s).
Proof. reflexivity. Qed.

Lemma gets_run {A} (f : Trainer -> A) (s : Trainer) : gets f s = (Ok (f s), s).
Proof. reflexivity. Qed.

Lemma lift_run {A} (r : result A) (s : Trainer) : lift r s = (r, s).
Proof. reflexivity. Qed.

Lemma ret_run {A} (a : A) (s : Trainer) : (mret a : M A) s = (Ok a, s).
Proof. reflexivity. Qed.

Lemma raise_run {A} (e : exn) (s : Trainer) : (raise e : M A) s = (Raise e, s).
Proof. reflexivity. Qed.

(** Runs the first operation of a sequence. *)
Ltac run_step :=
  rewrite bind_run;
  first [ rewrite emit_run | rewrite modify_run | rewrite gets_run
        | rewrite lift_run | rewrite ret_run | rewrite raise_run ];
  cbv beta iota.

(** ** The EMA swap around validation *)

(** C4, as stated, fails when validation raises: with an empty validation
    loader [validate] raises, [restore] is not run and the model keeps the
    shadow parameters. *)
Lemma restore_guaranteed_counterexample :
  ~ restore_guaranteed_as_stated Toy.E Toy.config Toy.trainer.
Proof.
  intros [Hrestore _]. vm_compute in Hrestore.
  destruct Hrestore as [H|[H|[]]]; discriminate.
Qed.

(** C4 (amended).  [apply_shadow] followed by [restore], with only
    read-only steps in between, gives back the live parameters from before
    the swap.  In the validation block [restore] runs when [validate]
    returns: the live parameters are then the pre-swap ones and the backup
    is empty.  When [validate] raises, the exception leaves the block
    before [restore]: the model holds the shadow parameters and the
    pre-swap parameters stay in the backup. *)
Theorem validation_block_restore (E : Externals) (c : cfg.t) (s : Trainer) :
  (forall s2, read_only (apply_shadow s) s2 ->
     parameters (model (restore s2)) = parameters (model s) /\
     backup (ema (restore s2)) = ∅) /\
  match validate E c ModeTarget (swapped_in s) with
  | (Raise e, s2) =>
      validation_block E c s = (Raise e, s2) /\
      parameters (model s2) = shadow (ema s) /\
      backup (ema s2) = parameters (model s) /\
      ~ In EvRestore (drop (length (trace s)) (trace s2))
  | (Ok metrics, s2) =>
      let s' := snd (validation_block E c s) in
      parameters (model s') = parameters (model s) /\
      backup (ema s') = ∅ /\
      In EvRestore (drop (length (trace s)) (trace s'))
  end.
Proof.
  split.
  - intros s2 (Hp & He & _). destruct s, s2; simpl in *. subst. split; reflexivity.
  - destruct (validate E c ModeTarget (swapped_in s)) as [[metrics|e] s2] eqn:Hv;
      pose proof (validate_read_only E c ModeTarget _ _ _ Hv)
        as (Hp & He & evs & Ht & Hevs);
      unfold validation_block; do 3 run_step; fold (swapped_in s);
      rewrite bind_run, Hv.
    + destruct metrics as [[[PA MPA] MIoU] FWIoU]. do 2 run_step.
      match goal with
      | |- context [snd (?k ?st)] =>
          assert (Hk : preserves read_only k);
          [| destruct (k st) as [r s'] eqn:Hrun;
             destruct (Hk _ _ _ Hrun) as (Hp' & He' & evs' & Ht' & _) ]
      end.
      { unfold add_scalar, log_info. read_only_steps. }
      cbv zeta. simpl snd. rewrite Hp', He', Ht'.
      destruct s, s2; simpl in *. subst. repeat split.
      rewrite <- !app_assoc, drop_app_length. simpl.
      right. apply in_or_app. right. now left.
    + split; [reflexivity|]. rewrite Hp, He, Ht.
      destruct s; simpl. repeat split.
      rewrite <- app_assoc, drop_app_length. simpl.
      intros [H|H]; [discriminate|].
      rewrite Forall_forall in Hevs. apply list_elem_of_In in H.
      destruct (Hevs _ H) as [_ Hne]. now apply Hne.
Qed.

Lemma validation_block_restore_witness :
  (exists e s2,
     validation_block Toy.E Toy.config Toy.trainer = (Raise e, s2) /\
     parameters (model s2) = Toy.averaged /\ backup (ema s2) = Toy.live) /\
  (let s' := snd (validation_block (Toy.world 1 [Toy.batch_val]) Toy.config Toy.trainer) in
   parameters (model s') = Toy.live /\ backup (ema s') = ∅) /\
  parameters (model (restore (apply_shadow Toy.trainer))) = Toy.live.
Proof.
  split; [|split].
  - pose proof (validation_block_restore Toy.E Toy.config Toy.trainer) as [_ H].
    destruct (validate Toy.E Toy.config ModeTarget (swapped_in Toy.trainer))
      as [[metrics|e] s2] eqn:Hv.
    + vm_compute in Hv. discriminate.
    + destruct H as (Hrun & Hp & Hb & _). exists e, s2. auto.
  - pose proof (validation_block_restore (Toy.world 1 [Toy.batch_val])
                  Toy.config Toy.trainer) as [_ H].
    destruct (validate (Toy.world 1 [Toy.batch_val]) Toy.config ModeTarget
                (swapped_in Toy.trainer)) as [[metrics|e] s2] eqn:Hv.
    + destruct H as (Hp & Hb & _). split; assumption.
    + vm_compute in Hv. discriminate.
  - pose proof (validation_block_restore Toy.E Toy.config Toy.trainer) as [H _].
    apply (H (apply_shadow Toy.trainer)), read_only_refl.
Defined.

(** ** The loss terms of a step *)

Lemma extends_trans (s1 s2 s3 : Trainer) evs1 gs1 evs2 gs2 :
  extends s1 s2 evs1 gs1 -> extends s2 s3 evs2 gs2 ->
  extends s1 s3 (evs1 ++ evs2) (gs1 ++ gs2).
Proof.
  unfold extends. intros -> ->. destruct s1; simpl. now rewrite !app_assoc.
Qed.

(** Runs a method in a hypothesis-free goal of the form
    [m s = (Ok a, s') -> _], one operation at a time. *)
Ltac run :=
  repeat first
    [ progress (unfold forward, backward, self_loss, add_scalar, log_info)
    | rewrite bind_run
    | rewrite emit_run | rewrite modify_run | rewrite gets_run
    | rewrite ret_run | rewrite raise_run
    | rewrite lift_run
    | progress cbv beta iota
    | match goal with
      | |- context [match (if ?b then _ else _) _ with _ => _ end] =>
          let Hb := fresh "Hb" in destruct b eqn:Hb
      | |- context [match (match ?x with _ => _ end) _ with _ => _ end] =>
          let Hx := fresh "Hx" in destruct x eqn:Hx
      | |- context [match ?x with Ok _ => _ | Raise _ => _ end] =>
          let Hx := fresh "Hx" in destruct x eqn:Hx
      | |- (if ?b then _ else _) _ = _ -> _ =>
          let Hb := fresh "Hb" in destruct b eqn:Hb
      | |- (match ?x with _ => _ end) _ = _ -> _ =>
          let Hx := fresh "Hx" in destruct x eqn:Hx
      | |- (Raise _, _) = (Ok _, _) -> _ => discriminate
      end ].

(** A successful source branch: the auxiliary head is on, the model
    returned a pair, both parts are recorded in [losses] and their sum is
    propagated into the gradient buffer. *)
Lemma source_branch_ok (E : Externals) (c : cfg.t) (batch_s batch_t : Batch)
    (losses losses' : list (string * Q)) (y : tensor Z) (x_source : tensor Q)
    (s s' : Trainer) :
  source_branch E c batch_s batch_t losses s = (Ok (y, x_source, losses'), s') ->
  let x := if cfg.source_fourier c
           then fourier_mix E (image batch_s) (image batch_t) (cfg.fourier_beta c)
           else image batch_s in
  cfg.aux c = true /\ x_source = image batch_s /\
  squeeze1 (label batch_s) = Ok y /\
  exists p1 p2,
    forward_model E (model s) (cfg.num_target c) x = PTuple p1 p2 /\
    let main := loss E p1 y in
    let aux := (loss E p2 y * cfg.lam_aux c)%Q in
    losses' = dict_set "source_aux" aux (dict_set "source_main" main losses) /\
    extends s s'
      ((if cfg.source_fourier c then [EvFourierMix] else []) ++
       [EvForward true x; EvBackward "loss_source" (main + aux)%Q])
      [("loss_source", (main + aux)%Q)].
Proof.
  unfold source_branch. run.
  all: try (destruct (forward_model _ _ _ _) as [p|p1 p2] eqn:Hfwd; simpl; run).
  all: try discriminate.
  all: intros Heq; simplify_eq; simpl; repeat split; try reflexivity.
  all: destruct s; simpl in *; rewrite Hfwd in *; simpl in *; simplify_eq.
  all: eexists _, _; split; [reflexivity|].
  all: split; [reflexivity|]; unfold extends; simpl; now rewrite <- ?app_assoc.
Qed.

(** With [cfg.aux] off the source branch never returns: [del] meets the
    unassigned [loss_source_2]. *)
Lemma source_branch_requires_aux (E : Externals) (c : cfg.t)
    (batch_s batch_t : Batch) (losses : list (string * Q)) (s : Trainer) :
  cfg.aux c = false ->
  exists e, fst (source_branch E c batch_s batch_t losses s) = Raise e.
Proof.
  intros Haux.
  destruct (source_branch E c batch_s batch_t losses s) as [[[[y xs] l]|e] s'] eqn:Hrun.
  - apply source_branch_ok in Hrun. destruct Hrun as (Htrue & _). congruence.
  - exists e. reflexivity.
Qed.

(** A successful self-best branch: the mask-generation pass runs without
    gradient tracking on the target image, the hybrid image is forwarded
    with gradient tracking, the model returned a pair on it, and the
    auxiliary cross entropy is part of the propagated loss. *)
Lemma self_best_branch_ok (E : Externals) (c : cfg.t) (batch_t : Batch)
    (y : tensor Z) (x_source x : tensor Q) (s s' : Trainer) :
  self_best_branch E c batch_t y x_source s = (Ok x, s') ->
  exists o1 o2 label_1 mask_1 p1 p2,
    destructure2 (forward_model E (model s) (cfg.num_target c) (image batch_t))
      = Ok (o1, o2) /\
    self_best_pseudo (softmax E) (float32 E) (cfg.pseudobest_threshold c) o1 y
      = Ok (label_1, mask_1) /\
    hybrid_image mask_1 (image batch_t) x_source = Ok x /\
    forward_model E (model s) (cfg.num_target c) x = PTuple p1 p2 /\
    let v := (loss E p1 label_1 * cfg.lam_new c +
              cfg.lam_aux c * loss E p2 label_1 * cfg.lam_new c)%Q in
    extends s s'
      [EvForward false (image batch_t); EvForward true x;
       EvBackward "loss_self_train" v]
      [("loss_self_train", v)].
Proof.
  unfold self_best_branch. run.
  intros [= <- <-]. destruct s; simpl in *.
  match goal with
  | H : unpack ?f = _ |- _ => destruct f as [p|p1 p2] eqn:Hfwd
  end; simplify_eq/=.
  eexists _, _, _, _, _, _. repeat split; try eassumption.
  unfold extends. simpl. now rewrite <- !app_assoc.
Qed.

Lemma model_set_trace (t : list event) (s : Trainer) :
  model (set_trace t s) = model s.
Proof. now destruct s. Qed.

(** The self-best branch raises [TypeError] at its loss when the model
    returns a single prediction for the hybrid image. *)
Lemma self_best_branch_single (E : Externals) (c : cfg.t) (batch_t : Batch)
    (y : tensor Z) (x_source : tensor Q) (s : Trainer)
    (o1 o2 : tensor Q) (label_1 : tensor Z) (mask_1 : tensor bool)
    (x p : tensor Q) :
  destructure2 (forward_model E (model s) (cfg.num_target c) (image batch_t))
    = Ok (o1, o2) ->
  self_best_pseudo (softmax E) (float32 E) (cfg.pseudobest_threshold c) o1 y
    = Ok (label_1, mask_1) ->
  hybrid_image mask_1 (image batch_t) x_source = Ok x ->
  forward_model E (model s) (cfg.num_target c) x = PSingle p ->
  fst (self_best_branch E c batch_t y x_source s) = Raise TypeError.
Proof.
  intros Hd Hp Hh Hf. unfold self_best_branch, forward.
  repeat first
    [ rewrite bind_run | rewrite emit_run | rewrite gets_run | rewrite ret_run
    | rewrite lift_run | rewrite model_set_trace
    | rewrite Hd | rewrite Hp | rewrite Hh | rewrite Hf
    | progress cbv beta iota ].
  reflexivity.
Qed.

Lemma original_pass_ok (E : Externals) (c : cfg.t) (x : tensor Q) (o : Original)
    (s s' : Trainer) :
  original_pass E c x s = (Ok o, s') ->
  extends s s' [EvForward false x] [].
Proof.
  unfold original_pass. run.
  destruct (unpack _) as [pred_1 pred_2]. run.
  intros [= _ <-]. unfold extends. destruct s; simpl. now rewrite app_nil_r.
Qed.

(** A successful consistency loss: the auxiliary head is on, the model
    returned a pair, both parts are recorded and their sum propagated. *)
Lemma consistency_loss_ok (E : Externals) (c : cfg.t) (name : string) (lam : Q)
    (pred : Pred) (y_1 : tensor Z) (y_2 : option (tensor Z))
    (losses losses' : list (string * Q)) (s s' : Trainer) :
  consistency_loss E c name lam pred y_1 y_2 losses s = (Ok losses', s') ->
  exists main aux,
    losses' = dict_set (name +:+ "_aux") aux (dict_set (name +:+ "_main") main losses) /\
    extends s s' [EvBackward ("loss_" +:+ name) (main + aux)%Q]
                 [("loss_" +:+ name, (main + aux)%Q)].
Proof.
  unfold consistency_loss. destruct (unpack pred) as [pred_1 pred_2]. run.
  all: try discriminate.
  intros [= <- <-]. eexists _, _. split; [reflexivity|].
  unfold extends. destruct s; reflexivity.
Qed.

(** ** The self-best loss and the auxiliary head *)

(** C10.  The self-best branch does not read [cfg.aux]: with any value of
    the flag it runs the same way.  When it succeeds the model returned a
    [(main, auxiliary)] pair for the hybrid image and the propagated loss
    contains the cross entropy of the auxiliary head.  When the model
    returns a single prediction for the hybrid image the auxiliary
    prediction is [None] and the loss raises [TypeError]; with a model that
    only returns single predictions the branch never succeeds.  The source
    branch, in contrast, propagates the main-head loss alone when [cfg.aux]
    is off. *)
Theorem self_best_aux_unconditional (E : Externals) (c : cfg.t) (batch_t : Batch)
    (y : tensor Z) (x_source : tensor Q) (s : Trainer) :
  (forall b, self_best_branch E (set_aux b c) batch_t y x_source s
             = self_best_branch E c batch_t y x_source s) /\
  (forall x s', self_best_branch E c batch_t y x_source s = (Ok x, s') ->
     exists p1 p2 label_1,
       forward_model E (model s) (cfg.num_target c) x = PTuple p1 p2 /\
       trace s' = trace s ++
         [EvForward false (image batch_t); EvForward true x;
          EvBackward "loss_self_train" (self_train_loss E c p1 p2 label_1)]) /\
  (forall o1 o2 label_1 mask_1 x p,
     destructure2 (forward_model E (model s) (cfg.num_target c) (image batch_t))
       = Ok (o1, o2) ->
     self_best_pseudo (softmax E) (float32 E) (cfg.pseudobest_threshold c) o1 y
       = Ok (label_1, mask_1) ->
     hybrid_image mask_1 (image batch_t) x_source = Ok x ->
     forward_model E (model s) (cfg.num_target c) x = PSingle p ->
     fst (self_best_branch E c batch_t y x_source s) = Raise TypeError) /\
  (forall batch_s losses y' pred_1 pred_2,
     cfg.aux c = false -> cfg.source_fourier c = false ->
     squeeze1 (label batch_s) = Ok y' ->
     unpack (forward_model E (model s) (cfg.num_target c) (image batch_s))
       = (pred_1, pred_2) ->
     grad (snd (source_branch E c batch_s batch_t losses s))
       = grad s ++ [("loss_source", loss E pred_1 y')]) /\
  ((forall x, exists p, forward_model E (model s) (cfg.num_target c) x = PSingle p) ->
   forall x s', self_best_branch E c batch_t y x_source s <> (Ok x, s')).
Proof.
  split; [|split; [|split; [|split]]].
  - intros b. destruct c. reflexivity.
  - intros x s' Hrun.
    destruct (self_best_branch_ok _ _ _ _ _ _ _ _ Hrun)
      as (o1 & o2 & label_1 & mask_1 & p1 & p2 & _ & _ & _ & Hfwd & Hext).
    exists p1, p2, label_1. split; [exact Hfwd|].
    cbv zeta in Hext. unfold extends in Hext. rewrite Hext.
    destruct s. reflexivity.
  - intros o1 o2 label_1 mask_1 x p. apply self_best_branch_single.
  - intros batch_s losses y' pred_1 pred_2 Haux Hfourier Hsq Hun.
    unfold source_branch, forward, backward.
    repeat first
      [ rewrite bind_run | rewrite emit_run | rewrite gets_run | rewrite ret_run
      | rewrite lift_run | rewrite modify_run | rewrite model_set_trace
      | rewrite Haux | rewrite Hfourier | rewrite Hsq | rewrite Hun
      | progress cbv beta iota ].
    destruct s. reflexivity.
  - intros Hsingle x s' Hrun.
    destruct (self_best_branch_ok _ _ _ _ _ _ _ _ Hrun)
      as (_ & _ & _ & _ & p1 & p2 & _ & _ & _ & Hfwd & _).
    destruct (Hsingle x) as [p Hp]. congruence.
Qed.

Lemma self_best_aux_unconditional_witness :
  cfg.aux (Toy.config_with false false 0 0 0) = false /\
  (exists x s' p1 p2 label_1,
     self_best_branch Toy.E (Toy.config_with false false 0 0 0) Toy.batch_t
       (full [1; 1]%nat 5) (image Toy.batch_s) Toy.trainer = (Ok x, s') /\
     trace s' =
       [EvForward false (image Toy.batch_t); EvForward true x;
        EvBackward "loss_self_train"
          (self_train_loss Toy.E (Toy.config_with false false 0 0 0) p1 p2 label_1)]) /\
  fst (self_best_branch Toy.single_head Toy.config Toy.batch_t2
         (full [1]%nat 5) (image Toy.batch_s2) Toy.trainer) = Raise TypeError.
Proof.
  split; [reflexivity|]. split.
  - pose (run := self_best_branch Toy.E (Toy.config_with false false 0 0 0)
                   Toy.batch_t (full [1; 1]%nat 5) (image Toy.batch_s) Toy.trainer).
    assert (Hrun : run = (Ok (get_ok (image Toy.batch_t) (fst run)), snd run))
      by (vm_compute; reflexivity).
    destruct (self_best_aux_unconditional Toy.E (Toy.config_with false false 0 0 0)
                Toy.batch_t (full [1; 1]%nat 5) (image Toy.batch_s) Toy.trainer)
      as (_ & Hok & _).
    destruct (Hok _ _ Hrun) as (p1 & p2 & label_1 & _ & Htrace).
    exists (get_ok (image Toy.batch_t) (fst run)), (snd run), p1, p2, label_1.
    split; [exact Hrun | exact Htrace].
  - destruct (self_best_aux_unconditional Toy.single_head Toy.config
                Toy.batch_t2 (full [1]%nat 5) (image Toy.batch_s2) Toy.trainer)
      as (_ & _ & Hsingle & _).
    eapply Hsingle; reflexivity.
Defined.

(** ** Cost avoidance with zero consistency weights *)

(** C2, as stated, fails on a configuration with every consistency weight
    at zero and [source_fourier] on: [fourier_mix] is called in the source
    branch, and the original pseudo-label pass still runs, so the step
    makes two forward passes without gradient tracking. *)
Lemma cost_avoidance_counterexample :
  ~ cost_avoidance_as_stated Toy.E (Toy.config_with true true 0 0 0)
      Toy.batch_s Toy.batch_t Toy.trainer /\
  ~ no_perturbation_as_stated Toy.E (Toy.config_with true true 0 0 0)
      Toy.batch_s Toy.batch_t Toy.trainer /\
  ~ pseudo_pass_skipped_as_stated Toy.E (Toy.config_with false true 0 0 0)
      Toy.batch_s Toy.batch_t Toy.trainer.
Proof.
  split; [|split].
  - intros (_ & H & _). vm_compute in H. discriminate.
  - intros H. vm_compute in H. discriminate.
  - intros H. vm_compute in H. discriminate.
Qed.

Lemma zero_not_positive (lam : Q) : (lam == 0)%Q -> Qgtb lam 0 = false.
Proof. intros H. apply Qgtb_le. rewrite H. apply Qle_refl. Qed.

Lemma aug_branch_off (E : Externals) (c : cfg.t) x o losses s :
  Qgtb (cfg.lam_aug c) 0 = false -> aug_branch E c x o losses s = (Ok losses, s).
Proof. unfold aug_branch. now intros ->. Qed.

Lemma fourier_branch_off (E : Externals) (c : cfg.t) x o batch_s losses s :
  Qgtb (cfg.lam_fourier c) 0 = false ->
  fourier_branch E c x o batch_s losses s = (Ok losses, s).
Proof. unfold fourier_branch. now intros ->. Qed.

Lemma cutmix_branch_off (E : Externals) (c : cfg.t) x o batch_s losses s :
  Qgtb (cfg.lam_cutmix c) 0 = false ->
  cutmix_branch E c x o batch_s losses s = (Ok losses, s).
Proof. unfold cutmix_branch. now intros ->. Qed.

(** C2 (amended).  With every consistency weight at zero, a step that
    completes its loss computation propagates exactly two loss terms (source
    and self-best), calls none of the perturbations of the consistency
    terms ([fourier_mix] is called once, in the source branch, exactly when
    [source_fourier] is set), and still runs the original pseudo-label
    pass: its forward pass without gradient tracking on the hybrid image is
    the last event of the loss computation. *)
Theorem zero_weights_losses (E : Externals) (c : cfg.t)
    (batch_s batch_t : Batch) (s s' : Trainer) (losses : list (string * Q)) :
  (cfg.lam_aug c == 0)%Q -> (cfg.lam_fourier c == 0)%Q -> (cfg.lam_cutmix c == 0)%Q ->
  compute_losses E c batch_s batch_t s = (Ok losses, s') ->
  (exists x_in v_source mask_1 x v_self,
     hybrid_image mask_1 (image batch_t) (image batch_s) = Ok x /\
     trace s' = trace s ++
       (if cfg.source_fourier c then [EvFourierMix] else []) ++
       [EvForward true x_in; EvBackward "loss_source" v_source;
        EvForward false (image batch_t); EvForward true x;
        EvBackward "loss_self_train" v_self;
        EvForward false x] /\
     grad s' = grad s ++ [("loss_source", v_source); ("loss_self_train", v_self)]) /\
  count is_backward (new_events s s') = 2%nat /\
  count is_perturbation (new_events s s')
    = (if cfg.source_fourier c then 1%nat else 0%nat) /\
  count is_no_grad_forward (new_events s s') = 2%nat.
Proof.
  intros Haug Hfourier Hcutmix.
  apply zero_not_positive in Haug, Hfourier, Hcutmix.
  unfold compute_losses. rewrite bind_run.
  destruct (source_branch E c batch_s batch_t [] s) as [[[[y x_source] l1]|e] s1] eqn:Hsrc;
    [|discriminate].
  rewrite bind_run.
  destruct (self_best_branch E c batch_t y x_source s1) as [[x|e] s2] eqn:Hself;
    [|discriminate].
  rewrite bind_run.
  destruct (original_pass E c x s2) as [[o|e] s3] eqn:Horig; [|discriminate].
  rewrite bind_run, aug_branch_off by assumption.
  rewrite bind_run, fourier_branch_off by assumption.
  rewrite cutmix_branch_off by assumption.
  intros [= <- <-].
  destruct (source_branch_ok _ _ _ _ _ _ _ _ _ _ Hsrc)
    as (_ & -> & _ & p1 & p2 & _ & _ & Hext1).
  destruct (self_best_branch_ok _ _ _ _ _ _ _ _ Hself)
    as (o1 & o2 & label_1 & mask_1 & q1 & q2 & _ & _ & Hhyb & _ & Hext2).
  pose proof (original_pass_ok _ _ _ _ _ _ Horig) as Hext3.
  cbv zeta in Hext1, Hext2.
  pose proof (extends_trans _ _ _ _ _ _ _ Hext1
                (extends_trans _ _ _ _ _ _ _ Hext2 Hext3)) as Hext.
  unfold extends in Hext.
  assert (Htrace : trace s3 = trace s ++
            (if cfg.source_fourier c then [EvFourierMix] else []) ++
            [EvForward true
               (if cfg.source_fourier c
                then fourier_mix E (image batch_s) (image batch_t) (cfg.fourier_beta c)
                else image batch_s);
             EvBackward "loss_source"
               (loss E p1 y + loss E p2 y * cfg.lam_aux c);
             EvForward false (image batch_t); EvForward true x;
             EvBackward "loss_self_train"
               (loss E q1 label_1 * cfg.lam_new c +
                cfg.lam_aux c * loss E q2 label_1 * cfg.lam_new c);
             EvForward false x]).
  { rewrite Hext. destruct s; simpl. now rewrite <- !app_assoc. }
  split.
  - eexists _, _, mask_1, x, _. split; [exact Hhyb|]. split; [exact Htrace|].
    rewrite Hext. destruct s; reflexivity.
  - unfold new_events. rewrite Htrace, drop_app_length.
    destruct (cfg.source_fourier c); repeat split; reflexivity.
Qed.

Lemma zero_weights_losses_witness :
  exists losses s',
    compute_losses Toy.E (Toy.config_with true true 0 0 0)
      Toy.batch_s Toy.batch_t Toy.trainer = (Ok losses, s') /\
    count is_backward (new_events Toy.trainer s') = 2%nat /\
    count is_perturbation (new_events Toy.trainer s') = 1%nat /\
    count is_no_grad_forward (new_events Toy.trainer s') = 2%nat.
Proof.
  pose (run := compute_losses Toy.E (Toy.config_with true true 0 0 0)
                 Toy.batch_s Toy.batch_t Toy.trainer).
  assert (Hrun : run = (Ok (get_ok [] (fst run)), snd run))
    by (vm_compute; reflexivity).
  exists (get_ok [] (fst run)), (snd run). split; [exact Hrun|].
  apply (zero_weights_losses Toy.E (Toy.config_with true true 0 0 0)
           Toy.batch_s Toy.batch_t Toy.trainer (snd run) (get_ok [] (fst run)));
    [reflexivity | reflexivity | reflexivity | exact Hrun].
Defined.

(** ** Recording and logging of the loss terms *)







(** Closes [extends s (setters on s) evs gs] by computation. *)
Ltac extends_by_computation s :=
  unfold extends; destruct s; simpl;
  rewrite <- ?app_assoc, ?(@app_nil_r (string * Q)); reflexivity.

(** A consistency branch either is switched off and does nothing, or
    records the two parts of its term and propagates their sum. *)
Lemma aug_branch_cases (E : Externals) (c : cfg.t) (x : tensor Q) (o : Original)
    (losses losses' : list (string * Q)) (s s' : Trainer) :
  aug_branch E c x o losses s = (Ok losses', s') ->
  if Qgtb (cfg.lam_aug c) 0 then
    exists main aux evs,
      losses' = dict_set "aug_aux" aux (dict_set "aug_main" main losses) /\
      extends s s' evs [("loss_aug", (main + aux)%Q)]
  else losses' = losses /\ s' = s.
Proof.
  unfold aug_branch. destruct (Qgtb (cfg.lam_aug c) 0).
  - rewrite bind_run, emit_run. cbv beta iota.
    destruct (augment E x (label_1 o)) as [x_aug y_aug_1].
    rewrite bind_run.
    match goal with
    | |- (let (_, _) := ?t in _) = _ -> _ =>
        destruct t as [[y_aug_2|e] s1] eqn:Hy; [|discriminate];
        assert (Hs1 : exists evs, extends s s1 evs [])
    end.
    { revert Hy. run; intros [= _ <-]; eexists; extends_by_computation s. }
    destruct Hs1 as [evs1 Hs1]. unfold forward. run.
    intros Hloss. apply consistency_loss_ok in Hloss.
    destruct Hloss as (main & aux & -> & Hext). exists main, aux.
    eexists. split; [reflexivity|].
    unfold extends in *. rewrite Hext, Hs1. clear.
    destruct s; simpl. rewrite <- ?app_assoc, ?(@app_nil_r (string * Q)). reflexivity.
  - intros [= <- <-]. split; reflexivity.
Qed.

Lemma fourier_branch_cases (E : Externals) (c : cfg.t) (x : tensor Q) (o : Original)
    (batch_s : Batch) (losses losses' : list (string * Q)) (s s' : Trainer) :
  fourier_branch E c x o batch_s losses s = (Ok losses', s') ->
  if Qgtb (cfg.lam_fourier c) 0 then
    exists main aux evs,
      losses' = dict_set "fourier_aux" aux (dict_set "fourier_main" main losses) /\
      extends s s' evs [("loss_fourier", (main + aux)%Q)]
  else losses' = losses /\ s' = s.
Proof.
  unfold fourier_branch. destruct (Qgtb (cfg.lam_fourier c) 0).
  - run. intros Hloss. apply consistency_loss_ok in Hloss.
    destruct Hloss as (main & aux & -> & Hext). exists main, aux.
    eexists. split; [reflexivity|].
    unfold extends in *. rewrite Hext. clear.
    destruct s; simpl. rewrite <- ?app_assoc, ?(@app_nil_r (string * Q)). reflexivity.
  - intros [= <- <-]. split; reflexivity.
Qed.

Lemma cutmix_branch_cases (E : Externals) (c : cfg.t) (x : tensor Q) (o : Original)
    (batch_s : Batch) (losses losses' : list (string * Q)) (s s' : Trainer) :
  cutmix_branch E c x o batch_s losses s = (Ok losses', s') ->
  if Qgtb (cfg.lam_cutmix c) 0 then
    exists main aux evs,
      losses' = dict_set "cutmix_aux" aux (dict_set "cutmix_main" main losses) /\
      extends s s' evs [("loss_cutmix", (main + aux)%Q)]
  else losses' = losses /\ s' = s.
Proof.
  unfold cutmix_branch. destruct (Qgtb (cfg.lam_cutmix c) 0).
  - run. intros Hloss. apply consistency_loss_ok in Hloss.
    destruct Hloss as (main & aux & -> & Hext). exists main, aux.
    eexists. split; [reflexivity|].
    unfold extends in *. rewrite Hext. clear.
    destruct s; simpl. rewrite <- ?app_assoc, ?(@app_nil_r (string * Q)). reflexivity.
  - intros [= <- <-]. split; reflexivity.
Qed.

(** Gives the recorded terms and closes the goal by computation. *)
Ltac finish_recorded s terms :=
  exists terms; eexists _, _;
  split; [reflexivity|]; split; [reflexivity|];
  destruct s; simpl; rewrite <- ?app_assoc; reflexivity.

(** The loss computation of a step that completes: [losses] holds the
    main-head and auxiliary-head parts of the source term and of each
    enabled consistency term, in this order, and the gradient buffer
    received the sum of the two parts of each of these terms, with the
    self-best term after the source term. *)
Lemma compute_losses_recorded (E : Externals) (c : cfg.t)
    (batch_s batch_t : Batch) (s s' : Trainer) (losses : list (string * Q)) :
  compute_losses E c batch_s batch_t s = (Ok losses, s') ->
  exists terms v_self evs,
    map (fun t => fst (fst t)) terms = enabled_terms c /\
    losses = recorded terms /\
    extends s s' evs
      match propagated terms with
      | source :: rest => source :: ("loss_self_train", v_self) :: rest
      | [] => []
      end.
Proof.
  unfold compute_losses. rewrite bind_run.
  destruct (source_branch E c batch_s batch_t [] s) as [[[[y x_source] l1]|e] s1] eqn:Hsrc;
    [|discriminate].
  rewrite bind_run.
  destruct (self_best_branch E c batch_t y x_source s1) as [[x|e] s2] eqn:Hself;
    [|discriminate].
  rewrite bind_run.
  destruct (original_pass E c x s2) as [[o|e] s3] eqn:Horig; [|discriminate].
  rewrite bind_run.
  destruct (aug_branch E c x o l1 s3) as [[l2|e] s4] eqn:Haug; [|discriminate].
  rewrite bind_run.
  destruct (fourier_branch E c x o batch_s l2 s4) as [[l3|e] s5] eqn:Hfourier;
    [|discriminate].
  intros Hcutmix.
  destruct (source_branch_ok _ _ _ _ _ _ _ _ _ _ Hsrc)
    as (_ & _ & _ & p1 & p2 & _ & Hl1 & Hext1).
  destruct (self_best_branch_ok _ _ _ _ _ _ _ _ Hself)
    as (o1 & o2 & label_1 & mask_1 & q1 & q2 & _ & _ & _ & _ & Hext2).
  pose proof (original_pass_ok _ _ _ _ _ _ Horig) as Hext3.
  apply aug_branch_cases in Haug. apply fourier_branch_cases in Hfourier.
  apply cutmix_branch_cases in Hcutmix.
  cbv zeta in Hl1, Hext1, Hext2. unfold enabled_terms.
  set (ms := loss E p1 y) in *. set (as_ := (loss E p2 y * cfg.lam_aux c)%Q) in *.
  destruct (Qgtb (cfg.lam_aug c) 0);
    [destruct Haug as (m1 & a1 & evs1 & -> & Hext4) | destruct Haug as [-> ->]];
    (destruct (Qgtb (cfg.lam_fourier c) 0);
     [destruct Hfourier as (m2 & a2 & evs2 & -> & Hext5) | destruct Hfourier as [-> ->]]);
    (destruct (Qgtb (cfg.lam_cutmix c) 0);
     [destruct Hcutmix as (m3 & a3 & evs3 & -> & Hext6) | destruct Hcutmix as [-> ->]]);
    subst l1; unfold extends in *; subst.
  all: first
    [ finish_recorded s
        [("source", ms, as_); ("aug", m1, a1); ("fourier", m2, a2); ("cutmix", m3, a3)]
    | finish_recorded s [("source", ms, as_); ("aug", m1, a1); ("fourier", m2, a2)]
    | finish_recorded s [("source", ms, as_); ("aug", m1, a1); ("cutmix", m3, a3)]
    | finish_recorded s [("source", ms, as_); ("aug", m1, a1)]
    | finish_recorded s [("source", ms, as_); ("fourier", m2, a2); ("cutmix", m3, a3)]
    | finish_recorded s [("source", ms, as_); ("fourier", m2, a2)]
    | finish_recorded s [("source", ms, as_); ("cutmix", m3, a3)]
    | finish_recorded s [("source", ms, as_)] ].
Qed.

Lemma log_main_losses_run (losses : list (string * Q)) (step : Z) (s : Trainer) :
  log_main_losses losses step s
    = (Ok tt, set_writer (writer s ++ loss_scalars losses step) s).
Proof.
  revert s. induction losses as [|[name l] rest IH]; intros s.
  - simpl. rewrite ret_run. destruct s; simpl. now rewrite app_nil_r.
  - simpl. rewrite bind_run. unfold add_scalar. rewrite modify_run. cbv beta iota.
    rewrite IH. destruct s; simpl. now rewrite <- app_assoc.
Qed.


Lemma extends_same_logs (s s' : Trainer) evs gs :
  extends s s' evs gs -> same_logs s s'.
Proof. unfold extends. intros ->. destruct s. repeat split. Qed.







(** ** The iteration budget and the final checkpoint *)

(** With the same budget and epochs of 201 batches, the validation at
    batch 200 of the first epoch assigns [best_iter]: training halts after
    the 1001st step and [final.pth] is written once, with [iter = 1001]. *)
Lemma train_long_epochs :
  let '(r, s') := train (Toy.world 201 [Toy.batch_val]) Toy.config 10 Toy.trainer in
  r = Ok true /\ iter s' = 1001 /\
  map fst (files s') = ["best.pth"; "final.pth"] /\
  map (fun f => snd f !! "iter") (List.filter (fun f => String.eqb (fst f) "final.pth") (files s'))
    = [Some (VInt 1001)].
Proof. vm_compute. repeat split. Qed.

(** C5.  With an iteration budget of 1000 and epochs too short to reach a
    validation (here one batch per epoch), training halts after the 1001st
    step with [iter = 1001], but [train] then reads [self.best_iter], which
    was never assigned, and raises before the final checkpoint is written:
    no file is written at all. *)
Theorem train_short_epochs :
  let '(r, s') := train Toy.E Toy.config 2000 Toy.trainer in
  r = Raise AttributeError /\ iter s' = 1001 /\ epoch s' = 1001 /\
  continue_training s' = false /\ best_iter s' = None /\ files s' = [].
Proof. vm_compute. repeat split. Qed.

(** * Properties of the remaining code *)

(** ** Frames *)

Lemma frame_refl {A} (f : Trainer -> A) (P : event -> bool) (s : Trainer) :
  frame f P s s.
Proof. split; [reflexivity|]. exists []. split; [now rewrite app_nil_r | constructor]. Qed.

Lemma frame_trans {A} (f : Trainer -> A) (P : event -> bool) (s1 s2 s3 : Trainer) :
  frame f P s1 s2 -> frame f P s2 s3 -> frame f P s1 s3.
Proof.
  intros (Hf1 & evs1 & Ht1 & HP1) (Hf2 & evs2 & Ht2 & HP2).
  split; [congruence|]. exists (evs1 ++ evs2). split.
  - rewrite Ht2, Ht1. now rewrite app_assoc.
  - apply Forall_app. split; assumption.
Qed.

(** Closes [frame f P s (g s)] for a state update [g]. *)
Ltac frame_setter :=
  let s := fresh "s" in
  intros s; destruct s; unfold frame; simpl;
  split; [try reflexivity|];
  first [ exists []; split; [now rewrite app_nil_r | constructor]
        | eexists [_]; split; [reflexivity|];
          constructor; [reflexivity | constructor] ].

Ltac frame_steps_for f P :=
  frame_steps (frame_refl f P) (frame_trans f P) frame_setter.

(** X1.  The loss computation of a step, whether it returns or raises,
    leaves the counters, the best score, the stop flag, the parameters and
    the mode of the model, the EMA, the optimizer, the evaluator, the
    tensorboard, the log and the files as they were, and the only calls are
    forward passes, perturbations and backward passes.  Nothing is said of
    the running statistics of the model, which the forward passes in train
    mode update. *)
Theorem compute_losses_frame (E : Externals) (c : cfg.t) (batch_s batch_t : Batch) :
  preserves (frame loss_untouched is_loss_event) (compute_losses E c batch_s batch_t).
Proof.
  unfold compute_losses, source_branch, self_best_branch, original_pass,
    aug_branch, fourier_branch, cutmix_branch, consistency_loss,
    forward, backward, self_loss, emit, del.
  frame_steps_for loss_untouched is_loss_event.
Qed.

(** ** One training step *)

Lemma validate_loop_keeps (E : Externals) (c : cfg.t) (mode : Mode)
    (val_loader : list Batch) :
  forall val_idx last,
    preserves (frame validation_untouched is_validation_event)
      (validate_loop E c mode val_idx val_loader last).
Proof.
  induction val_loader as [|b rest IH]; intros val_idx last; simpl.
  - frame_steps_for validation_untouched is_validation_event.
  - unfold emit. frame_steps_for validation_untouched is_validation_event. apply IH.
Qed.

(** The validation block leaves the counters, the stop flag, the optimizer,
    the gradient buffer, the buffers of the model and the shadow alone. *)
Lemma validation_block_keeps (E : Externals) (c : cfg.t) :
  preserves (frame validation_untouched is_validation_event) (validation_block E c).
Proof.
  unfold validation_block, validate, save_checkpoint, unpack_metric, as_number,
    emit, log_info, add_scalar, del.
  frame_steps_for validation_untouched is_validation_event;
    try apply validate_loop_keeps.
Qed.

Lemma compute_losses_events (E : Externals) (c : cfg.t) (batch_s batch_t : Batch) :
  preserves (frame iter is_loss_event) (compute_losses E c batch_s batch_t).
Proof.
  unfold compute_losses, source_branch, self_best_branch, original_pass,
    aug_branch, fourier_branch, cutmix_branch, consistency_loss,
    forward, backward, self_loss, emit, del.
  frame_steps_for iter is_loss_event.
Qed.

Lemma begin_step_run (E : Externals) (c : cfg.t) (s s1 : Trainer) (u : unit) :
  begin_step E c s = (Ok u, s1) ->
  exists groups,
    poly_lr_scheduler E c (iter s) (param_groups (optimizer s)) None None None None
      = Ok groups /\
    optimizer s1 = {| param_groups := groups; state := state (optimizer s) |} /\
    model s1 = set_training true (model s) /\
    grad s1 = grad s /\ trace s1 = trace s /\ iter s1 = iter s /\
    epoch s1 = epoch s /\ continue_training s1 = continue_training s.
Proof.
  unfold begin_step, schedule. run.
  intros [= _ <-]. destruct s; simpl in *. eexists. split; [eassumption|]. repeat split.
Qed.

Lemma optimizer_update_state (E : Externals) (s : Trainer) :
  exists s1, optimizer_update E s = (Ok tt, s1) /\
    optimizer s1 = fst (optimizer_step E (optimizer s) (grad s) (model s)) /\
    grad s1 = [] /\
    trace s1 = trace s ++ [EvOptimizerStep; EvZeroGrad; EvUpdateParams] /\
    iter s1 = iter s /\ epoch s1 = epoch s /\
    continue_training s1 = continue_training s.
Proof.
  unfold optimizer_update. run. eexists. split; [reflexivity|].
  destruct s; simpl. destruct (optimizer_step E _ _ _). simpl.
  rewrite <- !app_assoc. repeat split.
Qed.

Lemma log_losses_state (batch_idx : nat) (losses : list (string * Q)) (s : Trainer) :
  exists s1, log_losses batch_idx losses s = (Ok tt, s1) /\
    optimizer s1 = optimizer s /\ grad s1 = grad s /\ trace s1 = trace s /\
    iter s1 = iter s /\ epoch s1 = epoch s /\
    continue_training s1 = continue_training s.
Proof.
  unfold log_losses. cbv zeta. rewrite bind_run, gets_run. cbv beta iota.
  rewrite bind_run, log_main_losses_run. cbv beta iota.
  rewrite bind_run, gets_run. cbv beta iota.
  destruct (batch_idx mod 100 =? 0)%nat.
  - unfold log_info. rewrite modify_run. eexists. split; [reflexivity|].
    destruct s; simpl. repeat split.
  - rewrite ret_run. eexists. split; [reflexivity|].
    destruct s; simpl. repeat split.
Qed.

Lemma end_of_step_ok (E : Externals) (c : cfg.t) (batch_idx : nat)
    (s s' : Trainer) (r : bool) :
  end_of_step E c batch_idx s = (Ok r, s') ->
  iter s' = iter s + 1 /\ r = (cfg.opt_iterations c <? iter s + 1) /\
  continue_training s' = (if r then false else continue_training s) /\
  epoch s' = epoch s /\ optimizer s' = optimizer s /\ grad s' = grad s /\
  exists evs, trace s' = trace s ++ evs /\
    Forall (fun e => is_end_event e = true) evs.
Proof.
  unfold end_of_step. rewrite bind_run, gets_run. cbv beta iota.
  rewrite bind_run, modify_run. cbv beta iota.
  destruct (cfg.opt_iterations c <? iter s + 1).
  - rewrite bind_run, modify_run. cbv beta iota. rewrite ret_run.
    intros [= <- <-]. destruct s; simpl. repeat split.
    exists []. split; [now rewrite app_nil_r | constructor].
  - rewrite bind_run, emit_run. cbv beta iota.
    rewrite bind_run, modify_run. cbv beta iota. rewrite bind_run.
    destruct ((0 <? batch_idx)%nat && (batch_idx mod 200 =? 0)%nat).
    + match goal with
      | |- (let (_, _) := validation_block E c ?st in _) = _ -> _ =>
          destruct (validation_block E c st) as [[u|e] s2] eqn:Hv; [|discriminate];
          destruct (validation_block_keeps E c _ _ _ Hv) as (Hf & evs & Ht & Hevs)
      end.
      rewrite ret_run. intros [= <- <-].
      unfold validation_untouched in Hf. destruct s; simpl in *.
      injection Hf as -> -> -> -> -> _ _ _ _. repeat split.
      rewrite Ht. exists (EvUpdateBuffer :: evs). split; [now rewrite <- app_assoc|].
      constructor; [reflexivity|].
      eapply Forall_impl; [exact Hevs|]. intros e He. destruct e; try discriminate He; try reflexivity.
      exact He.
    + rewrite ret_run. cbv beta iota. rewrite ret_run.
      intros [= <- <-]. destruct s; simpl. repeat split.
      exists [EvUpdateBuffer]. split; [reflexivity|]. repeat constructor.
Qed.

(** A step that completes advances the iteration counter by one, and
    executes [return] exactly when the new counter exceeds the budget. *)
Lemma train_step_counters (E : Externals) (c : cfg.t) (batch_idx : nat)
    (batch_s batch_t : Batch) (s s' : Trainer) (r : bool) :
  train_step E c batch_idx batch_s batch_t s = (Ok r, s') ->
  iter s' = iter s + 1 /\ r = (cfg.opt_iterations c <? iter s + 1) /\
  continue_training s' = (if r then false else continue_training s) /\
  epoch s' = epoch s.
Proof.
  unfold train_step. rewrite bind_run.
  destruct (begin_step E c s) as [[u|e] s1] eqn:Hbegin; [|discriminate].
  rewrite bind_run.
  destruct (compute_losses E c batch_s batch_t s1) as [[losses|e] s2] eqn:Hlosses;
    [|discriminate].
  rewrite bind_run.
  destruct (optimizer_update_state E s2) as (s3 & -> & _ & _ & _ & Hi3 & He3 & Hc3).
  rewrite bind_run.
  destruct (log_losses_state batch_idx losses s3) as (s4 & -> & _ & _ & _ & Hi4 & He4 & Hc4).
  intros Hend.
  destruct (end_of_step_ok _ _ _ _ _ _ Hend) as (Hi5 & Hr & Hc5 & He5 & _).
  destruct (begin_step_run _ _ _ _ _ Hbegin)
    as (groups & _ & _ & _ & _ & _ & Hi1 & He1 & Hc1).
  destruct (compute_losses_recorded _ _ _ _ _ _ _ Hlosses)
    as (terms & v_self & evs & _ & _ & Hext).
  destruct (extends_same_logs _ _ _ _ Hext) as (_ & _ & Hi2 & He2).
  assert (Hc2 : continue_training s2 = continue_training s1).
  { unfold extends in Hext. rewrite Hext. now destruct s1. }
  rewrite Hi5, Hc5, He5, Hr, Hi4, Hi3, Hi2, Hi1, Hc4, Hc3, Hc2, Hc1, He4, He3, He2, He1.
  repeat split.
Qed.

(** ** The self-best policy inside a step *)

Lemma extends_trace_model (s s' : Trainer) evs gs :
  extends s s' evs gs -> trace s' = trace s ++ evs /\ model s' = model s.
Proof. unfold extends. intros ->. now destruct s. Qed.

(** The self-best pass inside a loss computation that completes. *)
Lemma compute_losses_self_best (E : Externals) (c : cfg.t)
    (batch_s batch_t : Batch) (s s' : Trainer) (losses : list (string * Q)) :
  compute_losses E c batch_s batch_t s = (Ok losses, s') ->
  exists y o1 o2 label_1 mask_1 x p1 p2 evs1 evs2,
    squeeze1 (label batch_s) = Ok y /\
    destructure2 (forward_model E (model s) (cfg.num_target c) (image batch_t))
      = Ok (o1, o2) /\
    self_best_pseudo (softmax E) (float32 E) (cfg.pseudobest_threshold c) o1 y
      = Ok (label_1, mask_1) /\
    hybrid_image mask_1 (image batch_t) (image batch_s) = Ok x /\
    forward_model E (model s) (cfg.num_target c) x = PTuple p1 p2 /\
    trace s' = trace s ++ evs1 ++
      [EvForward false (image batch_t); EvForward true x;
       EvBackward "loss_self_train" (self_train_loss E c p1 p2 label_1)] ++ evs2.
Proof.
  unfold compute_losses. rewrite bind_run.
  destruct (source_branch E c batch_s batch_t [] s) as [[[[y x_source] l1]|e] s1] eqn:Hsrc;
    [|discriminate].
  rewrite bind_run.
  destruct (self_best_branch E c batch_t y x_source s1) as [[x|e] s2] eqn:Hself;
    [|discriminate].
  rewrite bind_run.
  destruct (original_pass E c x s2) as [[o|e] s3] eqn:Horig; [|discriminate].
  rewrite bind_run.
  destruct (aug_branch E c x o l1 s3) as [[l2|e] s4] eqn:Haug; [|discriminate].
  rewrite bind_run.
  destruct (fourier_branch E c x o batch_s l2 s4) as [[l3|e] s5] eqn:Hfourier;
    [|discriminate].
  intros Hcutmix.
  destruct (source_branch_ok _ _ _ _ _ _ _ _ _ _ Hsrc)
    as (_ & Hxs & Hy & ? & ? & _ & _ & Hext1).
  subst x_source.
  destruct (self_best_branch_ok _ _ _ _ _ _ _ _ Hself)
    as (o1 & o2 & label_1 & mask_1 & p1 & p2 & Hd & Hp & Hh & Hf & Hext2).
  pose proof (original_pass_ok _ _ _ _ _ _ Horig) as Hext3.
  cbv zeta in Hext1, Hext2.
  apply extends_trace_model in Hext1, Hext2, Hext3.
  destruct Hext1 as [Ht1 Hm1], Hext2 as [Ht2 Hm2], Hext3 as [Ht3 Hm3].
  assert (H4 : exists evs, trace s4 = trace s3 ++ evs).
  { apply aug_branch_cases in Haug. destruct (Qgtb (cfg.lam_aug c) 0).
    - destruct Haug as (? & ? & evs & _ & Hext).
      apply extends_trace_model in Hext. exists evs. apply Hext.
    - destruct Haug as [_ ->]. exists []. now rewrite app_nil_r. }
  assert (H5 : exists evs, trace s5 = trace s4 ++ evs).
  { apply fourier_branch_cases in Hfourier. destruct (Qgtb (cfg.lam_fourier c) 0).
    - destruct Hfourier as (? & ? & evs & _ & Hext).
      apply extends_trace_model in Hext. exists evs. apply Hext.
    - destruct Hfourier as [_ ->]. exists []. now rewrite app_nil_r. }
  assert (H6 : exists evs, trace s' = trace s5 ++ evs).
  { apply cutmix_branch_cases in Hcutmix. destruct (Qgtb (cfg.lam_cutmix c) 0).
    - destruct Hcutmix as (? & ? & evs & _ & Hext).
      apply extends_trace_model in Hext. exists evs. apply Hext.
    - destruct Hcutmix as [_ ->]. exists []. now rewrite app_nil_r. }
  destruct H4 as [evs4 H4], H5 as [evs5 H5], H6 as [evs6 H6].
  rewrite Hm1 in Hd, Hf.
  match type of Ht1 with _ = _ ++ ?e => remember e as evs1 eqn:Hevs1 end.
  exists y, o1, o2, label_1, mask_1, x, p1, p2, evs1,
    ([EvForward false x] ++ evs4 ++ evs5 ++ evs6).
  split; [exact Hy|]. split; [exact Hd|]. split; [exact Hp|].
  split; [exact Hh|]. split; [exact Hf|].
  rewrite H6, H5, H4, Ht3, Ht2, Ht1. unfold self_train_loss.
  rewrite <- !app_assoc. reflexivity.
Qed.

(** C3 (amended).  In every training step that completes, the self-best
    pass runs on the main prediction of the model, in train mode, for the
    target image, with the threshold [cfg.pseudobest_threshold] and the
    squeezed labels of the source batch; its label and its mask build the
    hybrid image and the self-training loss that the step propagates.  At
    every pixel the first class of maximal softmax probability decides: the
    mask is true exactly when this probability exceeds the threshold
    converted to single precision, the hard label is this class where the
    mask is true and the ground-truth label of the source batch at the same
    position where it is false, never an ignore value.  With a threshold
    that converts to 0.5, a pixel with confidence 0.9 for class 7 gets the
    label 7 and a true mask, and a pixel whose probabilities are all at
    most 0.3 gets the source label and a false mask. *)
Theorem self_best_policy (E : Externals) (c : cfg.t) (batch_idx : nat)
    (batch_s batch_t : Batch) (s s' : Trainer) (r : bool) :
  train_step E c batch_idx batch_s batch_t s = (Ok r, s') ->
  let T := to_float32 (float32 E) (cfg.pseudobest_threshold c) in
  exists y o1 o2 label_1 mask_1 x p1 p2,
    squeeze1 (label batch_s) = Ok y /\
    destructure2 (forward_model E (set_training true (model s)) (cfg.num_target c)
                    (image batch_t)) = Ok (o1, o2) /\
    self_best_pseudo (softmax E) (float32 E) (cfg.pseudobest_threshold c) o1 y
      = Ok (label_1, mask_1) /\
    hybrid_image mask_1 (image batch_t) (image batch_s) = Ok x /\
    forward_model E (set_training true (model s)) (cfg.num_target c) x = PTuple p1 p2 /\
    In (EvBackward "loss_self_train" (self_train_loss E c p1 p2 label_1))
       (new_events s s') /\
    forall B K H W,
      shape (softmax E o1) = [B; S K; H; W] -> shape y = [B; H; W] ->
      shape label_1 = [B; H; W] /\ shape mask_1 = [B; H; W] /\
      forall b h w, (b < B)%nat -> (h < H)%nat -> (w < W)%nat ->
        let P := class_prob (softmax E o1) b h w in
        (exists k, (k <= K)%nat /\
           (forall j, (j <= K)%nat -> (P j <= P k)%Q) /\
           (forall j, (j < k)%nat -> (P j < P k)%Q) /\
           (elt mask_1 [b; h; w] = true <-> (T < P k)%Q) /\
           elt label_1 [b; h; w] =
             if elt mask_1 [b; h; w] then Z.of_nat k else elt y [b; h; w]) /\
        ((T == 1 # 2)%Q -> (7 <= K)%nat -> (P 7%nat == 9 # 10)%Q ->
         (forall j, (j <= K)%nat -> j <> 7%nat -> (P j < 9 # 10)%Q) ->
         elt label_1 [b; h; w] = 7 /\ elt mask_1 [b; h; w] = true) /\
        ((T == 1 # 2)%Q -> (forall j, (j <= K)%nat -> (P j <= 3 # 10)%Q) ->
         elt label_1 [b; h; w] = elt y [b; h; w] /\ elt mask_1 [b; h; w] = false).
Proof.
  unfold train_step. rewrite bind_run.
  destruct (begin_step E c s) as [[u|e] s1] eqn:Hbegin; [|discriminate].
  rewrite bind_run.
  destruct (compute_losses E c batch_s batch_t s1) as [[losses|e] s2] eqn:Hlosses;
    [|discriminate].
  rewrite bind_run.
  destruct (optimizer_update_state E s2) as (s3 & -> & _ & _ & Ht3 & _).
  rewrite bind_run.
  destruct (log_losses_state batch_idx losses s3) as (s4 & -> & _ & _ & Ht4 & _).
  intros Hend. cbv zeta.
  set (T := to_float32 (float32 E) (cfg.pseudobest_threshold c)).
  destruct (end_of_step_ok _ _ _ _ _ _ Hend)
    as (_ & _ & _ & _ & _ & _ & evs_end & Ht5 & _).
  destruct (begin_step_run _ _ _ _ _ Hbegin)
    as (groups & _ & _ & Hm1 & _ & Ht1 & _).
  destruct (compute_losses_self_best _ _ _ _ _ _ _ Hlosses)
    as (y & o1 & o2 & label_1 & mask_1 & x & p1 & p2 & evs1 & evs2 &
        Hy & Hd & Hp & Hh & Hf & Ht2).
  rewrite Hm1 in Hd, Hf.
  exists y, o1, o2, label_1, mask_1, x, p1, p2.
  do 5 (split; [assumption|]). split.
  { unfold new_events. rewrite Ht5, Ht4, Ht3, Ht2, Ht1.
    rewrite <- !app_assoc. rewrite drop_app_length.
    apply in_or_app. right. simpl. right. right. left. reflexivity. }
  intros B K H W Hs Hys.
  destruct (self_best_pseudo_spec (softmax E) (float32 E) (cfg.pseudobest_threshold c)
              o1 y B K H W Hs Hys) as (l & m & Hp' & Hls & Hms & Hpix).
  rewrite Hp in Hp'. injection Hp' as <- <-.
  split; [exact Hls|]. split; [exact Hms|].
  intros b h w Hb Hh' Hw.
  set (P := class_prob (softmax E o1) b h w).
  destruct (Hpix b h w Hb Hh' Hw) as (k & Hk & Hmax & Hfirst & Hmask & Hlabel).
  fold P in Hmax, Hfirst, Hmask. fold T in Hmask.
  assert (Hiff : elt mask_1 [b; h; w] = true <-> (T < P k)%Q).
  { rewrite Hmask. unfold Qgtb. rewrite negb_true_iff.
    rewrite <- not_true_iff_false, Qle_bool_iff. split.
    - apply Qnot_le_lt.
    - intros Hlt Hle. exact (Qlt_not_le _ _ Hlt Hle). }
  split; [|split].
  - exists k. do 3 (split; [assumption|]). split; assumption.
  - intros HT HK H7 Hothers.
    assert (k = 7%nat) as ->.
    { destruct (Nat.eq_dec k 7%nat) as [|Hne]; [assumption|]. exfalso.
      pose proof (Hmax 7%nat HK) as Hle. pose proof (Hothers k Hk Hne) as Hlt.
      rewrite H7 in Hle. exact (Qlt_not_le _ _ Hlt Hle). }
    assert (Hm : elt mask_1 [b; h; w] = true).
    { apply Hiff. rewrite HT, H7. reflexivity. }
    rewrite Hlabel, Hm. split; reflexivity.
  - intros HT Hlow.
    assert (Hm : elt mask_1 [b; h; w] = false).
    { apply not_true_iff_false. rewrite Hiff. intros Hlt.
      pose proof (Hlow k Hk) as Hle. rewrite HT in Hlt.
      apply (Qlt_not_le _ _ Hlt). eapply Qle_trans; [exact Hle|]. discriminate. }
    rewrite Hlabel, Hm. split; reflexivity.
Qed.

(** C3, as stated, fails for a threshold that single precision does not
    represent: with the threshold 0.6 and a pixel whose confidence is 0.6
    rounded to single precision, a value above 0.6, the step completes and
    the mask of the pixel is false. *)
Lemma self_best_threshold_counterexample :
  ~ self_best_mask_as_stated rounding_world rounding_config 0
      channel_batch_s rounding_batch_t Toy.trainer.
Proof.
  intros Hclaim.
  pose (run := train_step rounding_world rounding_config 0
                 channel_batch_s rounding_batch_t Toy.trainer).
  assert (Hrun : run = (Ok false, snd run)) by (vm_compute; reflexivity).
  eassert (Hy : squeeze1 (label channel_batch_s) = Ok _) by reflexivity.
  eassert (Hd : destructure2
                  (forward_model rounding_world (set_training true (model Toy.trainer))
                     (cfg.num_target rounding_config) (image rounding_batch_t))
                = Ok (_, _)) by reflexivity.
  match type of Hy with
  | _ = Ok ?y =>
      match type of Hd with
      | _ = Ok (?o1, _) =>
          eassert (Hp : self_best_pseudo (softmax rounding_world) (float32 rounding_world)
                          (cfg.pseudobest_threshold rounding_config) o1 y = Ok (_, _))
            by reflexivity
      end
  end.
  pose proof (Hclaim _ _ _ _ _ _ _ Hrun Hy Hd Hp 1%nat 2%nat 1%nat 1%nat eq_refl
                0%nat 0%nat 0%nat 0%nat) as H.
  destruct H as [_ H]; try lia.
  { intros j Hj. destruct j as [|[|[|j]]]; try lia; vm_compute; discriminate. }
  assert (Hm := H eq_refl). vm_compute in Hm. discriminate Hm.
Qed.

Lemma self_best_policy_witness :
  exists (s' : Trainer) (label_1 : tensor Z) (mask_1 : tensor bool),
    train_step Toy.E Toy.config 0 channel_batch_s channel_batch_t Toy.trainer
      = (Ok false, s') /\
    shape label_1 = [1; 1; 1]%nat /\ shape mask_1 = [1; 1; 1]%nat /\
    elt mask_1 [0; 0; 0]%nat = true.
Proof.
  pose (run := train_step Toy.E Toy.config 0 channel_batch_s channel_batch_t Toy.trainer).
  assert (Hrun : run = (Ok false, snd run)) by (vm_compute; reflexivity).
  destruct (self_best_policy _ _ _ _ _ _ _ _ Hrun)
    as (y & o1 & o2 & label_1 & mask_1 & x & p1 & p2 & Hy & Hd & Hp & _ & _ & _ & Hpix).
  injection Hy as <-. injection Hd as <- <-.
  destruct (Hpix 1%nat 2%nat 1%nat 1%nat eq_refl eq_refl) as (Hl & Hm & Hpt).
  destruct (Hpt 0%nat 0%nat 0%nat ltac:(lia) ltac:(lia) ltac:(lia))
    as ((k & Hk & Hmax & _ & Hiff & _) & _ & _).
  exists (snd run), label_1, mask_1.
  split; [exact Hrun|]. split; [exact Hl|]. split; [exact Hm|].
  apply Hiff. eapply Qlt_le_trans; [|apply (Hmax 0%nat); lia]. reflexivity.
Defined.

Lemma propagated_names_spec (c : cfg.t) (terms : list (string * Q * Q)) (v_self : Q) :
  map (fun t => fst (fst t)) terms = enabled_terms c ->
  map fst match propagated terms with
          | source :: rest => source :: ("loss_self_train", v_self) :: rest
          | [] => []
          end = propagated_names c.
Proof.
  unfold propagated_names, enabled_terms.
  destruct terms as [|[[n m] a] rest]; [discriminate|].
  simpl. intros [= -> <-]. do 2 f_equal.
  unfold propagated. rewrite !map_map. apply map_ext. now intros [[n m'] a'].
Qed.

(** X2.  A step that completes steps the optimizer exactly once: with the
    learning rates of the scheduler, on the gradient buffer that holds,
    after what it held before the step, the source term, the self-best term
    and the enabled consistency terms in this order.  All forward, backward
    and perturbation calls of the step come before the optimizer step, the
    gradient buffer is cleared right after it, and what follows (the EMA
    buffers, a validation) leaves the optimizer and the cleared buffer
    alone. *)
Theorem train_step_update (E : Externals) (c : cfg.t) (batch_idx : nat)
    (batch_s batch_t : Batch) (s s' : Trainer) (r : bool) :
  train_step E c batch_idx batch_s batch_t s = (Ok r, s') ->
  exists groups gs evs_loss evs_end,
    poly_lr_scheduler E c (iter s) (param_groups (optimizer s)) None None None None
      = Ok groups /\
    map fst gs = propagated_names c /\
    optimizer s' =
      fst (optimizer_step E {| param_groups := groups; state := state (optimizer s) |}
             (grad s ++ gs) (set_training true (model s))) /\
    grad s' = [] /\
    new_events s s'
      = evs_loss ++ [EvOptimizerStep; EvZeroGrad; EvUpdateParams] ++ evs_end /\
    Forall (fun e => is_loss_event e = true) evs_loss /\
    Forall (fun e => is_end_event e = true) evs_end.
Proof.
  unfold train_step. rewrite bind_run.
  destruct (begin_step E c s) as [[u|e] s1] eqn:Hbegin; [|discriminate].
  rewrite bind_run.
  destruct (compute_losses E c batch_s batch_t s1) as [[losses|e] s2] eqn:Hlosses;
    [|discriminate].
  rewrite bind_run.
  destruct (optimizer_update_state E s2) as (s3 & -> & Ho3 & Hg3 & Ht3 & _).
  rewrite bind_run.
  destruct (log_losses_state batch_idx losses s3) as (s4 & -> & Ho4 & Hg4 & Ht4 & _).
  intros Hend.
  destruct (end_of_step_ok _ _ _ _ _ _ Hend)
    as (_ & _ & _ & _ & Ho5 & Hg5 & evs_end & Ht5 & Hend_evs).
  destruct (begin_step_run _ _ _ _ _ Hbegin)
    as (groups & Hgroups & Ho1 & Hm1 & Hg1 & Ht1 & _).
  destruct (compute_losses_recorded _ _ _ _ _ _ _ Hlosses)
    as (terms & v_self & evs & Hnames & _ & Hext).
  destruct (compute_losses_events _ _ _ _ _ _ _ Hlosses) as (_ & evs' & Ht2 & Hloss_evs).
  assert (Hs2 : optimizer s2 = optimizer s1 /\ model s2 = model s1 /\
                grad s2 = grad s1 ++ match propagated terms with
                                     | source :: rest =>
                                         source :: ("loss_self_train", v_self) :: rest
                                     | [] => []
                                     end).
  { unfold extends in Hext. rewrite Hext. now destruct s1. }
  destruct Hs2 as (Ho2 & Hm2 & Hg2).
  eexists groups, _, evs', evs_end.
  split; [exact Hgroups|]. split; [exact (propagated_names_spec c terms v_self Hnames)|].
  split; [|split; [|split; [|split]]].
  - rewrite Ho5, Ho4, Ho3, Ho2, Hm2, Hg2, Ho1, Hm1, Hg1. reflexivity.
  - now rewrite Hg5, Hg4.
  - unfold new_events. rewrite Ht5, Ht4, Ht3, Ht2, Ht1.
    rewrite <- !app_assoc. now rewrite drop_app_length.
  - exact Hloss_evs.
  - exact Hend_evs.
Qed.

Lemma train_step_update_witness :
  exists s' (gs : list (string * Q)) evs_loss evs_end,
    train_step Toy.E (Toy.config_with false true 1 0 0) 0 Toy.batch_s Toy.batch_t
      Toy.trainer = (Ok false, s') /\
    map fst gs = ["loss_source"; "loss_self_train"; "loss_aug"] /\
    grad s' = [] /\
    new_events Toy.trainer s'
      = evs_loss ++ [EvOptimizerStep; EvZeroGrad; EvUpdateParams] ++ evs_end.
Proof.
  pose (run := train_step Toy.E (Toy.config_with false true 1 0 0) 0
                 Toy.batch_s Toy.batch_t Toy.trainer).
  assert (Hrun : run = (Ok false, snd run)) by (vm_compute; reflexivity).
  destruct (train_step_update Toy.E (Toy.config_with false true 1 0 0) 0
              Toy.batch_s Toy.batch_t Toy.trainer (snd run) false Hrun)
    as (groups & gs & evs_loss & evs_end & _ & Hnames & _ & Hgrad & Hevs & _).
  exists (snd run), gs, evs_loss, evs_end.
  split; [exact Hrun|]. split; [exact Hnames|]. split; [exact Hgrad | exact Hevs].
Defined.

(** ** The iteration budget in general *)

Lemma epoch_loop_counters (E : Externals) (c : cfg.t) (batches : list (Batch * Batch)) :
  forall (batch_idx : nat) (s s' : Trainer) (r : bool),
    epoch_loop E c batch_idx batches s = (Ok r, s') ->
    epoch s' = epoch s /\
    if r then iter s' = Z.max (iter s) (cfg.opt_iterations c) + 1 /\
              continue_training s' = false
    else iter s' = iter s + Z.of_nat (length batches) /\
         (batches = [] \/ iter s' <= cfg.opt_iterations c) /\
         continue_training s' = continue_training s.
Proof.
  induction batches as [|[batch_s batch_t] rest IH]; intros batch_idx s s' r; simpl.
  - rewrite ret_run. intros [= <- <-]. repeat split; [lia | now left].
  - rewrite bind_run.
    destruct (train_step E c batch_idx batch_s batch_t s) as [[returned|e] s1] eqn:Hstep;
      [|discriminate].
    destruct (train_step_counters _ _ _ _ _ _ _ _ Hstep) as (Hi & Hr & Hc & He).
    destruct returned.
    + rewrite ret_run. intros [= <- <-]. split; [exact He|]. split; [|exact Hc].
      symmetry in Hr. apply Z.ltb_lt in Hr. lia.
    + intros Hrest. destruct (IH _ _ _ _ Hrest) as (He' & Hcases).
      symmetry in Hr. apply Z.ltb_ge in Hr.
      split; [congruence|]. destruct r.
      * destruct Hcases as [Hi' Hc']. split; [lia | exact Hc'].
      * destruct Hcases as (Hi' & Hle & Hc'). split; [lia|]. split; [|congruence].
        right. destruct Hle as [-> | Hle]; [simpl in Hi'; lia | exact Hle].
Qed.

Lemma train_while_stopped (E : Externals) (c : cfg.t) (fuel : nat) (s : Trainer) :
  continue_training s = false -> train_while E c fuel s = (Ok true, s).
Proof.
  intros Hc. destruct fuel; simpl; rewrite bind_run, gets_run; cbv beta iota;
    rewrite Hc; reflexivity.
Qed.

Lemma train_while_halts (E : Externals) (c : cfg.t) (fuel : nat) :
  forall s s', continue_training s = true ->
    train_while E c fuel s = (Ok true, s') ->
    iter s' = Z.max (iter s) (cfg.opt_iterations c) + 1 /\
    continue_training s' = false.
Proof.
  induction fuel as [|fuel IH]; intros s s' Hc; simpl;
    rewrite bind_run, gets_run; cbv beta iota; rewrite Hc.
  - discriminate.
  - unfold train_one_epoch. rewrite !bind_run, gets_run. cbv beta iota.
    rewrite bind_run.
    match goal with
    | |- context [epoch_loop E c 0 ?b s] =>
        destruct (epoch_loop E c 0 b s) as [[r|e] s1] eqn:Hloop; [|discriminate]
    end.
    rewrite ret_run, bind_run, modify_run. cbv beta iota.
    destruct (epoch_loop_counters _ _ _ _ _ _ _ Hloop) as (_ & Hcases).
    destruct r.
    + destruct Hcases as [Hi Hc1].
      rewrite train_while_stopped by (now destruct s1).
      intros [= <-]. destruct s1; simpl in *. split; assumption.
    + destruct Hcases as (Hi & Hle & Hc1). intros Hrest.
      apply IH in Hrest; [|destruct s1; simpl in *; congruence].
      destruct Hrest as [Hi' Hc']. split; [|exact Hc'].
      rewrite Hi'. replace (iter (set_epoch (epoch s1 + 1) s1)) with (iter s1)
        by now destruct s1.
      destruct Hle as [Hnil | Hle]; [rewrite Hnil in Hi; simpl in Hi; lia | lia].
Qed.

(** X3.  When [train] returns, the iteration counter is one above the
    budget (one above its starting value when that was already at or over
    the budget), the stop flag is cleared, a validation had assigned
    [best_iter], and the last file written is [final.pth]: it holds the
    final counter, the epoch plus one and [best_MIou]. *)
Theorem train_returns (E : Externals) (c : cfg.t) (fuel : nat) (s s' : Trainer) :
  train E c fuel s = (Ok true, s') ->
  iter s' = Z.max (iter s) (cfg.opt_iterations c) + 1 /\
  continue_training s' = false /\
  is_Some (best_iter s') /\
  exists before payload,
    files s' = before ++ [("final.pth", payload)] /\
    payload !! "iter" = Some (VInt (iter s')) /\
    payload !! "epoch" = Some (VInt (epoch s' + 1)) /\
    payload !! "best_MIou" = Some (VFloat (best_MIou s')) /\
    payload !! "state_dict" = Some (state_dict (model s')).
Proof.
  unfold train. rewrite bind_run, modify_run. cbv beta iota. rewrite bind_run.
  destruct (train_while E c fuel _) as [[[|]|e] s1] eqn:Hloop; [|discriminate..].
  apply train_while_halts in Hloop; [|now destruct s].
  destruct Hloop as [Hi Hc].
  replace (iter (set_continue_training true s)) with (iter s) in Hi by now destruct s.
  rewrite bind_run, gets_run. cbv beta iota.
  destruct (best_iter s1) as [bi|] eqn:Hbi; [|discriminate].
  unfold save_checkpoint, log_info. run.
  intros [= <-]. destruct s1; simpl in *. subst.
  split; [reflexivity|]. split; [reflexivity|]. split; [eauto|].
  eexists _, _. split; [reflexivity|]. repeat split; by simplify_map_eq.
Qed.

Lemma train_returns_witness :
  exists s',
    train Toy.E Toy.config 1 (set_iter 1000 (set_best_iter (Some 400) Toy.trainer))
      = (Ok true, s') /\
    iter s' = 1001 /\ map fst (files s') = ["final.pth"].
Proof.
  pose (run := train Toy.E Toy.config 1
                 (set_iter 1000 (set_best_iter (Some 400) Toy.trainer))).
  assert (Hrun : run = (Ok true, snd run)) by (vm_compute; reflexivity).
  destruct (train_returns _ _ _ _ _ Hrun) as (Hi & _ & _ & _).
  exists (snd run). split; [exact Hrun|]. split; [exact Hi | reflexivity].
Defined.

(** ** Training without a validation *)

Lemma no_validation_below_200 (batch_idx : nat) :
  (batch_idx < 200)%nat ->
  (0 <? batch_idx)%nat && (batch_idx mod 200 =? 0)%nat = false.
Proof.
  intros Hlt. destruct batch_idx as [|n]; [reflexivity|].
  rewrite Nat.mod_small by exact Hlt. reflexivity.
Qed.

Lemma log_main_losses_quiet (losses : list (string * Q)) (step : Z) :
  preserves (frame best_and_files not_validation) (log_main_losses losses step).
Proof.
  intros s r s'. rewrite log_main_losses_run. intros [= _ <-].
  destruct s. split; [reflexivity|]. exists []. split; [simpl; now rewrite app_nil_r | constructor].
Qed.

Lemma optimizer_update_quiet (E : Externals) :
  preserves (frame best_and_files not_validation) (optimizer_update E).
Proof.
  intros s r s'. unfold optimizer_update. run. intros [= _ <-].
  destruct s; simpl. destruct (optimizer_step E _ _ _). split; [reflexivity|].
  eexists [_; _; _]. simpl. split; [now rewrite <- !app_assoc|]. repeat constructor.
Qed.

(** A step at a batch index that is not a positive multiple of 200 runs no
    validation: whether it returns or raises, it assigns neither
    [best_iter] nor [best_MIou] and writes no file. *)
Lemma train_step_quiet (E : Externals) (c : cfg.t) (batch_idx : nat)
    (batch_s batch_t : Batch) :
  (0 <? batch_idx)%nat && (batch_idx mod 200 =? 0)%nat = false ->
  preserves (frame best_and_files not_validation)
    (train_step E c batch_idx batch_s batch_t).
Proof.
  intros Hidx.
  unfold train_step, begin_step, schedule, compute_losses, source_branch,
    self_best_branch, original_pass, aug_branch, fourier_branch, cutmix_branch,
    consistency_loss, log_losses, end_of_step, forward, backward, self_loss.
  rewrite Hidx. unfold emit, del, add_scalar, log_info.
  frame_steps_for best_and_files not_validation.
  all: first
    [ apply log_main_losses_quiet
    | intros s r s' [= _ <-]; destruct s; simpl;
      destruct (optimizer_step E _ _ _); split; [reflexivity|];
      exists []; split; [simpl; now rewrite app_nil_r | constructor] ].
Qed.

Lemma epoch_loop_quiet (E : Externals) (c : cfg.t) (batches : list (Batch * Batch)) :
  forall batch_idx, (batch_idx + length batches <= 200)%nat ->
    preserves (frame best_and_files not_validation) (epoch_loop E c batch_idx batches).
Proof.
  induction batches as [|[batch_s batch_t] rest IH]; intros batch_idx Hlen; simpl.
  - frame_steps_for best_and_files not_validation.
  - simpl in Hlen. apply preserves_bind; [apply frame_trans | |].
    + apply train_step_quiet, no_validation_below_200. lia.
    + intros [|]; [apply preserves_ret, frame_refl | apply IH; lia].
Qed.

Lemma train_while_quiet (E : Externals) (c : cfg.t) (fuel : nat) :
  (forall ep, (length (epoch_batches E ep) <= 200)%nat) ->
  preserves (frame best_and_files not_validation) (train_while E c fuel).
Proof.
  intros Hshort. induction fuel as [|fuel IH]; simpl.
  - frame_steps_for best_and_files not_validation.
  - apply preserves_bind; [apply frame_trans | apply preserves_gets, frame_refl |].
    intros [|]; [|apply preserves_ret, frame_refl].
    apply preserves_bind; [apply frame_trans | |].
    + unfold train_one_epoch.
      apply preserves_bind; [apply frame_trans | apply preserves_gets, frame_refl |].
      intros ep.
      apply preserves_bind; [apply frame_trans | | intros ?; apply preserves_ret, frame_refl].
      apply epoch_loop_quiet, Hshort.
    + intros _. apply preserves_bind; [apply frame_trans | | intros _; exact IH].
      apply preserves_modify. frame_setter.
Qed.

(** X4.  When no epoch has more than 200 batch pairs, no step reaches the
    validation at batch 200.  From a trainer whose [best_iter] is not
    assigned, as [__init__] leaves it, [train] then never returns
    normally: whatever happens, [best_iter] stays unassigned, no validation
    runs and no checkpoint, neither [best.pth] nor [final.pth], is
    written. *)
Theorem train_without_validation (E : Externals) (c : cfg.t) (fuel : nat)
    (s s' : Trainer) (r : result bool) :
  (forall ep, (length (epoch_batches E ep) <= 200)%nat) ->
  best_iter s = None ->
  train E c fuel s = (r, s') ->
  r <> Ok true /\ best_iter s' = None /\ files s' = files s /\
  Forall (fun e => not_validation e = true) (new_events s s').
Proof.
  intros Hshort Hbest. unfold train. rewrite bind_run, modify_run. cbv beta iota.
  rewrite bind_run.
  destruct (train_while E c fuel _) as [finished s1] eqn:Hloop.
  destruct (train_while_quiet E c fuel Hshort _ _ _ Hloop) as (Hf & evs & Ht & Hevs).
  assert (Hs1 : best_iter s1 = None /\ files s1 = files s /\ new_events s s1 = evs).
  { unfold best_and_files in Hf. unfold new_events. rewrite Ht.
    destruct s; simpl in *. injection Hf as -> _ ->.
    rewrite drop_app_length. repeat split. exact Hbest. }
  destruct Hs1 as (Hb1 & Hf1 & He1).
  destruct finished as [[|]|e].
  - rewrite bind_run, gets_run. cbv beta iota. rewrite Hb1, bind_run, raise_run.
    intros [= <- <-]. rewrite He1. repeat split; [discriminate | assumption..].
  - rewrite ret_run. intros [= <- <-]. rewrite He1.
    repeat split; [discriminate | assumption..].
  - intros [= <- <-]. rewrite He1. repeat split; [discriminate | assumption..].
Qed.

Lemma train_without_validation_witness :
  let '(r, s') := train Toy.E Toy.config 3 Toy.trainer in
  r <> Ok true /\ best_iter s' = None /\ files s' = files Toy.trainer.
Proof.
  destruct (train Toy.E Toy.config 3 Toy.trainer) as [r s'] eqn:Hrun.
  destruct (train_without_validation Toy.E Toy.config 3 Toy.trainer s' r) as (Hr & Hb & Hf & _).
  - intros ep. vm_compute. lia.
  - reflexivity.
  - exact Hrun.
  - split; [exact Hr|]. split; [exact Hb | exact Hf].
Defined.

(** X5.  When the zipped loaders of every epoch are empty, the loop of
    [train] never ends: after any number of epochs it is still running, no
    step was executed, and only the epoch counter has moved. *)
Theorem train_empty_epochs (E : Externals) (c : cfg.t) (fuel : nat) (s : Trainer) :
  (forall ep, epoch_batches E ep = []) ->
  train E c fuel s
    = (Ok false, set_epoch (epoch s + Z.of_nat fuel) (set_continue_training true s)).
Proof.
  intros Hempty. unfold train. rewrite bind_run, modify_run. cbv beta iota.
  assert (Hloop : forall s1, continue_training s1 = true ->
            train_while E c fuel s1 = (Ok false, set_epoch (epoch s1 + Z.of_nat fuel) s1)).
  { induction fuel as [|fuel IH]; intros s1 Hc; simpl train_while;
      rewrite bind_run, gets_run; cbv beta iota; rewrite Hc.
    - rewrite ret_run. destruct s1; simpl. now rewrite Z.add_0_r.
    - unfold train_one_epoch. rewrite !bind_run, gets_run. cbv beta iota.
      rewrite bind_run. fold (epoch_batches E (epoch s1)). rewrite Hempty.
      simpl epoch_loop.
      repeat first [ rewrite bind_run | rewrite ret_run | rewrite modify_run
                   | progress cbv beta iota ].
      rewrite IH by (now destruct s1). destruct s1; simpl. do 2 f_equal. lia. }
  rewrite bind_run, Hloop by (now destruct s). rewrite ret_run.
  destruct s; reflexivity.
Qed.

Lemma train_empty_epochs_witness :
  train (Toy.world 0 []) Toy.config 7 Toy.trainer
    = (Ok false, set_epoch 7 (set_continue_training true Toy.trainer)).
Proof.
  apply (train_empty_epochs (Toy.world 0 []) Toy.config 7 Toy.trainer).
  intros ep. reflexivity.
Defined.

(** ** Validation *)

Lemma validate_loop_quiet (E : Externals) (c : cfg.t) (mode : Mode)
    (val_loader : list Batch) :
  forall val_idx last,
    preserves (frame counters_and_best is_validation_event)
      (validate_loop E c mode val_idx val_loader last).
Proof.
  induction val_loader as [|b rest IH]; intros val_idx last; simpl.
  - frame_steps_for counters_and_best is_validation_event.
  - unfold emit. frame_steps_for counters_and_best is_validation_event. apply IH.
Qed.

Lemma validate_quiet (E : Externals) (c : cfg.t) (mode : Mode) :
  preserves (frame counters_and_best is_validation_event) (validate E c mode).
Proof.
  unfold validate, unpack_metric, as_number, emit, log_info, add_scalar, del.
  frame_steps_for counters_and_best is_validation_event; apply validate_loop_quiet.
Qed.



(** X7.  [validate] leaves the counters, the metrics of the best
    validation, the parameters and the buffers of the model, the EMA, the
    optimizer, the gradient buffer and the files alone, whether it returns
    or raises; it runs forward passes without gradient tracking only. *)
Theorem validate_frame (E : Externals) (c : cfg.t) (mode : Mode) :
  preserves (frame validate_untouched is_validate_call) (validate E c mode).
Proof.
  assert (Hloop : forall loader val_idx last,
            preserves (frame validate_untouched is_validate_call)
              (validate_loop E c mode val_idx loader last)).
  { induction loader as [|b rest IH]; intros val_idx last; simpl.
    - frame_steps_for validate_untouched is_validate_call.
    - unfold emit. frame_steps_for validate_untouched is_validate_call. apply IH. }
  unfold validate, unpack_metric, as_number, emit, log_info, add_scalar, del.
  frame_steps_for validate_untouched is_validate_call; apply Hloop.
Qed.

Lemma validate_loop_nothing (E : Externals) (c : cfg.t) (mode : Mode)
    (loader : list Batch) (last : option (tensor Z * tensor Z)) (s : Trainer) :
  visited c mode loader = [] ->
  validate_loop E c mode 0 loader last s = (Ok last, s).
Proof.
  unfold visited. destruct loader as [|b rest]; [reflexivity|].
  destruct mode; try discriminate. simpl.
  destruct (Z.to_nat (cfg.source_val_iterations c)) eqn:Hn; [|discriminate].
  intros _. replace (cfg.source_val_iterations c <=? 0) with true; [reflexivity|].
  symmetry. apply Z.leb_le. lia.
Qed.

(** X8.  When [validate] visits no batch, because the loader is empty or,
    on the source, because [source_val_iterations] is not positive, it
    raises [UnboundLocalError] at the variables of the loop body; with a
    mode other than target and source it raises [NotImplementedError].  In
    both cases the evaluator was reset and the model is left in eval
    mode. *)
Theorem validate_nothing_visited (E : Externals) (c : cfg.t) (mode : Mode) (s : Trainer) :
  visited c mode (val_loader E mode) = [] \/ mode = ModeOther ->
  exists s',
    validate E c mode s
      = (Raise (match mode with
                | ModeOther => NotImplementedError
                | _ => UnboundLocalError
                end), s') /\
    evaluator s' = [] /\ training (model s') = false /\ writer s' = writer s.
Proof.
  intros Hnone. unfold validate, log_info. do 4 run_step.
  destruct mode.
  - destruct Hnone as [Hnone | Hnone]; [|discriminate].
    rewrite bind_run, ret_run. cbv beta iota.
    rewrite bind_run, (validate_loop_nothing E c ModeTarget _ None _ Hnone).
    cbv beta iota. eexists. split; [reflexivity|]. destruct s; repeat split.
  - destruct Hnone as [Hnone | Hnone]; [|discriminate].
    rewrite bind_run, ret_run. cbv beta iota.
    rewrite bind_run, (validate_loop_nothing E c ModeSource _ None _ Hnone).
    cbv beta iota. eexists. split; [reflexivity|]. destruct s; repeat split.
  - rewrite bind_run, raise_run. eexists. split; [reflexivity|].
    destruct s; repeat split.
Qed.

Lemma validate_nothing_visited_witness :
  exists s', validate Toy.E Toy.config ModeSource Toy.trainer
               = (Raise UnboundLocalError, s') /\ evaluator s' = [].
Proof.
  destruct (validate_nothing_visited Toy.E Toy.config ModeSource Toy.trainer)
    as (s' & Hrun & Hev & _).
  - left. reflexivity.
  - exists s'. split; [exact Hrun | exact Hev].
Defined.

Lemma visited_from_next (c : cfg.t) (mode : Mode) (val_idx : Z)
    (b : Batch) (rest : list Batch) :
  match mode with ModeSource => true | _ => false end
    && (cfg.source_val_iterations c <=? val_idx) = false ->
  visited_from c mode val_idx (b :: rest)
    = b :: visited_from c mode (val_idx + 1) rest.
Proof.
  unfold visited_from. destruct mode; try reflexivity. simpl.
  intros Hgo. apply Z.leb_gt in Hgo.
  replace (Z.to_nat (cfg.source_val_iterations c - val_idx))
    with (S (Z.to_nat (cfg.source_val_iterations c - (val_idx + 1)))) by lia.
  reflexivity.
Qed.

Lemma visited_from_stop (c : cfg.t) (mode : Mode) (val_idx : Z) (loader : list Batch) :
  loader = [] \/
  match mode with ModeSource => true | _ => false end
    && (cfg.source_val_iterations c <=? val_idx) = true ->
  visited_from c mode val_idx loader = [].
Proof.
  unfold visited_from. intros [-> | Hstop].
  - destruct mode; try reflexivity. apply take_nil.
  - apply andb_prop in Hstop. destruct Hstop as [Hmode Hle].
    destruct mode; try discriminate. apply Z.leb_le in Hle.
    replace (Z.to_nat (cfg.source_val_iterations c - val_idx)) with 0%nat by lia.
    reflexivity.
Qed.

(** The loop of [validate], when it completes: one forward pass without
    gradient tracking and one entry of the evaluator per visited batch. *)
Lemma validate_loop_entries (E : Externals) (c : cfg.t) (mode : Mode)
    (loader : list Batch) :
  forall val_idx last s last' s',
    validate_loop E c mode val_idx loader last s = (Ok last', s') ->
    (visited_from c mode val_idx loader = [] -> last' = last) /\
    exists entries,
      s' = set_evaluator (evaluator s ++ entries)
             (set_trace (trace s ++ forward_events (visited_from c mode val_idx loader)) s) /\
      Forall2 (evaluated E c (model s)) (visited_from c mode val_idx loader) entries.
Proof.
  induction loader as [|b rest IH]; intros val_idx last s last' s'; simpl.
  - rewrite ret_run. intros [= <- <-]. split; [reflexivity|].
    rewrite visited_from_stop by now left.
    exists []. simpl. rewrite !app_nil_r. split; [now destruct s | constructor].
  - destruct (match mode with ModeSource => true | _ => false end
              && (cfg.source_val_iterations c <=? val_idx)) eqn:Hstop.
    + rewrite ret_run. intros [= <- <-]. split; [reflexivity|].
      rewrite visited_from_stop by now right.
      exists []. simpl. rewrite !app_nil_r. split; [now destruct s | constructor].
    + rewrite (visited_from_next _ _ _ _ _ Hstop).
      run. intros Hrest. apply IH in Hrest.
      destruct Hrest as (_ & entries & Hs' & Hall).
      split; [discriminate|].
      exists ((a, a0) :: entries). split.
      { rewrite Hs'. destruct s; simpl. now rewrite <- !app_assoc. }
      assert (Hb : evaluated E c (model s) b (a, a0)).
      { split; [exact Hx|]. simpl. rewrite <- Hx0.
        destruct s; simpl. now destruct (forward_model E _ _ _). }
      replace (model (set_evaluator _ _)) with (model s) in Hall by now destruct s.
      constructor; assumption.
Qed.

(** X9.  When [validate] returns, it visited at least one batch; the model
    is in eval mode; the evaluator holds, in the order of the loader, one
    entry per visited batch (every batch on the target, at most
    [source_val_iterations] on the source): the squeezed labels and the
    argmax over the classes of the main prediction of the model in eval
    mode, and the forward passes of these batches, without gradient
    tracking, are all it runs.  The returned numbers are the metrics of
    this evaluator, the 13-class ones when [class_16] is set, and the
    returned mIoU is written to the tensorboard at the current epoch. *)
Theorem validate_evaluates (E : Externals) (c : cfg.t) (mode : Mode)
    (s s' : Trainer) (PA MPA MIoU FWIoU : Q) :
  validate E c mode s = (Ok (PA, MPA, MIoU, FWIoU), s') ->
  training (model s') = false /\
  visited c mode (val_loader E mode) <> [] /\
  Forall2 (evaluated E c (set_training false (model s)))
    (visited c mode (val_loader E mode)) (evaluator s') /\
  new_events s s' = EvValidate :: forward_events (visited c mode (val_loader E mode)) /\
  PA = Pixel_Accuracy E (evaluator s') /\
  (if cfg.class_16 c then
     exists MPA_16 MIoU_16 FWIoU_16,
       Mean_Pixel_Accuracy E (evaluator s') = Two MPA_16 MPA /\
       Mean_Intersection_over_Union E (evaluator s') = Two MIoU_16 MIoU /\
       Frequency_Weighted_Intersection_over_Union E (evaluator s') = Two FWIoU_16 FWIoU /\
       In ("MIoU_13", MIoU, epoch s) (step_scalars s s')
   else
     Mean_Pixel_Accuracy E (evaluator s') = One MPA /\
     Mean_Intersection_over_Union E (evaluator s') = One MIoU /\
     Frequency_Weighted_Intersection_over_Union E (evaluator s') = One FWIoU /\
     In ("MIoU", MIoU, epoch s) (step_scalars s s')).
Proof.
  unfold validate, log_info. do 4 run_step. rewrite bind_run.
  assert (Hmode : mode <> ModeOther ->
            (match mode with
             | ModeTarget => mret (target_val_dataloader E)
             | ModeSource => mret (source_val_dataloader E)
             | ModeOther => raise NotImplementedError
             end : M (list Batch)) = mret (val_loader E mode))
    by (destruct mode; intros; [reflexivity | reflexivity | congruence]).
  assert (Hdec : mode = ModeOther \/ mode <> ModeOther)
    by (destruct mode; (now left) || (right; discriminate)).
  destruct Hdec as [-> | Hne]; [discriminate|].
  rewrite (Hmode Hne), ret_run. cbv beta iota. clear Hmode. rewrite bind_run.
  match goal with
  | |- (let (_, _) := validate_loop E c mode 0 _ None ?st in _) = _ -> _ =>
      destruct (validate_loop E c mode 0 (val_loader E mode) None st)
        as [[last|e] s1] eqn:Hloop; [|discriminate];
      destruct (validate_loop_entries _ _ _ _ _ _ _ _ _ Hloop)
        as (Hvisited & entries & Hs1 & Hall)
  end.
  clear Hloop.
  replace (visited_from c mode 0 (val_loader E mode))
    with (visited c mode (val_loader E mode)) in *
    by (unfold visited, visited_from; now rewrite Z.sub_0_r).
  unfold del. rewrite bind_run.
  destruct last as [last|]; [|discriminate]. simpl bool_decide.
  rewrite bool_decide_eq_true_2 by eauto. rewrite ret_run. cbv beta iota.
  rewrite bind_run, gets_run. cbv beta iota.
  replace (model (set_model _ _)) with (set_training false (model s)) in Hall
    by now destruct s.
  replace (evaluator s1) with entries by (rewrite Hs1; now destruct s).
  replace (epoch s1) with (epoch s) by (rewrite Hs1; now destruct s).
  assert (Hproj : training (model s1) = false /\ evaluator s1 = entries /\
                  writer s1 = writer s /\
                  drop (length (trace s)) (trace s1)
                    = EvValidate :: forward_events (visited c mode (val_loader E mode))).
  { rewrite Hs1. destruct s; simpl. repeat split.
    now rewrite <- app_assoc, drop_app_length. }
  clear Hs1. destruct Hproj as (Htr & Hev & Hw & Htrace).
  assert (Hne' : visited c mode (val_loader E mode) <> [])
    by (intros Hnil; specialize (Hvisited Hnil); discriminate).
  unfold step_scalars, new_events.
  destruct (cfg.class_16 c); unfold unpack_metric, as_number, add_scalar; run.
  - intros [= <- <- <- <- <-]. destruct s1; simpl in *. subst.
    do 4 (split; [assumption|]). split; [reflexivity|].
    eexists _, _, _. do 3 (split; [eassumption|]).
    rewrite <- !app_assoc, drop_app_length. simpl. tauto.
  - intros [= <- <- <- <- <-]. destruct s1; simpl in *. subst.
    do 4 (split; [assumption|]). split; [reflexivity|].
    do 3 (split; [assumption|]).
    rewrite <- !app_assoc, drop_app_length. simpl. tauto.
Qed.

Lemma validate_evaluates_witness :
  exists s' entry,
    validate (Toy.world 1 [Toy.batch_val]) Toy.config ModeTarget Toy.trainer
      = (Ok (1 # 2, 1 # 2, 41 # 100, 1 # 2)%Q, s') /\
    evaluator s' = [entry] /\
    squeeze1 (label Toy.batch_val) = Ok (fst entry).
Proof.
  pose (run := validate (Toy.world 1 [Toy.batch_val]) Toy.config ModeTarget Toy.trainer).
  assert (Hrun : run = (Ok (1 # 2, 1 # 2, 41 # 100, 1 # 2)%Q, snd run))
    by (vm_compute; reflexivity).
  destruct (validate_evaluates _ _ _ _ _ _ _ _ _ Hrun) as (_ & _ & Hall & _).
  change (visited Toy.config ModeTarget (val_loader (Toy.world 1 [Toy.batch_val]) ModeTarget))
    with [Toy.batch_val] in Hall.
  destruct (evaluator (snd run)) as [|entry rest] eqn:Hev.
  - exfalso. inversion Hall.
  - exists (snd run), entry. split; [exact Hrun|].
    inversion Hall as [|? ? ? ? [Hlabel _] Hrest]; subst. inversion Hrest; subst.
    split; [exact Hev | exact Hlabel].
Defined.

(** ** Checkpoints *)

Lemma strip_module_sound (sd : gmap string pyval) (k' : string) (v : pyval) :
  strip_module sd !! k' = Some v ->
  exists k, sd !! k = Some v /\ replace_module 0 k = k'.
Proof.
  unfold strip_module. intros Hlook. apply elem_of_list_to_map_2 in Hlook.
  rewrite elem_of_reverse in Hlook. apply list_elem_of_fmap in Hlook.
  destruct Hlook as ([k w] & [= -> ->] & Hin).
  apply elem_of_map_to_list in Hin. eauto.
Qed.

Lemma strip_module_complete (sd : gmap string pyval) (k : string) (v : pyval) :
  no_collision sd -> sd !! k = Some v ->
  strip_module sd !! replace_module 0 k = Some v.
Proof.
  unfold strip_module. intros Hinj Hlook. apply elem_of_list_to_map_1.
  - rewrite fmap_reverse, reverse_Permutation.
    rewrite <- list_fmap_compose.
    change (fst ∘ prod_map (replace_module 0) (fun v : pyval => v))
      with (replace_module 0 ∘ (fst : string * pyval -> string)).
    rewrite list_fmap_compose.
    apply NoDup_fmap_2_strong; [|apply NoDup_fst_map_to_list].
    intros k1 k2 H1 H2. apply Hinj.
    + apply list_elem_of_fmap in H1. destruct H1 as ([k1' v1] & -> & H1).
      apply elem_of_map_to_list in H1. eauto.
    + apply list_elem_of_fmap in H2. destruct H2 as ([k2' v2] & -> & H2).
      apply elem_of_map_to_list in H2. eauto.
  - rewrite elem_of_reverse. apply list_elem_of_fmap.
    exists (k, v). split; [reflexivity|]. now apply elem_of_map_to_list.
Qed.

Lemma strip_module_renaming (sd : gmap string pyval) :
  no_collision sd -> renaming_of sd (strip_module sd).
Proof.
  intros Hinj. split.
  - intros k v. now apply strip_module_complete.
  - apply strip_module_sound.
Qed.

(** X10.  When no two keys of a dictionary of the checkpoint collide after
    the renaming, a [load_checkpoint] that completes has handed to
    [load_state_dict] the entries, under their keys without [module.], of
    the shadow entry of the checkpoint when not training and there is one,
    else of its [state_dict] entry when there is one, else of the
    checkpoint itself; in training the shadow entry is not read.  The
    [best_MIou] entry of the checkpoint is never read: [best_MIou] and
    [best_iter] stay as they were, as do the EMA, the gradient buffer and
    the files. *)
Theorem load_checkpoint_model (E : Externals) (c : cfg.t) (ck : checkpoint)
    (s s' : Trainer) :
  (forall d, candidate ck d -> no_collision d) ->
  load_checkpoint E c ck s = (Ok tt, s') ->
  (exists sd renamed,
     load_state_dict E (has_module E) (model s) renamed = (Ok tt, model s') /\
     renaming_of sd renamed /\
     match ck !! "shadow", ck !! "state_dict" with
     | Some v, Some w => if cfg.train c then w = VDict sd else v = VDict sd
     | Some v, None => if cfg.train c then sd = ck else v = VDict sd
     | None, Some w => w = VDict sd
     | None, None => sd = ck
     end) /\
  best_MIou s' = best_MIou s /\ best_iter s' = best_iter s /\
  ema s' = ema s /\ grad s' = grad s /\ files s' = files s.
Proof.
  intros Hfree. unfold load_checkpoint, items. destruct s. unfold_M. simpl.
  intros Hrun.
  destruct (cfg.train c); simpl in Hrun;
    destruct (ck !! "shadow") as [[]|] eqn:Hshadow;
    destruct (ck !! "state_dict") as [[]|] eqn:Hsd;
    simpl in Hrun; try discriminate;
    match type of Hrun with
    | context [load_state_dict E ?b ?m (strip_module ?d)] =>
        destruct (load_state_dict E b m (strip_module d)) as [[[]|e] m'] eqn:Hload;
        [|repeat case_match; discriminate];
        assert (Hren : renaming_of d (strip_module d))
          by (apply strip_module_renaming, Hfree; unfold candidate; auto)
    end;
    repeat case_match; simplify_eq; simpl;
    (split; [eexists _, _; split; [eassumption | split; [eassumption | reflexivity]]
            | repeat split]).
Qed.

Lemma no_collision_singleton (k : string) (v : pyval) : no_collision {[ k := v ]}.
Proof.
  intros k1 k2 [v1 H1] [v2 H2] _.
  apply lookup_singleton_Some in H1. apply lookup_singleton_Some in H2.
  destruct H1 as [<- _]. destruct H2 as [<- _]. reflexivity.
Qed.

Lemma load_checkpoint_model_witness :
  exists s',
    load_checkpoint Toy.E Toy.config
      {[ "state_dict" := VDict {[ "module.w" := VInt 1 ]} ]}
      (set_best_MIou (1 # 2) Toy.trainer) = (Ok tt, s') /\
    best_MIou s' = (1 # 2)%Q.
Proof.
  pose (ck := {[ "state_dict" := VDict {[ "module.w" := VInt 1 ]} ]} : checkpoint).
  pose (run := load_checkpoint Toy.E Toy.config ck (set_best_MIou (1 # 2) Toy.trainer)).
  assert (Hrun : run = (Ok tt, snd run)) by (vm_compute; reflexivity).
  assert (Hfree : forall d, candidate ck d -> no_collision d).
  { intros d [Hd | [Hd | ->]].
    - apply lookup_singleton_Some in Hd. destruct Hd as [Hd _]. discriminate Hd.
    - apply lookup_singleton_Some in Hd. destruct Hd as [_ [= <-]].
      apply no_collision_singleton.
    - apply no_collision_singleton. }
  destruct (load_checkpoint_model Toy.E Toy.config ck
              (set_best_MIou (1 # 2) Toy.trainer) (snd run) Hfree Hrun)
    as (_ & Hbest & _).
  exists (snd run). split; [exact Hrun | exact Hbest].
Defined.

(** X11.  A [load_checkpoint] that raises leaves the counters, the
    optimizer and the best values as they were.  The model is untouched
    when the exception comes from reading the dictionary; it is what
    [load_state_dict] left behind when that call raises, since the tensors
    it could match are copied before it raises; it is the loaded model when
    the failure is in the optimizer entry of a resumed training. *)
Theorem load_checkpoint_raises (E : Externals) (c : cfg.t) (ck : checkpoint)
    (s s' : Trainer) (e : exn) :
  load_checkpoint E c ck s = (Raise e, s') ->
  epoch s' = epoch s /\ iter s' = iter s /\ optimizer s' = optimizer s /\
  best_MIou s' = best_MIou s /\ best_iter s' = best_iter s /\
  (model s' = model s /\
   (exists v, (ck !! "shadow" = Some v \/ ck !! "state_dict" = Some v) /\
      items v = Raise e) \/
   (exists d, load_state_dict E (has_module E) (model s) d = (Raise e, model s')) \/
   cfg.train c && cfg.resume_from_checkpoint c = true /\
   (exists d, load_state_dict E (has_module E) (model s) d = (Ok tt, model s')) /\
   exists v, ck !! "optimizer" = Some v /\
     optimizer_load_state_dict E (optimizer s) v = Raise e).
Proof.
  unfold load_checkpoint. destruct s. unfold_M. simpl.
  intros Hrun.
  repeat case_match; simplify_eq; simpl in *;
    repeat match goal with u : unit |- _ => destruct u end;
    (do 5 (split; [reflexivity|]));
    first
      [ left; split; [reflexivity|]; eexists; split; [eauto | eassumption]
      | right; left; eexists; eassumption
      | right; right; split; [reflexivity|];
        split; [eexists; eassumption | eexists; split; [reflexivity | eassumption]] ].
Qed.

Lemma load_checkpoint_raises_witness :
  exists s',
    load_checkpoint Toy.E Toy.config (<["state_dict" := VInt 3]> Toy.saved)
      (set_iter 5 Toy.trainer) = (Raise AttributeError, s') /\
    iter s' = 5.
Proof.
  eexists. split.
  - vm_compute. reflexivity.
  - eapply (load_checkpoint_raises Toy.E Toy.config (<["state_dict" := VInt 3]> Toy.saved)
              (set_iter 5 Toy.trainer) _ AttributeError).
    vm_compute. reflexivity.
Defined.

(** X12.  The renaming of the keys before [load_state_dict] invents no
    entry: every entry of the renamed dictionary comes from an entry of the
    checkpoint under the renamed key.  A key with the prefix [module.] and
    the key without it are renamed to the same key.  When no two keys of
    the dictionary collide after renaming, no entry is lost either. *)
Theorem strip_module_lookup (sd : gmap string pyval) :
  (forall k' v, strip_module sd !! k' = Some v ->
     exists k, sd !! k = Some v /\ replace_module 0 k = k') /\
  (forall k, replace_module 0 ("module." +:+ k) = replace_module 0 k) /\
  ((forall k1 k2, is_Some (sd !! k1) -> is_Some (sd !! k2) ->
      replace_module 0 k1 = replace_module 0 k2 -> k1 = k2) ->
   forall k v, sd !! k = Some v -> strip_module sd !! replace_module 0 k = Some v).
Proof.
  split; [|split].
  - apply strip_module_sound.
  - intros k. destruct k; reflexivity.
  - intros Hinj k v. now apply strip_module_complete.
Qed.

Lemma strip_module_lookup_witness :
  strip_module {[ "module.layer.weight" := VInt 1 ]} !! "layer.weight" = Some (VInt 1).
Proof.
  destruct (strip_module_lookup {[ "module.layer.weight" := VInt 1 ]}) as (_ & _ & Hkeep).
  apply (Hkeep
           ltac:(intros k1 k2 [v1 H1] [v2 H2] _;
                 apply lookup_singleton_Some in H1; apply lookup_singleton_Some in H2;
                 destruct H1 as [<- _]; destruct H2 as [<- _]; reflexivity)
           "module.layer.weight" (VInt 1)).
  reflexivity.
Defined.


(** X14.  Loading a checkpoint written by [save_checkpoint], when no two
    keys of the saved dictionaries collide after the renaming.  In a
    resumed training [load_state_dict] receives the entries of the saved
    [state_dict] under their keys without [module.], the optimizer the
    saved optimizer state, and the two counters restart at 0, not at the
    saved epoch and iteration.  Outside training [load_state_dict] receives
    the entries of the saved shadow and neither the optimizer nor the
    counters change. *)
Theorem save_then_load (E : Externals) (c : cfg.t) (filename : string)
    (s0 s s' : Trainer) (ck : checkpoint) :
  last (files (snd (save_checkpoint E filename s0))) = Some (filename, ck) ->
  load_checkpoint E c ck s = (Ok tt, s') ->
  (cfg.train c = true ->
   no_collision (VTensor <$> parameters (model s0) ∪ buffers (model s0)) ->
   (exists renamed,
      renaming_of (VTensor <$> parameters (model s0) ∪ buffers (model s0)) renamed /\
      load_state_dict E (has_module E) (model s) renamed = (Ok tt, model s')) /\
   (cfg.resume_from_checkpoint c = true ->
    optimizer_load_state_dict E (optimizer s) (optimizer_state_dict E (optimizer s0))
      = Ok (optimizer s') /\
    epoch s' = 0 /\ iter s' = 0)) /\
  (cfg.train c = false ->
   no_collision (VTensor <$> shadow (ema s0) ∪ shadow_buffers (ema s0)) ->
   (exists renamed,
      renaming_of (VTensor <$> shadow (ema s0) ∪ shadow_buffers (ema s0)) renamed /\
      load_state_dict E (has_module E) (model s) renamed = (Ok tt, model s')) /\
   optimizer s' = optimizer s /\ epoch s' = epoch s /\ iter s' = iter s).
Proof.
  unfold save_checkpoint. rewrite bind_run, gets_run. cbv beta iota.
  rewrite bind_run, emit_run. cbv beta iota zeta. rewrite modify_run.
  replace (files (snd _)) with
    (files s0 ++ [(filename,
       (<["epoch" := VInt (epoch s0 + 1)]>
        (<["iter" := VInt (iter s0)]>
        (<["state_dict" := state_dict (model s0)]>
        (<["shadow" := VDict (VTensor <$> (shadow (ema s0) ∪ shadow_buffers (ema s0)))]>
        (<["optimizer" := optimizer_state_dict E (optimizer s0)]>
        (<["best_MIou" := VFloat (best_MIou s0)]> ∅)))))) : checkpoint)])
    by now destruct s0.
  rewrite last_snoc. intros [= <-].
  unfold load_checkpoint, items. destruct s. unfold_M. simpl.
  rewrite !lookup_insert_ne by discriminate.
  intros Hrun.
  split; intros Htrain Hfree; rewrite Htrain in Hrun; simpl in Hrun.
  - simplify_map_eq. unfold state_dict in Hrun.
    destruct (load_state_dict E _ _ _) as [[[]|e] m] eqn:Hload;
      [|repeat case_match; discriminate].
    assert (Hren := strip_module_renaming _ Hfree).
    destruct (cfg.resume_from_checkpoint c); simpl in Hrun.
    + destruct (optimizer_load_state_dict E _ _) as [o|e] eqn:Hopt; [|discriminate].
      simpl in Hrun. simplify_eq. simpl. split; [eauto|].
      intros _. repeat split.
    + simplify_eq. simpl. split; [eauto|]. discriminate.
  - simplify_map_eq.
    destruct (load_state_dict E _ _ _) as [[[]|e] m] eqn:Hload; [|discriminate].
    assert (Hren := strip_module_renaming _ Hfree).
    simplify_eq. simpl. split; [eauto|]. repeat split.
Qed.

Lemma save_then_load_witness :
  exists ck s',
    last (files (snd (save_checkpoint Toy.E "final.pth" (set_iter 1001 Toy.trainer))))
      = Some ("final.pth", ck) /\
    load_checkpoint Toy.E Toy.config ck Toy.trainer = (Ok tt, s') /\
    iter s' = 0.
Proof.
  pose (s0 := set_iter 1001 Toy.trainer).
  pose (ck := snd (default ("", ∅ : checkpoint)
                     (last (files (snd (save_checkpoint Toy.E "final.pth" s0)))))).
  pose (run := load_checkpoint Toy.E Toy.config ck Toy.trainer).
  assert (Hsave : last (files (snd (save_checkpoint Toy.E "final.pth" s0)))
                  = Some ("final.pth", ck)) by reflexivity.
  assert (Hrun : run = (Ok tt, snd run)) by (vm_compute; reflexivity).
  destruct (save_then_load Toy.E Toy.config "final.pth" s0
              Toy.trainer (snd run) ck Hsave Hrun) as [Htrain _].
  destruct (Htrain eq_refl) as [_ Hres].
  { change (parameters (model s0)) with Toy.live.
    change (buffers (model s0)) with (∅ : params).
    rewrite (right_id_L ∅ (∪)). unfold Toy.live.
    rewrite map_fmap_singleton. apply no_collision_singleton. }
  destruct (Hres eq_refl) as (_ & _ & Hiter).
  exists ck, (snd run). split; [exact Hsave|]. split; [exact Hrun | exact Hiter].
Defined.

(** ** The palette *)

Lemma append_zeros_spec (n : nat) :
  forall p, append_zeros n p = p ++ replicate n 0.
Proof.
  induction n as [|n IH]; intros p; simpl.
  - now rewrite app_nil_r.
  - rewrite IH, <- app_assoc. reflexivity.
Qed.

(** X15.  The padding loop extends a palette with zeros to 768 entries,
    256 colours of three channels, and leaves a palette that is already
    that long as it is; the entries it starts from are kept in place.  The
    palette of the module has 768 entries that all are bytes and starts
    with the colours of the classes. *)
Theorem zero_padded_spec (p : list Z) :
  zero_padded p = p ++ replicate (768 - length p) 0 /\
  length (zero_padded p) = Nat.max 768 (length p) /\
  (forall i, (i < length p)%nat -> zero_padded p !! i = p !! i) /\
  (forall i, (length p <= i < 768)%nat -> zero_padded p !! i = Some 0) /\
  length palette = 768%nat /\
  Forall (fun v => 0 <= v <= 255) palette /\
  take (length palette_colors) palette = palette_colors.
Proof.
  assert (Hpad : zero_padded p = p ++ replicate (768 - length p) 0).
  { unfold zero_padded. cbv zeta. rewrite append_zeros_spec. do 2 f_equal. lia. }
  split; [exact Hpad|]. rewrite Hpad. split; [|split; [|split; [|split; [|split]]]].
  - rewrite length_app, length_replicate. lia.
  - intros i Hi. now rewrite lookup_app_l.
  - intros i Hi. rewrite lookup_app_r by lia.
    apply lookup_replicate_2. lia.
  - reflexivity.
  - vm_compute. repeat constructor; discriminate.
  - reflexivity.
Qed.

(** ** The hybrid image *)

Lemma hybrid_image_batch_one_witness :
  exists hybrid,
    hybrid_image (full [1; 1; 1]%nat true) (image Toy.batch_t) (image Toy.batch_s)
      = Ok hybrid /\
    elt hybrid [0; 0; 0; 0]%nat = (9 # 10)%Q.
Proof.
  destruct (hybrid_image_batch_one (full [1; 1; 1]%nat true) (image Toy.batch_t)
              (image Toy.batch_s) 1 1 eq_refl eq_refl eq_refl) as (hybrid & Hrun & _ & Hpix).
  exists hybrid. split; [exact Hrun|].
  rewrite Hpix by lia. reflexivity.
Defined.

(** ** The original pseudo-label policy *)





(** ** Training without the auxiliary head *)

Lemma begin_step_counters (E : Externals) (c : cfg.t) :
  preserves (frame (fun s => (iter s, grad s)) (fun _ => false)) (begin_step E c).
Proof.
  unfold begin_step, schedule, add_scalar.
  frame_steps_for (fun s : Trainer => (iter s, grad s)) (fun _ : event => false).
Qed.

Lemma source_branch_events (E : Externals) (c : cfg.t) (batch_s batch_t : Batch)
    (losses : list (string * Q)) :
  preserves (frame iter is_loss_event) (source_branch E c batch_s batch_t losses).
Proof.
  unfold source_branch, forward, backward, self_loss, emit, del.
  frame_steps_for iter is_loss_event.
Qed.

Lemma source_branch_without_aux (E : Externals) (c : cfg.t) (batch_s batch_t : Batch)
    (losses : list (string * Q)) (y : tensor Z) (s : Trainer) :
  cfg.aux c = false -> squeeze1 (label batch_s) = Ok y ->
  exists v s',
    source_branch E c batch_s batch_t losses s = (Raise UnboundLocalError, s') /\
    grad s' = grad s ++ [("loss_source", v)].
Proof.
  intros Haux Hy. unfold source_branch. rewrite Hy, Haux.
  unfold forward, backward, del.
  destruct (cfg.source_fourier c);
    repeat first
      [ rewrite bind_run | rewrite emit_run | rewrite modify_run | rewrite gets_run
      | rewrite ret_run | rewrite lift_run | progress cbv beta iota ];
    destruct (unpack _) as [pred_1 pred_2];
    repeat first
      [ rewrite bind_run | rewrite emit_run | rewrite modify_run | rewrite gets_run
      | rewrite ret_run | rewrite lift_run | progress cbv beta iota ];
    rewrite bool_decide_eq_false_2 by (intros [? ?]; discriminate);
    rewrite raise_run; cbv beta iota;
    eexists _, _; (split; [reflexivity|]); destruct s; reflexivity.
Qed.

(** X17.  With [cfg.aux] off no training step completes.  The step raises
    before the optimizer is stepped and before the iteration counter
    moves; when the learning rate was set and the source labels could be
    squeezed, the exception is the [UnboundLocalError] of
    [del loss_source_2], raised after the source loss was propagated into
    the gradient buffer. *)
Theorem train_step_requires_aux (E : Externals) (c : cfg.t) (batch_idx : nat)
    (batch_s batch_t : Batch) (s : Trainer) :
  cfg.aux c = false ->
  exists e s',
    train_step E c batch_idx batch_s batch_t s = (Raise e, s') /\
    iter s' = iter s /\
    Forall (fun ev => is_loss_event ev = true) (new_events s s') /\
    (forall y, fst (begin_step E c s) = Ok tt -> squeeze1 (label batch_s) = Ok y ->
       e = UnboundLocalError /\
       exists v, grad s' = grad s ++ [("loss_source", v)]).
Proof.
  intros Haux. unfold train_step. rewrite bind_run.
  destruct (begin_step E c s) as [[[]|e] s1] eqn:Hbegin;
    destruct (begin_step_counters E c _ _ _ Hbegin) as (Hf & evs & Ht & Hevs);
    assert (Hs1 : iter s1 = iter s /\ grad s1 = grad s /\ trace s1 = trace s).
  1, 3: (destruct evs as [|ev evs]; [|inversion Hevs; discriminate];
         rewrite app_nil_r in Ht; injection Hf as Hi Hg; repeat split; assumption).
  - destruct Hs1 as (Hi1 & Hg1 & Ht1).
    rewrite bind_run. unfold compute_losses. rewrite bind_run.
    destruct (source_branch E c batch_s batch_t [] s1) as [[[[y x_source] l]|e] s2] eqn:Hsrc.
    { apply source_branch_ok in Hsrc. destruct Hsrc as (Htrue & _). congruence. }
    destruct (source_branch_events _ _ _ _ _ _ _ _ Hsrc) as (Hi2 & evs2 & Ht2 & Hevs2).
    exists e, s2. split; [reflexivity|]. split; [congruence|]. split.
    + unfold new_events. rewrite Ht2, Ht1, drop_app_length. exact Hevs2.
    + intros y' _ Hy.
      destruct (source_branch_without_aux E c batch_s batch_t [] y' s1 Haux Hy)
        as (v & s2' & Hrun & Hgrad).
      rewrite Hrun in Hsrc. injection Hsrc as <- <-.
      split; [reflexivity|]. exists v. now rewrite Hgrad, Hg1.
  - destruct Hs1 as (Hi1 & Hg1 & Ht1).
    exists e, s1. split; [reflexivity|]. split; [exact Hi1|]. split.
    + unfold new_events. rewrite Ht1, drop_all. constructor.
    + intros y Hok. discriminate Hok.
Qed.

Lemma train_step_requires_aux_witness :
  exists s',
    train_step Toy.E (Toy.config_with false false 0 0 0) 0 Toy.batch_s Toy.batch_t
      Toy.trainer = (Raise UnboundLocalError, s') /\
    iter s' = 0.
Proof.
  destruct (train_step_requires_aux Toy.E (Toy.config_with false false 0 0 0) 0
              Toy.batch_s Toy.batch_t Toy.trainer eq_refl)
    as (e & s' & Hrun & Hiter & _ & Hexn).
  edestruct Hexn as [-> _]; [reflexivity | reflexivity |].
  exists s'. split; [exact Hrun | exact Hiter].
Defined.

(** ** The order of the calls of a validation block *)

Lemma validate_events (E : Externals) (c : cfg.t) (mode : Mode)
    (s s' : Trainer) (r : result (Q * Q * Q * Q)) :
  validate E c mode s = (r, s') ->
  exists evs, trace s' = trace s ++ EvValidate :: evs /\
    Forall (fun e => is_no_grad_forward e = true) evs.
Proof.
  assert (Hloop : forall loader val_idx last,
            preserves (frame (fun _ : Trainer => tt) is_no_grad_forward)
              (validate_loop E c mode val_idx loader last)).
  { induction loader as [|b rest IH]; intros val_idx last; simpl.
    - frame_steps_for (fun _ : Trainer => tt) is_no_grad_forward.
    - unfold emit. frame_steps_for (fun _ : Trainer => tt) is_no_grad_forward. apply IH. }
  unfold validate. rewrite bind_run, emit_run. cbv beta iota.
  match goal with
  | |- ?k ?st = _ -> _ =>
      assert (Hk : preserves (frame (fun _ : Trainer => tt) is_no_grad_forward) k)
  end.
  { unfold unpack_metric, as_number, log_info, add_scalar, del.
    frame_steps_for (fun _ : Trainer => tt) is_no_grad_forward; apply Hloop. }
  intros Hrun. destruct (Hk _ _ _ Hrun) as (_ & evs & Ht & Hevs).
  exists evs. split; [|exact Hevs].
  rewrite Ht. destruct s; simpl. now rewrite <- app_assoc.
Qed.

(** X18.  A validation block that completes makes its calls in this
    order: the shadow parameters are swapped in, [validate] runs with
    forward passes without gradient tracking only, the live parameters are
    restored, and only then, when the mIoU improved, [best.pth] is
    written: the checkpoint is taken from the restored model. *)
Theorem validation_block_order (E : Externals) (c : cfg.t) (s s' : Trainer) (u : unit) :
  validation_block E c s = (Ok u, s') ->
  exists forwards,
    new_events s s'
      = EvApplyShadow :: EvValidate :: forwards ++ EvRestore ::
        (if Qgtb (current_MIoU s') (best_MIou s) then [EvSave "best.pth"] else []) /\
    Forall (fun e => is_no_grad_forward e = true) forwards.
Proof.
  unfold validation_block. do 3 run_step. rewrite bind_run.
  match goal with
  | |- (let (_, _) := validate E c ModeTarget ?st in _) = _ -> _ =>
      destruct (validate E c ModeTarget st) as [[[[[PA MPA] MIoU] FWIoU]|e] s2] eqn:Hv;
        [|discriminate];
      destruct (validate_events _ _ _ _ _ _ Hv) as (forwards & Ht & Hfw);
      destruct (validate_quiet E c ModeTarget _ _ _ Hv) as (Hf & _)
  end.
  assert (Hs2 : best_MIou s2 = best_MIou s /\
                trace s2 = trace s ++ EvApplyShadow :: EvValidate :: forwards).
  { rewrite Ht. unfold counters_and_best in Hf. destruct s; simpl in *.
    injection Hf as _ _ _ -> _. split; [reflexivity|]. now rewrite <- app_assoc. }
  clear Hf Hv Ht. destruct Hs2 as (Hbm & Ht).
  intros Hrun. exists forwards. split; [|exact Hfw]. revert Hrun.
  unfold add_scalar, save_checkpoint, log_info, new_events. run.
  - intros [= _ <-]. destruct s2; simpl in *. subst. rewrite Hb.
    rewrite <- !app_assoc, drop_app_length. reflexivity.
  - intros [= _ <-]. destruct s2; simpl in *. subst. rewrite Hb.
    rewrite <- !app_assoc, drop_app_length. reflexivity.
Qed.

Lemma validation_block_order_witness :
  exists s' forwards,
    validation_block (Toy.world 1 [Toy.batch_val]) Toy.config Toy.trainer = (Ok tt, s') /\
    new_events Toy.trainer s'
      = EvApplyShadow :: EvValidate :: forwards ++ [EvRestore; EvSave "best.pth"].
Proof.
  pose (run := validation_block (Toy.world 1 [Toy.batch_val]) Toy.config Toy.trainer).
  assert (Hrun : run = (Ok tt, snd run)) by (vm_compute; reflexivity).
  destruct (validation_block_order _ _ _ _ _ Hrun) as (forwards & Hevs & _).
  assert (Hgt : Qgtb (current_MIoU (snd run)) (best_MIou Toy.trainer) = true)
    by (vm_compute; reflexivity).
  rewrite Hgt in Hevs.
  exists (snd run), forwards. split; [exact Hrun | exact Hevs].
Defined.

(** ** The learning rate of a step *)




(** ** Witnesses of the frames *)

Lemma compute_losses_frame_witness :
  loss_untouched (snd (compute_losses Toy.E Toy.config Toy.batch_s Toy.batch_t Toy.trainer))
    = loss_untouched Toy.trainer.
Proof.
  destruct (compute_losses Toy.E Toy.config Toy.batch_s Toy.batch_t Toy.trainer)
    as [r s'] eqn:Hrun.
  exact (proj1 (compute_losses_frame Toy.E Toy.config Toy.batch_s Toy.batch_t
                  Toy.trainer r s' Hrun)).
Defined.

Lemma validate_frame_witness :
  validate_untouched (snd (validate (Toy.world 1 [Toy.batch_val]) Toy.config ModeTarget
                             Toy.trainer))
    = validate_untouched Toy.trainer.
Proof.
  destruct (validate (Toy.world 1 [Toy.batch_val]) Toy.config ModeTarget Toy.trainer)
    as [r s'] eqn:Hrun.
  exact (proj1 (validate_frame (Toy.world 1 [Toy.batch_val]) Toy.config ModeTarget
                  Toy.trainer r s' Hrun)).
Defined.
